(** * The sos plugin collection engine ([sos/plugins/__init__.py])

    A shallow embedding of the collection engine of the [Plugin] base class:
    the predicate evaluator, the forbidden-path check, the recursive path
    copier, the size-limited copy-spec resolver, the command executor with its
    chroot fallback, the collection driver and the command-output
    substitution.

    Python objects are mutated in place; here the plugin instance is an
    explicit record threaded through a state-and-exception monad.  Everything
    the plugin asks of the operating system, of the Python standard library
    (glob, fnmatch, re, os.path) and of the other modules of sos (utilities,
    policy, archive) is read from a [World] record, so that every theorem
    holds for all hosts.  A string is the UTF-8 encoding of the Python
    string: prefix, suffix and substring tests are those of Python, and
    where the code slices by a number of characters the model counts
    characters. *)

From Stdlib Require Import ZArith Lia Ascii Sorted.
From stdpp Require Import base gmap sets list strings pretty.

Local Open Scope Z_scope.

(** ** Python string operations used by the plugin code *)

Module PyStr.

(** [s.startswith(pre)] *)
Fixpoint startswith (s pre : string) : bool :=
  match pre, s with
  | EmptyString, _ => true
  | String _ _, EmptyString => false
  | String a pre', String b s' => Ascii.eqb a b && startswith s' pre'
  end.

(** [sub in s] *)
Fixpoint contains (s sub : string) : bool :=
  startswith s sub ||
  match s with
  | EmptyString => false
  | String _ s' => contains s' sub
  end.

(** [s.endswith(suf)] *)
Definition endswith (s suf : string) : bool :=
  startswith (String.rev s) (String.rev suf).

(** [s.endswith((suf1, suf2, ...))] *)
Definition endswith_any (s : string) (sufs : list string) : bool :=
  existsb (endswith s) sufs.

(** [s[n:]] *)
Fixpoint drop (n : nat) (s : string) : string :=
  match n, s with
  | O, _ => s
  | S _, EmptyString => EmptyString
  | S n', String _ s' => drop n' s'
  end.

(** A character begins at every byte that is not a continuation byte
    ([10xxxxxx]) of the encoding. *)
Definition is_continuation (c : ascii) : bool :=
  let n := nat_of_ascii c in (128 <=? n)%nat && (n <? 192)%nat.

(** [list(s)], the characters of [s] *)
Fixpoint chars (s : string) : list string :=
  match s with
  | EmptyString => []
  | String c s' =>
      match chars s' with
      | String d ch :: rest =>
          if is_continuation d then String c (String d ch) :: rest
          else String c EmptyString :: String d ch :: rest
      | rest => String c EmptyString :: rest
      end
  end.

(** ["".join(l)] *)
Definition join (l : list string) : string := fold_right String.append EmptyString l.

(** [s[0:n]] *)
Definition take (n : nat) (s : string) : string := join (firstn n (chars s)).

(** [s.lstrip(cs)] for a set of characters [cs] *)
Fixpoint lstrip (cs : list ascii) (s : string) : string :=
  match s with
  | EmptyString => EmptyString
  | String a s' => if existsb (Ascii.eqb a) cs then lstrip cs s' else s
  end.

Definition rstrip (cs : list ascii) (s : string) : string :=
  String.rev (lstrip cs (String.rev s)).

(** [s.strip(cs)] *)
Definition strip (cs : list ascii) (s : string) : string :=
  rstrip cs (lstrip cs s).

(** [s.replace(a, b)] for single characters *)
Fixpoint replace_char (a b : ascii) (s : string) : string :=
  match s with
  | EmptyString => EmptyString
  | String c s' => String (if Ascii.eqb c a then b else c) (replace_char a b s')
  end.

(** The characters [str.split()] treats as separators. *)
Definition isspace (c : ascii) : bool :=
  let n := nat_of_ascii c in
  ((9 <=? n)%nat && (n <=? 13)%nat) || ((28 <=? n)%nat && (n <=? 32)%nat).

Fixpoint span_until (stop : ascii -> bool) (s : string) : string :=
  match s with
  | EmptyString => EmptyString
  | String a s' => if stop a then EmptyString else String a (span_until stop s')
  end.

Fixpoint lskip (skip : ascii -> bool) (s : string) : string :=
  match s with
  | EmptyString => EmptyString
  | String a s' => if skip a then lskip skip s' else s
  end.

(** [s.split()[0]]; [None] stands for the [IndexError] of indexing the
    empty list a blank string splits into. *)
Definition first_word (s : string) : option string :=
  match lskip isspace s with
  | EmptyString => None
  | w => Some (span_until isspace w)
  end.

(** [s.split(c)[0]] *)
Definition split_head (c : ascii) (s : string) : string :=
  span_until (Ascii.eqb c) s.

(** Python truthiness of a string *)
Definition truthy (s : string) : bool :=
  match s with EmptyString => false | _ => true end.

End PyStr.

(** ** [os.path] functions that do not touch the file system *)

Module OsPath.

Definition sep : ascii := "/"%char.

Definition isabs (p : string) : bool := PyStr.startswith p "/".

(** [os.path.join(a, b)] *)
Definition join (a b : string) : string :=
  if PyStr.startswith b "/" then b
  else if negb (PyStr.truthy a) || PyStr.endswith a "/" then a +:+ b
  else a +:+ "/" +:+ b.

(** [os.path.join(a, b, c, ...)] *)
Definition joinl (a : string) (bs : list string) : string :=
  fold_left join bs a.

(** [os.path.dirname(p)]: everything up to the last slash, with the
    trailing slashes removed unless nothing else is left. *)
Definition dirname (p : string) : string :=
  let rhead := PyStr.lskip (fun c => negb (Ascii.eqb c sep)) (String.rev p) in
  match PyStr.lstrip [sep] rhead with
  | EmptyString => String.rev rhead
  | r => String.rev r
  end.

End OsPath.

(** ** Exceptions and outcomes *)

Inductive exn : Type :=
| IndexError
| TypeError
| OSError (errno : Z)
| IOError (errno : Z)
| ReError
| OverflowError
| UnicodeDecodeError.

Definition ENOENT : Z := 2.
Definition ELOOP : Z := 40.

(** The result of running a method from plugin state [S]: it returns a value,
    raises, or the model has run out of recursion budget. *)
Inductive outcome (S A : Type) : Type :=
| Returned (a : A) (s : S)
| Raised (e : exn) (s : S)
| Diverged.
Arguments Returned {S A} a s.
Arguments Raised {S A} e s.
Arguments Diverged {S A}.

Definition M (S A : Type) : Type := S -> outcome S A.

Definition ret {S A} (a : A) : M S A := fun s => Returned a s.
Definition raise {S A} (e : exn) : M S A := fun s => Raised e s.
Definition diverge {S A} : M S A := fun _ => Diverged.
Definition bind {S A B} (m : M S A) (k : A -> M S B) : M S B :=
  fun s =>
    match m s with
    | Returned a s' => k a s'
    | Raised e s' => Raised e s'
    | Diverged => Diverged
    end.
Definition gets {S A} (f : S -> A) : M S A := fun s => Returned (f s) s.
Definition modify {S} (f : S -> S) : M S unit := fun s => Returned tt (f s).

(** [try: m except <handled> as e: h e] *)
Definition try_except {S A} (m : M S A) (handled : exn -> bool) (h : exn -> M S A) : M S A :=
  fun s =>
    match m s with
    | Raised e s' => if handled e then h e s' else Raised e s'
    | r => r
    end.

(** A pure computation that may raise. *)
Definition lift {S A} (r : exn + A) : M S A :=
  match r with
  | inl e => raise e
  | inr a => ret a
  end.

Notation "x <- c ;; k" := (bind c (fun x => k))
  (at level 100, c at next level, right associativity).
Notation "c ;;; k" := (bind c (fun _ => k))
  (at level 100, right associativity).

Definition is_OSError (e : exn) : bool :=
  match e with OSError _ => true | _ => false end.
Definition any_Exception (e : exn) : bool := true.

(** ** Data model *)

(** [os.stat_result], the fields the plugin reads. *)
Record stat_result : Type := mk_stat {
  st_mode : Z;
  st_size : Z;
  st_rdev : Z;
  st_mtime : Z
}.

(** The [stat] module's file-type tests on [st_mode]. *)
Module Stat.
Definition S_IFMT (mode : Z) : Z := Z.land mode 0xF000.
Definition S_ISDIR (mode : Z) : bool := S_IFMT mode =? 0x4000.
Definition S_ISCHR (mode : Z) : bool := S_IFMT mode =? 0x2000.
Definition S_ISBLK (mode : Z) : bool := S_IFMT mode =? 0x6000.
Definition S_ISREG (mode : Z) : bool := S_IFMT mode =? 0x8000.
Definition S_ISFIFO (mode : Z) : bool := S_IFMT mode =? 0x1000.
Definition S_ISLNK (mode : Z) : bool := S_IFMT mode =? 0xA000.
Definition S_ISSOCK (mode : Z) : bool := S_IFMT mode =? 0xC000.
End Stat.

(** What ends up in the archive: literal text, or the final bytes of a file
    on the host (file contents themselves are not modelled). *)
Inductive content : Type :=
| Text (s : string)
| Whole (path : string)
| Tail (path : string) (nbytes : Z).

(** A [SoSPredicate]: [_dry_run], [_kmods], [_services]; the owner is the
    plugin the predicate is evaluated for. *)
Record SoSPredicate : Type := mk_pred {
  _dry_run : bool;
  _kmods : list string;
  _services : list string
}.

(** A [SoSCommand]: the keyword arguments of [_add_cmd_output], handed
    unchanged to [_get_cmd_output_now]. *)
Record SoSCommand : Type := mk_cmd {
  cmd : string;
  suggest_filename : option string;
  root_symlink : option string;
  timeout : option Z;
  stderr : bool;
  chroot : bool;
  runat : option string;
  env : option (list (string * string));
  binary : bool;
  sizelimit : option Z;
  subdir : option string
}.

(** An entry of [copied_files]. *)
Record CopiedFile : Type := mk_copied {
  srcpath : string;
  dstpath : string;
  symlink : string;
  pointsto : option string
}.

(** An entry of [executed_commands]. *)
Record ExecutedCommand : Type := mk_executed {
  exe : string;
  file : option string;
  binary_flag : string
}.

(** The arguments of [sos_get_command_output] and its result dictionary. *)
Record exec_request : Type := mk_req {
  x_command : string;
  x_timeout : option Z;
  x_stderr : bool;
  x_chroot : option string;
  x_chdir : option string;
  x_env : option (list (string * string));
  x_binary : bool;
  x_sizelimit : option Z
}.

Record cmd_result : Type := mk_result {
  status : Z;
  output : string
}.

(** Calls made on the archive, in order. *)
Inductive archive_entry : Type :=
| add_file (src dest : string)
| add_string (c : content) (dest : string)
| add_binary (c : content) (dest : string)
| add_link (source link_name : string)
| add_node (path : string) (mode : Z) (device : Z).

Inductive level : Type := ERROR | WARNING | INFO | DEBUG.

(** The operands of a log message's format string; the formatted text is
    [fmt % args] and is not computed. *)
Inductive logarg : Type :=
| A_str (s : string)
| A_strs (l : list string)
| A_int (z : Z)
| A_bool (b : bool)
| A_pred (p : option SoSPredicate)
| A_cmd (c : SoSCommand)
| A_content (c : content)
| A_exn (e : exn)
| A_elapsed.

(** What the plugin does to the outside world, in order: log records, calls
    into the file system, and commands run. *)
Inductive event : Type :=
| Log (lvl : level) (fmt : string) (args : list logarg)
| Call (fn : string) (path : string)
| Exec (req : exec_request).

(** [commons['cmdlineopts']], the options the engine reads. *)
Record cmdlineopts : Type := mk_opts {
  opt_chroot : string;
  opt_dry_run : bool;
  opt_log_size : Z;
  opt_all_logs : bool
}.

(** A [Plugin] instance. *)
Record Plugin : Type := mk_plugin {
  plugin_name : string;
  sysroot : string;
  cmddir : string;
  opts : cmdlineopts;
  predicate : option SoSPredicate;
  cmd_predicate : option SoSPredicate;
  _timeout_hit : bool;
  forbidden_paths : list string;
  copied_files : list CopiedFile;
  executed_commands : list ExecutedCommand;
  copy_paths : gset string;
  copy_strings : list (content * string);
  collect_cmds : list SoSCommand;
  archive : list archive_entry;
  trace : list event
}.

Definition with_copied_files (f : list CopiedFile -> list CopiedFile) (p : Plugin) : Plugin :=
  mk_plugin (plugin_name p) (sysroot p) (cmddir p) (opts p) (predicate p) (cmd_predicate p)
    (_timeout_hit p) (forbidden_paths p) (f (copied_files p)) (executed_commands p)
    (copy_paths p) (copy_strings p) (collect_cmds p) (archive p) (trace p).

Definition with_executed_commands (f : list ExecutedCommand -> list ExecutedCommand) (p : Plugin) : Plugin :=
  mk_plugin (plugin_name p) (sysroot p) (cmddir p) (opts p) (predicate p) (cmd_predicate p)
    (_timeout_hit p) (forbidden_paths p) (copied_files p) (f (executed_commands p))
    (copy_paths p) (copy_strings p) (collect_cmds p) (archive p) (trace p).

Definition with_copy_paths (f : gset string -> gset string) (p : Plugin) : Plugin :=
  mk_plugin (plugin_name p) (sysroot p) (cmddir p) (opts p) (predicate p) (cmd_predicate p)
    (_timeout_hit p) (forbidden_paths p) (copied_files p) (executed_commands p)
    (f (copy_paths p)) (copy_strings p) (collect_cmds p) (archive p) (trace p).

Definition with_copy_strings (f : list (content * string) -> list (content * string)) (p : Plugin) : Plugin :=
  mk_plugin (plugin_name p) (sysroot p) (cmddir p) (opts p) (predicate p) (cmd_predicate p)
    (_timeout_hit p) (forbidden_paths p) (copied_files p) (executed_commands p)
    (copy_paths p) (f (copy_strings p)) (collect_cmds p) (archive p) (trace p).

Definition with_collect_cmds (f : list SoSCommand -> list SoSCommand) (p : Plugin) : Plugin :=
  mk_plugin (plugin_name p) (sysroot p) (cmddir p) (opts p) (predicate p) (cmd_predicate p)
    (_timeout_hit p) (forbidden_paths p) (copied_files p) (executed_commands p)
    (copy_paths p) (copy_strings p) (f (collect_cmds p)) (archive p) (trace p).

Definition with_forbidden_paths (f : list string -> list string) (p : Plugin) : Plugin :=
  mk_plugin (plugin_name p) (sysroot p) (cmddir p) (opts p) (predicate p) (cmd_predicate p)
    (_timeout_hit p) (f (forbidden_paths p)) (copied_files p) (executed_commands p)
    (copy_paths p) (copy_strings p) (collect_cmds p) (archive p) (trace p).

Definition with_archive (f : list archive_entry -> list archive_entry) (p : Plugin) : Plugin :=
  mk_plugin (plugin_name p) (sysroot p) (cmddir p) (opts p) (predicate p) (cmd_predicate p)
    (_timeout_hit p) (forbidden_paths p) (copied_files p) (executed_commands p)
    (copy_paths p) (copy_strings p) (collect_cmds p) (f (archive p)) (trace p).

Definition with_trace (f : list event -> list event) (p : Plugin) : Plugin :=
  mk_plugin (plugin_name p) (sysroot p) (cmddir p) (opts p) (predicate p) (cmd_predicate p)
    (_timeout_hit p) (forbidden_paths p) (copied_files p) (executed_commands p)
    (copy_paths p) (copy_strings p) (collect_cmds p) (archive p) (f (trace p)).

(** The plugin [p] after the events [evs]. *)
Definition after_events (evs : list event) (p : Plugin) : Plugin :=
  with_trace (fun t => t ++ evs) p.

(** ** The world outside the plugin

    The file system of the host, the Python library functions whose result
    depends on it or that are not part of this file, and the collaborators of
    the plugin in sos.  [os_stat] answers with [inl errno] when the call
    raises [OSError]; [str_isalnum] is [str.isalnum] on one character that
    is not ASCII. *)
Record World : Type := mk_world {
  os_lstat : string -> option stat_result;
  os_stat : string -> Z + stat_result;
  os_readlink : string -> string;
  os_listdir : string -> Z + list string;
  os_access_R_OK : string -> bool;
  os_path_exists : list archive_entry -> string -> bool;
  os_path_realpath : string -> string;
  os_path_normpath : string -> string;
  os_path_relpath : string -> string -> string;
  glob_glob : string -> list string;
  fnmatch_fnmatch : string -> string -> bool;
  re_subn : string -> string -> content -> exn + (content * Z);
  grep : string -> string -> list string;
  init_system_is_running : string -> bool;
  sos_get_command_output : list event -> exec_request -> cmd_result;
  archive_name_max : nat;
  archive_get_archive_path : string;
  str_isalnum : string -> bool
}.

(** [os.path.isdir] and [os.path.getmtime] are [os.stat] underneath. *)
Definition os_path_isdir (w : World) (path : string) : bool :=
  match os_stat w path with
  | inr st => Stat.S_ISDIR (st_mode st)
  | inl _ => false
  end.

(** The Linux encoding of device numbers ([gnu_dev_major], [gnu_dev_minor]
    and [gnu_dev_makedev] of the C library), on which [os.major], [os.minor]
    and [os.makedev] rest. *)
Definition gnu_dev_major (dev : Z) : Z :=
  Z.lor (Z.land (Z.shiftr dev 32) 0xFFFFF000) (Z.land (Z.shiftr dev 8) 0xFFF).
Definition gnu_dev_minor (dev : Z) : Z :=
  Z.lor (Z.land (Z.shiftr dev 12) 0xFFFFFF00) (Z.land dev 0xFF).
Definition gnu_dev_makedev (major minor : Z) : Z :=
  Z.lor (Z.lor (Z.shiftl (Z.land major 0xFFFFF000) 32) (Z.shiftl (Z.land major 0xFFF) 8))
        (Z.lor (Z.shiftl (Z.land minor 0xFFFFFF00) 12) (Z.land minor 0xFF)).

(** [os.major] and [os.minor] take a [dev_t], an unsigned 64-bit integer,
    and give an unsigned 32-bit one; [os.makedev] takes two C [int]s.  A
    Python integer that does not fit the C type raises [OverflowError].  The
    device number [os.makedev] returns is read back as a signed 64-bit
    integer. *)
Definition fits_dev_t (dev : Z) : bool := (0 <=? dev) && (dev <? 2 ^ 64).
Definition fits_int (n : Z) : bool := (- 2 ^ 31 <=? n) && (n <? 2 ^ 31).
Definition os_major (dev : Z) : exn + Z :=
  if fits_dev_t dev then inr (gnu_dev_major dev) else inl OverflowError.
Definition os_minor (dev : Z) : exn + Z :=
  if fits_dev_t dev then inr (gnu_dev_minor dev) else inl OverflowError.
Definition os_makedev (major minor : Z) : exn + Z :=
  if fits_int major && fits_int minor then
    let dev := gnu_dev_makedev major minor in
    inr (if dev <? 2 ^ 63 then dev else dev - 2 ^ 64)
  else inl OverflowError.

(** Modelled from the spec: the archive collaborator of section 6 is not part
    of this file; [open_file(path).read()] is taken to return what the last
    [add_string], [add_binary] or [add_file] stored under [path], and to raise
    [IOError] (ENOENT) when nothing was stored there. *)
Fixpoint archive_lookup (entries : list archive_entry) (path : string) : option content :=
  match entries with
  | [] => None
  | e :: rest =>
      match archive_lookup rest path with
      | Some c => Some c
      | None =>
          match e with
          | add_string c dest | add_binary c dest =>
              if String.eqb dest path then Some c else None
          | add_file src dest =>
              if String.eqb dest path then Some (Whole src) else None
          | _ => None
          end
      end
  end.

(** ** Module-level helpers *)

(** [_path_in_path_list]: [any(p in path for p in path_list)] *)
Definition _path_in_path_list (path : string) (path_list : list string) : bool :=
  existsb (fun p => PyStr.contains path p) path_list.

(** Python truthiness of a list *)
Definition list_truthy {A} (l : list A) : bool :=
  match l with [] => false | _ => true end.

(** Python truthiness of an optional number ([None] and [0] are false) *)
Definition num_truthy (n : option Z) : bool :=
  match n with Some z => negb (z =? 0) | None => false end.

(** Python truthiness of an optional string *)
Definition optstr_truthy (s : option string) : bool :=
  match s with Some s => PyStr.truthy s | None => false end.

(** [for x in l: body x] *)
Fixpoint for_each {S A} (l : list A) (body : A -> M S unit) : M S unit :=
  match l with
  | [] => ret tt
  | x :: rest => body x ;;; for_each rest body
  end.

(** [_file_is_compressed] *)
Definition _file_is_compressed (path : string) : bool :=
  PyStr.endswith_any path [".gz"; ".xz"; ".bz"; ".bz2"].

(** ** Logging, archive and file-system calls *)

Definition log (lvl : level) (fmt : string) (args : list logarg) : M Plugin unit :=
  modify (after_events [Log lvl fmt args]).
Definition _log_error := log ERROR.
Definition _log_warn := log WARNING.
Definition _log_info := log INFO.
Definition _log_debug := log DEBUG.

Definition call (fn path : string) : M Plugin unit :=
  modify (after_events [Call fn path]).

Definition archive_call (e : archive_entry) : M Plugin unit :=
  modify (with_archive (fun a => a ++ [e])).

(** [archive.open_file(path).read()] *)
Definition archive_open_file_read (path : string) : M Plugin content :=
  fun p =>
    match archive_lookup (archive p) path with
    | Some c => Returned c p
    | None => Raised (IOError ENOENT) p
    end.

(** ** Sysroot translation *)

Definition name (p : Plugin) : string := plugin_name p.

Definition use_sysroot (p : Plugin) : bool :=
  negb (String.eqb (sysroot p) "/").

Definition join_sysroot (p : Plugin) (path : string) : exn + string :=
  match path with
  | EmptyString => inl IndexError
  | String c rest =>
      inr (OsPath.join (sysroot p) (if Ascii.eqb c OsPath.sep then rest else path))
  end.

Definition strip_sysroot (p : Plugin) (path : string) : string :=
  if negb (use_sysroot p) then path
  else if PyStr.startswith path (sysroot p)
       then PyStr.drop (String.length (sysroot p)) path
       else path.

(** ** Predicates *)

(** [Plugin.is_module_loaded] *)
Definition is_module_loaded (w : World) (module_name : string) : bool :=
  match grep w ("^" +:+ module_name +:+ " ") "/proc/modules" with
  | [] => false
  | _ => true
  end.

(** [Plugin.service_is_running] *)
Definition service_is_running (w : World) (svc : string) : bool :=
  init_system_is_running w svc.

(** [SoSPredicate.__nonzero__], the method the class defines for its truth
    value. *)
Definition __nonzero__(w : World) (self : SoSPredicate) : bool :=
  let pvalue := false in
  let pvalue := fold_left (fun pvalue k => pvalue || is_module_loaded w k) (_kmods self) pvalue in
  let pvalue := fold_left (fun pvalue s => pvalue || service_is_running w s) (_services self) pvalue in
  if negb (existsb id [list_truthy (_kmods self);
                       list_truthy (_services self);
                       _dry_run self])
  then true
  else pvalue && negb (_dry_run self).

Definition get_predicate (p : Plugin) (cmd : bool) (pred : option SoSPredicate)
  : option SoSPredicate :=
  match pred with
  | Some _ => pred
  | None =>
      match cmd, cmd_predicate p with
      | true, Some c => Some c
      | _, _ => predicate p
      end
  end.

(** [bool(pred)] for a predicate object.  Python 3 asks the class for
    [__bool__], then for [__len__]; [SoSPredicate] has neither (it only
    defines [__nonzero__], the name Python 2 looked for), so the object is
    true and [__nonzero__] is not called. *)
Definition bool_of_predicate (pred : SoSPredicate) : bool := true.

(** [Plugin.test_predicate]: [False] when no predicate is in force,
    [bool(pred)] otherwise.  The host is not consulted. *)
Definition test_predicate (w : World) (p : Plugin) (cmd : bool) (pred : option SoSPredicate)
  : bool :=
  match get_predicate p cmd pred with
  | Some pr => bool_of_predicate pr
  | None => false
  end.

(** ** Forbidden paths *)

Definition sysroot_joined (p : Plugin) (path : string) : exn + string :=
  if use_sysroot p then join_sysroot p path else inr path.

(** [Plugin._is_forbidden_path] *)
Definition _is_forbidden_path (p : Plugin) (path : string) : exn + bool :=
  match sysroot_joined p path with
  | inl e => inl e
  | inr path => inr (_path_in_path_list path (forbidden_paths p))
  end.

(** [[f x for x in l]] for an [f] that may raise *)
Fixpoint map_raising {A B} (f : A -> exn + B) (l : list A) : exn + list B :=
  match l with
  | [] => inr []
  | x :: rest =>
      match f x with
      | inl e => inl e
      | inr y =>
          match map_raising f rest with
          | inl e => inl e
          | inr ys => inr (y :: ys)
          end
      end
  end.

(** The body of the loop of [add_forbidden_path]. *)
Definition register_forbidden (w : World) (forbid : string) : M Plugin unit :=
  _log_info "adding forbidden path '%s'" [A_str forbid] ;;;
  call "glob.glob" forbid ;;;
  modify (with_forbidden_paths (fun l => l ++ glob_glob w forbid)).

(** [Plugin.add_forbidden_path] for a list of paths *)
Definition add_forbidden_path (w : World) (forbidden : list string) : M Plugin unit :=
  self <- gets id ;;
  forbidden <- (if use_sysroot self
                then lift (map_raising (join_sysroot self) forbidden)
                else ret forbidden) ;;
  for_each forbidden (register_forbidden w).

(** ** The path copier *)

(** [_node_type] *)
Definition _node_type (st : stat_result) : option string :=
  let _types :=
    [(Stat.S_ISBLK, "block device");
     (Stat.S_ISCHR, "character device");
     (Stat.S_ISFIFO, "named pipe");
     (Stat.S_ISSOCK, "socket")] in
  snd <$> List.find (fun t => fst t (st_mode st)) _types.

(** [Plugin._copy_node] *)
Definition _copy_node (path : string) (st : stat_result) : M Plugin unit :=
  dev_maj <- lift (os_major (st_rdev st)) ;;
  dev_min <- lift (os_minor (st_rdev st)) ;;
  let mode := st_mode st in
  dev <- lift (os_makedev dev_maj dev_min) ;;
  archive_call (add_node path mode dev).

Section copier.
Variable w : World.
(** The recursive call to [_do_copy_path]. *)
Variable do_copy_path : string -> option string -> M Plugin (option string).

(** [Plugin._copy_symlink] *)
Definition _copy_symlink (srcpath : string) : M Plugin unit :=
  self <- gets id ;;
  call "os.readlink" srcpath ;;;
  let linkdest := os_readlink w srcpath in
  let dest := OsPath.join (OsPath.dirname srcpath) linkdest in
  let absdest := os_path_normpath w dest in
  reldest <-
    (if OsPath.isabs linkdest then
       let realdir := os_path_realpath w (OsPath.dirname srcpath) in
       let reldest := os_path_relpath w linkdest realdir in
       let reldest :=
         if use_sysroot self then PyStr.drop (String.length "/..") reldest else reldest in
       _log_debug "made link target '%s' relative as '%s'" [A_str linkdest; A_str reldest] ;;;
       ret reldest
     else ret linkdest) ;;
  _log_debug "copying link '%s' pointing to '%s' with isdir=%s"
             [A_str srcpath; A_str linkdest; A_bool (os_path_isdir w absdest)] ;;;
  let dstpath := strip_sysroot self srcpath in
  archive_call (add_link reldest dstpath) ;;;
  if os_path_isdir w absdest then
    _log_debug "link '%s' is a directory, skipping..." [A_str linkdest]
  else
    modify (with_copied_files
              (fun l => l ++ [mk_copied srcpath dstpath "yes" (Some linkdest)])) ;;;
    call "os.stat" absdest ;;;
    let looped :=
      match os_stat w absdest with
      | inl errno => errno =? 40
      | inr _ => false
      end in
    if looped then
      _log_debug "link '%s' is part of a file system loop, skipping target..."
                 [A_str dstpath]
    else
      _log_debug "normalized link target '%s' as '%s'" [A_str linkdest; A_str absdest] ;;;
      if negb (String.eqb absdest srcpath) then
        do_copy_path (strip_sysroot self absdest) None ;;; ret tt
      else
        _log_debug "link '%s' points to itself, skipping target..." [A_str linkdest].

(** [Plugin._copy_dir] *)
Definition _copy_dir (srcpath : string) : M Plugin unit :=
  try_except
    (call "os.listdir" srcpath ;;;
     entries <- lift (match os_listdir w srcpath with
                      | inl errno => inl (OSError errno)
                      | inr l => inr l
                      end) ;;
     for_each entries
       (fun afile =>
          _log_debug "recursively adding '%s' from '%s'" [A_str afile; A_str srcpath] ;;;
          do_copy_path (OsPath.join srcpath afile) None ;;; ret tt))
    is_OSError
    (fun e =>
       match e with
       | OSError errno =>
           if errno =? ELOOP then
             _log_error "_copy_dir: %s '%s'"
                        [A_str "Too many levels of symbolic links copying"; A_str srcpath]
           else raise e
       | _ => raise e
       end).

(** [Plugin._do_copy_path], one level *)
Definition _do_copy_path_body (srcpath : string) (dest : option string)
  : M Plugin (option string) :=
  self <- gets id ;;
  if _timeout_hit self then ret None
  else
    forbidden <- lift (_is_forbidden_path self srcpath) ;;
    if forbidden then
      _log_debug "skipping forbidden path '%s'" [A_str srcpath] ;;;
      ret (Some "")
    else
      let dest := if optstr_truthy dest then default srcpath dest else srcpath in
      let dest := if use_sysroot self then strip_sysroot self dest else dest in
      call "os.lstat" srcpath ;;;
      match os_lstat w srcpath with
      | None =>
          _log_info "failed to stat '%s'" [A_str srcpath] ;;;
          ret None
      | Some st =>
          if Stat.S_ISLNK (st_mode st) then
            _copy_symlink srcpath ;;; ret None
          else if Stat.S_ISDIR (st_mode st) && os_access_R_OK w srcpath then
            _copy_dir srcpath ;;; ret None
          else if negb (Stat.S_ISREG (st_mode st) || Stat.S_ISDIR (st_mode st)) then
            _log_debug "creating %s node at archive:'%s'"
                       [A_str (default "None" (_node_type st)); A_str dest] ;;;
            _copy_node srcpath st ;;;
            ret None
          else
            _log_debug "copying path '%s' to archive:'%s'" [A_str srcpath; A_str dest] ;;;
            (if Z.land (st_mode st) 0x124 =? 0
             then archive_call (add_string (Text "") dest)
             else archive_call (add_file srcpath dest)) ;;;
            modify (with_copied_files
                      (fun l => l ++ [mk_copied srcpath dest "no" None])) ;;;
            ret None
      end.
End copier.

(** [Plugin._do_copy_path]: [fuel] bounds the depth of the recursion through
    directories and symbolic links; a call that needs none succeeds with
    [fuel = 0]. *)
Fixpoint _do_copy_path (fuel : nat) (w : World) (srcpath : string) (dest : option string)
  : M Plugin (option string) :=
  _do_copy_path_body w
    (match fuel with
     | O => fun _ _ => diverge
     | S fuel' => _do_copy_path fuel' w
     end)
    srcpath dest.

(** ** The copy-spec resolver *)

(** [Plugin.get_option] for the global options the resolver reads *)
Definition get_option_log_size (p : Plugin) : Z := opt_log_size (opts p).
Definition get_option_all_logs (p : Plugin) : bool := opt_all_logs (opts p).

(** [Plugin._add_copy_paths] *)
Definition _add_copy_paths (paths : list string) : M Plugin unit :=
  modify (with_copy_paths (fun s => s ∪ list_to_set paths)).

(** [Plugin.add_string_as_file] *)
Definition add_string_as_file (w : World) (c : content) (filename : string)
  (pred : option SoSPredicate) : M Plugin unit :=
  self <- gets id ;;
  if negb (test_predicate w self false pred) then
    _log_info "skipped string ...'%s' due to predicate (%s)"
              [A_content c; A_pred (get_predicate self false pred)]
  else
    modify (with_copy_strings (fun l => l ++ [(c, filename)])) ;;;
    _log_debug "added string ...'%s' as '%s'" [A_content c; A_str filename].

(** Modelled from the spec: [sos.utilities.tail] is imported, not defined in
    this file.  Section 4.3 has it "read ... only its final bytes up to" the
    byte count it is given, so the result is the last [number_of_bytes] bytes
    of the file, or all of it when the file is shorter. *)
Definition tail (w : World) (path : string) (number_of_bytes : Z) : exn + content :=
  match os_stat w path with
  | inl errno => inl (IOError errno)
  | inr st => inr (Tail path (Z.min (st_size st) number_of_bytes))
  end.

(** The sort key of [add_copy_spec]: [os.path.getmtime], or [0] on [OSError]. *)
Definition getmtime (w : World) (path : string) : Z :=
  match os_stat w path with
  | inr st => st_mtime st
  | inl _ => 0
  end.

(** [files.sort(key=getmtime, reverse=True)]: a stable sort, largest key
    first; files with equal keys keep their order. *)
Fixpoint insert_by_mtime (key : string -> Z) (x : string) (l : list string) : list string :=
  match l with
  | [] => [x]
  | y :: l' => if key y <=? key x then x :: l else y :: insert_by_mtime key x l'
  end.

Definition sort_newest_first (key : string -> Z) (files : list string) : list string :=
  foldr (insert_by_mtime key) [] files.

(** The loop [for _file in files] of [add_copy_spec]; the result is
    [(limit_reached, _file)] as the code after the loop sees them. *)
Fixpoint scan_files (w : World) (sizelimit : option Z) (files : list string)
  (current_size : Z) (_file : option string) : M Plugin (bool * option string) :=
  match files with
  | [] => ret (false, _file)
  | f :: rest =>
      self <- gets id ;;
      forbidden <- lift (_is_forbidden_path self f) ;;
      if forbidden then
        _log_debug "skipping forbidden path '%s'" [A_str f] ;;;
        scan_files w sizelimit rest current_size (Some f)
      else
        call "os.stat" f ;;;
        current_size <-
          match os_stat w f with
          | inr st => ret (current_size + st_size st)
          | inl _ => _log_info "failed to stat '%s'" [A_str f] ;;; ret current_size
          end ;;
        if num_truthy sizelimit && (current_size >? default 0 sizelimit) then
          ret (true, Some f)
        else
          _add_copy_paths [f] ;;;
          scan_files w sizelimit rest current_size (Some f)
  end.

(** The name of the tail artifact for a file name without its leading
    slashes. *)
Definition tailed_name (file_name : string) : string :=
  PyStr.replace_char OsPath.sep "."%char file_name +:+ ".tailed".

(** The tail fallback of [add_copy_spec], run when the limit was reached. *)
Definition tail_fallback (w : World) (sizelimit : option Z) (_file : string)
  : M Plugin unit :=
  self <- gets id ;;
  file_name <-
    match _file with
    | EmptyString => raise IndexError
    | String c _ =>
        ret (if Ascii.eqb c OsPath.sep then PyStr.lstrip [OsPath.sep] _file else _file)
    end ;;
  let strfile := tailed_name file_name in
  call "tail" _file ;;;
  tailed <- lift (tail w _file (default 0 sizelimit)) ;;
  add_string_as_file w tailed strfile None ;;;
  let rel_path := os_path_relpath w "/" (OsPath.dirname _file) in
  let link_path := OsPath.joinl rel_path ["sos_strings"; name self; strfile] in
  archive_call (add_link link_path _file).

(** One round of the loop [for copyspec in copyspecs] of [add_copy_spec],
    for a non-empty [copyspec]. *)
Definition add_one_copyspec (w : World) (sizelimit : option Z) (tailit : bool)
  (copyspec : string) : M Plugin unit :=
  self <- gets id ;;
  copyspec <- lift (sysroot_joined self copyspec) ;;
  call "glob.glob" copyspec ;;;
  let files := glob_glob w copyspec in
  if (List.length files =? 0)%nat then ret tt
  else
    for_each files (fun f => call "os.path.getmtime" f) ;;;
    let files := sort_newest_first (getmtime w) files in
    r <- scan_files w sizelimit files 0 None ;;
    match r with
    | (true, Some _file) =>
        if tailit && negb (_file_is_compressed _file)
        then tail_fallback w sizelimit _file
        else ret tt
    | _ => ret tt
    end.

Fixpoint copyspec_loop (w : World) (sizelimit : option Z) (tailit : bool)
  (copyspecs : list string) : M Plugin (option bool) :=
  match copyspecs with
  | [] => ret None
  | copyspec :: rest =>
      if negb (PyStr.truthy copyspec) then ret (Some false)
      else
        add_one_copyspec w sizelimit tailit copyspec ;;;
        copyspec_loop w sizelimit tailit rest
  end.

(** The first argument of [add_copy_spec]: one string or a list of them. *)
Inductive copyspecs_arg : Type :=
| Spec (s : string)
| Specs (l : list string).

Definition copyspecs_truthy (c : copyspecs_arg) : bool :=
  match c with Spec s => PyStr.truthy s | Specs l => list_truthy l end.

Definition copyspecs_list (c : copyspecs_arg) : list string :=
  match c with Spec s => [s] | Specs l => l end.

Definition copyspecs_logarg (c : copyspecs_arg) : logarg :=
  match c with Spec s => A_str s | Specs l => A_strs l end.

(** The size limit in bytes [add_copy_spec] works with. *)
Definition effective_sizelimit (p : Plugin) (sizelimit : option Z) : option Z :=
  let sizelimit :=
    match sizelimit with
    | None => Some (get_option_log_size p)
    | Some _ => sizelimit
    end in
  let sizelimit := if get_option_all_logs p then None else sizelimit in
  if num_truthy sizelimit then (fun z => z * (1024 * 1024)) <$> sizelimit else sizelimit.

(** [Plugin.add_copy_spec]; the result is [None] or [Some false]. *)
Definition add_copy_spec (w : World) (copyspecs : copyspecs_arg) (sizelimit : option Z)
  (tailit : bool) (pred : option SoSPredicate) : M Plugin (option bool) :=
  self <- gets id ;;
  if negb (test_predicate w self false pred) then
    _log_info "skipped copy spec '%s' due to predicate (%s)"
              [copyspecs_logarg copyspecs; A_pred (get_predicate self false pred)] ;;;
    ret None
  else
    let sizelimit := effective_sizelimit self sizelimit in
    if negb (copyspecs_truthy copyspecs) then ret (Some false)
    else copyspec_loop w sizelimit tailit (copyspecs_list copyspecs).

(** ** The command executor *)

(** [Plugin.get_command_output]; the result is [None] when the call was
    skipped.  [fuel] bounds the depth of the retry recursion. *)
Fixpoint get_command_output (fuel : nat) (w : World) (prog : string) (timeout : option Z)
  (stderr chroot : bool) (runat : option string) (env : option (list (string * string)))
  (binary : bool) (sizelimit : option Z) : M Plugin (option cmd_result) :=
  self <- gets id ;;
  if _timeout_hit self then ret None
  else
    let root :=
      if chroot || String.eqb (opt_chroot (opts self)) "always"
      then Some (sysroot self) else None in
    let req := mk_req prog timeout stderr root runat env binary sizelimit in
    modify (after_events [Exec req]) ;;;
    let result := sos_get_command_output w (trace self) req in
    (if status result =? 124 then
       match timeout with
       | Some t => _log_warn "command '%s' timed out after %ds" [A_str prog; A_int t]
       | None => raise TypeError
       end
     else ret tt) ;;;
    if (status result =? 126) || (status result =? 127) then
      if optstr_truthy root && negb (String.eqb (default "" root) "/")
         && negb (String.eqb (opt_chroot (opts self)) "always")
      then
        word <- lift (match PyStr.first_word prog with
                      | Some word => inr word
                      | None => inl IndexError
                      end) ;;
        _log_info "command '%s' not found in %s - re-trying in host root"
                  [A_str word; A_str (default "" root)] ;;;
        match fuel with
        | O => diverge
        | S fuel' =>
            get_command_output fuel' w prog timeout true false runat env binary None
        end
      else
        _log_debug "could not run '%s': command not found" [A_str prog] ;;;
        ret (Some result)
    else ret (Some result).

(** The module-level [_mangle_command]: its three regular expressions are
    written out as string functions. *)
Definition strip_bin_prefix (command : string) : string :=
  match List.find (PyStr.startswith command) ["/usr/bin/"; "/usr/sbin/"; "/bin/"; "/sbin/"] with
  | Some pre => PyStr.drop (String.length pre) command
  | None => command
  end.

(** The ASCII characters of [\w]: letters, digits and the underscore. *)
Definition is_ascii (c : ascii) : bool := (nat_of_ascii c <? 128)%nat.
Definition is_ascii_word (c : ascii) : bool :=
  let n := nat_of_ascii c in
  ((48 <=? n)%nat && (n <=? 57)%nat) || ((65 <=? n)%nat && (n <=? 90)%nat)
  || ((97 <=? n)%nat && (n <=? 122)%nat) || Ascii.eqb c "_"%char.

(** The characters of the class [\w\-\.\/].  The pattern is a [str], so
    [\w] is Unicode's: a character that is not ASCII is in the class when it
    is a letter or a digit, as [str_isalnum] has it.  An ASCII byte followed
    by continuation bytes encodes no character and is outside the class. *)
Definition mangle_keeps (w : World) (ch : string) : bool :=
  match ch with
  | EmptyString => false
  | String c rest =>
      if is_ascii c then
        match rest with
        | EmptyString => is_ascii_word c || existsb (Ascii.eqb c) ["-"; "."; "/"]%char
        | _ => false
        end
      else str_isalnum w ch
  end.

(** [re.sub(r"[^\w\-\.\/]+", "_", s)], on the characters of [s] *)
Fixpoint collapse_runs (w : World) (in_run : bool) (s : list string) : list string :=
  match s with
  | [] => []
  | ch :: s' =>
      if mangle_keeps w ch then ch :: collapse_runs w false s'
      else if in_run then collapse_runs w true s'
      else "_" :: collapse_runs w true s'
  end.

Definition _mangle_command (w : World) (command : string) (name_max : nat) : string :=
  let mangledname := strip_bin_prefix command in
  let mangledname := PyStr.join (collapse_runs w false (PyStr.chars mangledname)) in
  let mangledname :=
    PyStr.strip [" "; "."; "_"; "-"]%char (PyStr.replace_char "/"%char "."%char mangledname) in
  PyStr.take name_max mangledname.

(** The collision loop of [_make_command_filename]: [fuel] bounds the number
    of suffixes tried. *)
Fixpoint next_free_name (fuel : nat) (taken : string -> bool) (outfn : string) (inc : Z)
  : option string :=
  match fuel with
  | O => None
  | S fuel' =>
      let newfn := outfn +:+ "_" +:+ pretty inc in
      if negb (taken newfn) then Some newfn
      else next_free_name fuel' taken outfn (inc + 1)
  end.

(** The name [_make_command_filename] tries first. *)
Definition command_filename_base (w : World) (self : Plugin) (exe : string)
  (subdir : option string) : string :=
  let plugin_dir := name self in
  let plugin_dir :=
    if optstr_truthy subdir
    then plugin_dir +:+ "/" +:+ PyStr.split_head "/"%char (default "" subdir)
    else plugin_dir in
  OsPath.joinl (cmddir self) [plugin_dir; _mangle_command w exe (archive_name_max w)].

(** [Plugin._make_command_filename] *)
Definition _make_command_filename (fuel : nat) (w : World) (exe : string)
  (subdir : option string) : M Plugin string :=
  self <- gets id ;;
  let outfn := command_filename_base w self exe subdir in
  if os_path_exists w (archive self) outfn then
    match next_free_name fuel (os_path_exists w (archive self)) outfn 2 with
    | Some newfn => ret newfn
    | None => diverge
    end
  else ret outfn.

(** What the archived output is named after: [suggest_filename] when one is
    given, the command otherwise. *)
Definition filename_source (c : SoSCommand) : string :=
  if optstr_truthy (suggest_filename c) then default "" (suggest_filename c) else cmd c.

(** [Plugin._get_cmd_output_now]; the result is the path of the archived
    output, or [None] when the call was skipped. *)
Definition _get_cmd_output_now (fuel : nat) (w : World) (c : SoSCommand)
  : M Plugin (option string) :=
  self <- gets id ;;
  if _timeout_hit self then ret None
  else
    result <- get_command_output fuel w (cmd c) (timeout c) (stderr c) (chroot c)
                                 (runat c) (env c) (binary c) (sizelimit c) ;;
    word <- lift (match PyStr.first_word (cmd c) with
                  | Some word => inr word
                  | None => inl IndexError
                  end) ;;
    _log_debug "collected output of '%s' in %s" [A_str word; A_elapsed] ;;;
    outfn <- _make_command_filename fuel w (filename_source c) (subdir c) ;;
    let outfn_strip := PyStr.drop (String.length (cmddir self) + 1) outfn in
    result_output <- lift (match result with
                           | Some r => inr (output r)
                           | None => inl TypeError
                           end) ;;
    (if binary c
     then archive_call (add_binary (Text result_output) outfn)
     else archive_call (add_string (Text result_output) outfn)) ;;;
    (if optstr_truthy (root_symlink c)
     then archive_call (add_link outfn (default "" (root_symlink c)))
     else ret tt) ;;;
    modify (with_executed_commands
              (fun l => l ++ [mk_executed (cmd c) (Some outfn_strip)
                                          (if binary c then "yes" else "no")])) ;;;
    ret (Some (OsPath.join (archive_get_archive_path w) outfn)).

(** [Plugin._add_cmd_output] *)
Definition _add_cmd_output (w : World) (soscmd : SoSCommand) (pred : option SoSPredicate)
  : M Plugin unit :=
  self <- gets id ;;
  _log_debug "packed command: " [A_cmd soscmd] ;;;
  if test_predicate w self true pred then
    modify (with_collect_cmds (fun l => l ++ [soscmd])) ;;;
    _log_info "added cmd output '%s'" [A_str (cmd soscmd)]
  else
    _log_info "skipped cmd output '%s' due to predicate (%s)"
              [A_str (cmd soscmd); A_pred (get_predicate self true pred)].

(** ** The collection driver *)

(** [Plugin._collect_copy_specs]; the set is visited in the order of its
    elements. *)
Definition _collect_copy_specs (fuel : nat) (w : World) : M Plugin unit :=
  self <- gets id ;;
  for_each (elements (copy_paths self))
    (fun path =>
       _log_info "collecting path '%s'" [A_str path] ;;;
       _do_copy_path fuel w path None ;;; ret tt).

(** [Plugin._collect_cmd_output] *)
Definition _collect_cmd_output (fuel : nat) (w : World) : M Plugin unit :=
  self <- gets id ;;
  for_each (collect_cmds self)
    (fun soscmd =>
       _log_debug "unpacked command: " [A_cmd soscmd] ;;;
       _log_info "collecting output of '%s'" [A_str (cmd soscmd)] ;;;
       _get_cmd_output_now fuel w soscmd ;;; ret tt).

(** The loop of [Plugin._collect_strings]. *)
Fixpoint collect_strings_loop (l : list (content * string)) : M Plugin unit :=
  match l with
  | [] => ret tt
  | (string, file_name) :: rest =>
      self <- gets id ;;
      if _timeout_hit self then ret tt
      else
        _log_info "collecting string ...'%s' as '%s'" [A_content string; A_str file_name] ;;;
        try_except
          (archive_call
             (add_string string (OsPath.joinl "sos_strings" [name self; file_name])))
          any_Exception
          (fun e => _log_debug "could not add string '%s': %s" [A_str file_name; A_exn e]) ;;;
        collect_strings_loop rest
  end.

(** [Plugin._collect_strings] *)
Definition _collect_strings : M Plugin unit :=
  self <- gets id ;;
  collect_strings_loop (copy_strings self).

(** [Plugin.collect] *)
Definition collect (fuel : nat) (w : World) : M Plugin unit :=
  self <- gets id ;;
  _collect_copy_specs fuel w ;;;
  _collect_cmd_output fuel w ;;;
  _collect_strings ;;;
  _log_debug "collected plugin '%s' in %s" [A_str (name self); A_elapsed].

(** ** Substitution in collected command output *)

(** The body of the loop of [Plugin.do_cmd_output_sub] for one entry
    [called]; [replacements] is the local variable of that name, and the
    result is its new value. *)
Definition cmd_output_sub_body (w : World) (globstr regexp subst : string)
  (called : ExecutedCommand) (replacements : option Z) : M Plugin (option Z) :=
  match file called with
  | None => ret replacements
  | Some called_file =>
      if String.eqb (binary_flag called) "yes" then
        _log_warn "Cannot apply regex substitution to binary output: '%s'"
                  [A_str (exe called)] ;;;
        ret replacements
      else if fnmatch_fnmatch w (exe called) globstr then
        self <- gets id ;;
        let path := OsPath.join (cmddir self) called_file in
        _log_debug "applying substitution to '%s'" [A_str path] ;;;
        readable <- archive_open_file_read path ;;
        r <- lift (re_subn w regexp subst readable) ;;
        let '(result, replacements) := r in
        (if negb (replacements =? 0)
         then archive_call (add_string result path)
         else ret tt) ;;;
        ret (Some replacements)
      else ret replacements
  end.

(** The [try] block of [Plugin.do_cmd_output_sub]: the loop over
    [executed_commands] with its [except Exception] handler.  The handler
    ends the loop, so it is applied at the entry that raised. *)
Fixpoint cmd_output_sub_loop (w : World) (globstr regexp subst : string)
  (called_list : list ExecutedCommand) (replacements : option Z) : M Plugin (option Z) :=
  match called_list with
  | [] => ret replacements
  | called :: rest =>
      r <- try_except
             (r <- cmd_output_sub_body w globstr regexp subst called replacements ;;
              ret (Some r))
             any_Exception
             (fun e =>
                _log_error "regex substitution failed for '%s' with: '%s'"
                           [A_str (exe called); A_exn e] ;;;
                ret None) ;;
      match r with
      | Some replacements => cmd_output_sub_loop w globstr regexp subst rest replacements
      | None => ret None
      end
  end.

(** [Plugin.do_cmd_output_sub]; the result is [None] or the count. *)
Definition do_cmd_output_sub (w : World) (cmd regexp subst : string) : M Plugin (option Z) :=
  self <- gets id ;;
  let globstr := "*" +:+ cmd +:+ "*" in
  _log_debug "substituting '%s' for '%s' in commands matching '%s'"
             [A_str subst; A_str regexp; A_str globstr] ;;;
  if negb (list_truthy (executed_commands self)) then ret (Some 0)
  else cmd_output_sub_loop w globstr regexp subst (executed_commands self) None.

(** ** Concrete hosts and plugins the theorems are exercised on *)

Module Examples.

Definition MB : Z := 1024 * 1024.

(** A host with nothing on it. *)
Definition empty_world : World :=
  mk_world (fun _ => None) (fun _ => inl ENOENT) (fun _ => "") (fun _ => inl ENOENT)
           (fun _ => false) (fun _ _ => false) id id (fun path _ => path)
           (fun _ => []) (fun _ _ => false) (fun _ _ c => inr (c, 0))
           (fun _ _ => []) (fun _ => false) (fun _ _ => mk_result 0 "")
           255 "/var/tmp/sos-archive" (fun _ => false).

Definition with_fs (lstat : string -> option stat_result) (stat : string -> Z + stat_result)
  (globs : string -> list string) (w : World) : World :=
  mk_world lstat stat (os_readlink w) (os_listdir w) (os_access_R_OK w)
           (os_path_exists w) (os_path_realpath w) (os_path_normpath w)
           (os_path_relpath w) globs (fnmatch_fnmatch w) (re_subn w) (grep w)
           (init_system_is_running w) (sos_get_command_output w)
           (archive_name_max w) (archive_get_archive_path w) (str_isalnum w).

Definition with_commands (run : list event -> exec_request -> cmd_result) (w : World) : World :=
  mk_world (os_lstat w) (os_stat w) (os_readlink w) (os_listdir w) (os_access_R_OK w)
           (os_path_exists w) (os_path_realpath w) (os_path_normpath w)
           (os_path_relpath w) (glob_glob w) (fnmatch_fnmatch w) (re_subn w) (grep w)
           (init_system_is_running w) run
           (archive_name_max w) (archive_get_archive_path w) (str_isalnum w).

Definition with_matching (fnm : string -> string -> bool)
  (subn : string -> string -> content -> exn + (content * Z)) (w : World) : World :=
  mk_world (os_lstat w) (os_stat w) (os_readlink w) (os_listdir w) (os_access_R_OK w)
           (os_path_exists w) (os_path_realpath w) (os_path_normpath w)
           (os_path_relpath w) (glob_glob w) fnm subn (grep w)
           (init_system_is_running w) (sos_get_command_output w)
           (archive_name_max w) (archive_get_archive_path w) (str_isalnum w).

Definition null_predicate : SoSPredicate := mk_pred false [] [].
Definition dry_run_predicate : SoSPredicate := mk_pred true [] [].

Definition default_opts : cmdlineopts := mk_opts "auto" false 25 false.

(** A plugin as [Plugin.__init__] leaves it. *)
Definition new_plugin (plugin_name sysroot : string) (pred : SoSPredicate) : Plugin :=
  mk_plugin plugin_name sysroot "sos_commands" default_opts (Some pred) None
            false [] [] [] ∅ [] [] [] [].

Definition set_timeout_hit (b : bool) (p : Plugin) : Plugin :=
  mk_plugin (plugin_name p) (sysroot p) (cmddir p) (opts p) (predicate p) (cmd_predicate p)
    b (forbidden_paths p) (copied_files p) (executed_commands p)
    (copy_paths p) (copy_strings p) (collect_cmds p) (archive p) (trace p).

Definition simple_command (c : string) : SoSCommand :=
  mk_cmd c None None (Some 300) true true None None false None None.

Definition regular (size mtime : Z) : stat_result := mk_stat 0x81A4 size 0 mtime.

(** Three rotated logs of 10MB each; [app.log] is the newest. *)
Definition logs_stat (path : string) : Z + stat_result :=
  if String.eqb path "/var/log/app.log" then inr (regular (10 * MB) 300)
  else if String.eqb path "/var/log/app.log.1" then inr (regular (10 * MB) 200)
  else if String.eqb path "/var/log/app.log.2" then inr (regular (10 * MB) 100)
  else inl ENOENT.

Definition with_relpath (relpath : string -> string -> string) (w : World) : World :=
  mk_world (os_lstat w) (os_stat w) (os_readlink w) (os_listdir w) (os_access_R_OK w)
           (os_path_exists w) (os_path_realpath w) (os_path_normpath w)
           relpath (glob_glob w) (fnmatch_fnmatch w) (re_subn w) (grep w)
           (init_system_is_running w) (sos_get_command_output w)
           (archive_name_max w) (archive_get_archive_path w) (str_isalnum w).

(** The glob lists the logs by name, so the oldest comes second. *)
Definition logs_world : World :=
  with_relpath
    (fun path start =>
       if String.eqb path "/" && String.eqb start "/var/log" then "../.." else path)
    (with_fs (fun path => match logs_stat path with inr st => Some st | inl _ => None end)
             logs_stat
             (fun pat => if String.eqb pat "/var/log/app.log*"
                         then ["/var/log/app.log"; "/var/log/app.log.2"; "/var/log/app.log.1"]
                         else [])
             empty_world).

Definition logs_plugin : Plugin := new_plugin "logs" "/" null_predicate.

(** A host whose alternate root lacks every command: under a chroot a
    command is not found, in the host namespace it fails with status 1. *)
Definition chroot_world : World :=
  with_commands
    (fun _ req =>
       match x_chroot req with
       | Some _ => mk_result 127 ""
       | None => mk_result 1 "lsblk: not a block device"
       end)
    empty_world.

Definition chroot_plugin : Plugin := new_plugin "block" "/mnt/image" null_predicate.

(** A host on which no command is found. *)
Definition bare_world : World :=
  with_commands (fun _ _ => mk_result 127 "") empty_world.

(** Literal search and replace, standing for [re.subn] on a pattern with no
    special characters. *)
Fixpoint subn_literal (pat sub s : string) (skip : nat) : string * Z :=
  match s with
  | EmptyString => (EmptyString, 0)
  | String c s' =>
      match skip with
      | S k => subn_literal pat sub s' k
      | O =>
          if PyStr.startswith s pat then
            let '(r, n) := subn_literal pat sub s' (String.length pat - 1)%nat in
            (sub +:+ r, n + 1)
          else
            let '(r, n) := subn_literal pat sub s' O in
            (String c r, n)
      end
  end.

Definition literal_subn (pat sub : string) (c : content) : exn + (content * Z) :=
  match c with
  | Text s => let '(r, n) := subn_literal pat sub s O in inr (Text r, n)
  | _ => inl TypeError
  end.

(** [fnmatch] for the patterns [*cmd*] with a literal [cmd]. *)
Definition star_fnmatch (name pat : string) : bool :=
  PyStr.contains name (PyStr.strip ["*"%char] pat).

Definition scrub_world : World := with_matching star_fnmatch literal_subn empty_world.

(** Two commands were collected; only the first output holds the secret. *)
Definition scrub_plugin : Plugin :=
  with_archive
    (fun _ => [add_string (Text "password=hunter2 password=swordfish") "sos_commands/net/ip_addr";
               add_string (Text "default via 10.0.0.1") "sos_commands/net/ip_route"])
    (with_executed_commands
       (fun _ => [mk_executed "ip addr" (Some "net/ip_addr") "no";
                  mk_executed "ip route" (Some "net/ip_route") "no"])
       (new_plugin "net" "/" null_predicate)).

(** A host with two regular files under [/etc]. *)
Definition etc_lstat (path : string) : option stat_result :=
  if String.eqb path "/etc/passwd" then Some (regular 1800 50)
  else if String.eqb path "/etc/shadow" then Some (regular 900 60)
  else None.

Definition etc_world : World :=
  with_fs etc_lstat
          (fun path => match etc_lstat path with Some st => inr st | None => inl ENOENT end)
          (fun pat => if String.eqb pat "/etc/*" then ["/etc/passwd"; "/etc/shadow"] else [])
          empty_world.

(** A plugin that must not collect [/etc/shadow]. *)
Definition etc_plugin : Plugin :=
  with_forbidden_paths (fun _ => ["/etc/shadow"]) (new_plugin "etc" "/" null_predicate).

(** A plugin with work queued of each kind whose timeout has fired. *)
Definition timed_out_plugin : Plugin :=
  set_timeout_hit true
    (with_copy_paths (fun _ => {[ "/etc/passwd" ]})
       (with_collect_cmds (fun _ => [simple_command "uname -a"])
          (with_copy_strings (fun _ => [(Text "note", "notes.txt")])
             (new_plugin "etc" "/" null_predicate)))).


(** A plugin about to collect a command the host does not have. *)
Definition demo_plugin : Plugin := new_plugin "demo" "/" null_predicate.
Definition missing_command : SoSCommand := simple_command "nosuchcmd --version".

(** The host of [etc_world], with a glob for the one file. *)
Definition shadow_world : World :=
  with_fs etc_lstat
          (fun path => match etc_lstat path with Some st => inr st | None => inl ENOENT end)
          (fun pat => if String.eqb pat "/etc/shadow" then ["/etc/shadow"] else [])
          empty_world.

End Examples.

(** ** Observations on outcomes and traces *)

(** The plugin a call leaves behind, whether it returned or raised. *)
Definition final_state {A} (o : outcome Plugin A) : option Plugin :=
  match o with
  | Returned _ s | Raised _ s => Some s
  | Diverged => None
  end.

Definition is_Log (e : event) : Prop :=
  match e with Log _ _ _ => True | _ => False end.

(** The paths handed to the library function [fn], in call order. *)
Definition calls_to (fn : string) (t : list event) : list string :=
  omap (fun e => match e with
                 | Call g path => if String.eqb g fn then Some path else None
                 | _ => None
                 end) t.

(** The commands run, in order. *)
Definition execs (t : list event) : list exec_request :=
  omap (fun e => match e with Exec req => Some req | _ => None end) t.

(** The host path an archive entry takes its content from, when the entry
    names one. *)
Definition entry_source (e : archive_entry) : option string :=
  match e with
  | add_file src _ => Some src
  | add_node path _ _ => Some path
  | _ => None
  end.

Definition not_forbidden (p : Plugin) (path : string) : Prop :=
  _is_forbidden_path p path = inr false.

(** What a run of the path copier may change: it appends to [copied_files]
    and to the archive, and only for paths that are not forbidden. *)
Definition copier_step (p p' : Plugin) : Prop :=
  sysroot p' = sysroot p /\
  forbidden_paths p' = forbidden_paths p /\
  (exists new, copied_files p' = copied_files p ++ new /\
               Forall (fun r => not_forbidden p (srcpath r)) new) /\
  (exists new, archive p' = archive p ++ new /\
               Forall (fun e => forall src, entry_source e = Some src -> not_forbidden p src) new).

(** What [add_copy_spec] may change: it queues paths, tail artifacts and
    their links, and only for files that are not forbidden; it copies
    nothing. *)
Definition resolver_step (p p' : Plugin) : Prop :=
  sysroot p' = sysroot p /\
  forbidden_paths p' = forbidden_paths p /\
  copied_files p' = copied_files p /\
  (forall f, f ∈ copy_paths p' -> f ∈ copy_paths p \/ not_forbidden p f) /\
  (exists new, copy_strings p' = copy_strings p ++ new /\
               Forall (fun cs => exists f n, fst cs = Tail f n /\ not_forbidden p f) new) /\
  (exists new, archive p' = archive p ++ new /\
               Forall (fun e => exists target f, e = add_link target f /\ not_forbidden p f) new).

(** The entries [_get_cmd_output_now] adds to the archive for a command
    whose output [out] goes to [outfn]. *)
Definition archived_output (c : SoSCommand) (out outfn : string) : list archive_entry :=
  (if binary c then add_binary (Text out) outfn else add_string (Text out) outfn)
  :: (if optstr_truthy (root_symlink c)
      then [add_link outfn (default "" (root_symlink c))] else []).

(** The files of a list that [add_copy_spec] does not skip as forbidden. *)
Definition is_kept (p : Plugin) (f : string) : bool :=
  match _is_forbidden_path p f with
  | inr false => true
  | _ => false
  end.

Definition kept (p : Plugin) (files : list string) : list string :=
  List.filter (is_kept p) files.

(** What a file adds to [current_size]: its size, or nothing when [os.stat]
    fails. *)
Definition file_size (w : World) (f : string) : Z :=
  match os_stat w f with
  | inr st => st_size st
  | inl _ => 0
  end.

(** The value of [current_size] after the files of a list. *)
Definition running_total (w : World) (p : Plugin) (files : list string) : Z :=
  foldr (fun f acc => file_size w f + acc) 0 (kept p files).

(** [p'] differs from [p] at most in [copy_paths] and in the trace. *)
Definition same_but_queue (p p' : Plugin) : Prop :=
  p' = with_copy_paths (fun _ => copy_paths p') (with_trace (fun _ => trace p') p).

(** Largest modification time first. *)
Definition newest_first (w : World) (files : list string) : Prop :=
  Sorted (fun a b => getmtime w b <= getmtime w a) files.

(** [post_at R m p]: whatever state [m] reaches from [p] is [R]-related to [p]. *)
Definition post_at {A} (R : Plugin -> Plugin -> Prop) (m : M Plugin A) (p : Plugin) : Prop :=
  forall p', final_state (m p) = Some p' -> R p p'.

(** ** Further methods of the plugin *)

(** Every character of a string passes a test. *)
Fixpoint str_all (f : ascii -> bool) (s : string) : bool :=
  match s with
  | EmptyString => true
  | String c s' => f c && str_all f s'
  end.

(** [os.path.commonprefix([a, b])]: the longest common prefix, character by
    character. *)
Fixpoint commonprefix2 (a b : string) : string :=
  match a, b with
  | String x a', String y b' =>
      if Ascii.eqb x y then String x (commonprefix2 a' b') else EmptyString
  | _, _ => EmptyString
  end.

(** [Plugin.tmp_in_sysroot]; [tmp_dir] is [archive.get_tmp_dir()]. *)
Definition tmp_in_sysroot (p : Plugin) (tmp_dir : string) : bool :=
  String.eqb (commonprefix2 (sysroot p) tmp_dir) (sysroot p).

(** [Plugin._get_dest_for_srcpath] *)
Definition _get_dest_for_srcpath (p : Plugin) (src : string) : exn + option string :=
  match sysroot_joined p src with
  | inl e => inl e
  | inr src =>
      inr (dstpath <$> List.find (fun copied => String.eqb src (srcpath copied))
                                 (copied_files p))
  end.

Definition is_OSError_or_IOError (e : exn) : bool :=
  match e with OSError _ | IOError _ => true | _ => false end.

Definition exn_errno (e : exn) : option Z :=
  match e with OSError n | IOError n => Some n | _ => None end.

(** [Plugin.do_file_sub].  [_get_dest_for_srcpath] raises nothing the
    handler catches, so it is run before the [try] and [path] is in scope of
    the handler as in the source. *)
Definition do_file_sub (w : World) (src regexp subst : string) : M Plugin Z :=
  self <- gets id ;;
  path <- lift (_get_dest_for_srcpath self src) ;;
  try_except
    (_log_debug "substituting scrpath '%s'" [A_str src] ;;;
     _log_debug "substituting '%s' for '%s' in '%s'"
                [A_str subst; A_str regexp; A_str (default "None" path)] ;;;
     if negb (optstr_truthy path) then ret 0
     else
       content <- archive_open_file_read (default "" path) ;;
       r <- lift (re_subn w regexp subst content) ;;
       let '(result, replacements) := r in
       if negb (replacements =? 0)
       then archive_call (add_string result src) ;;; ret replacements
       else ret 0)
    is_OSError_or_IOError
    (fun e =>
       (if bool_decide (exn_errno e = Some ENOENT)
        then _log_debug "file '%s' not collected, substitution skipped"
                        [A_str (default "None" path)]
        else _log_error "regex substitution failed for '%s' with: '%s'"
                        [A_str (default "None" path); A_exn e]) ;;;
       ret 0).

(** [Plugin.get_cmd_output_now]: the public call.  Its [suggest_filename]
    and [root_symlink] arguments are not handed on. *)
Definition get_cmd_output_now (fuel : nat) (w : World) (exe : string)
  (suggest_filename root_symlink : option string) (timeout : option Z)
  (stderr chroot : bool) (runat : option string) (env : option (list (string * string)))
  (binary : bool) (sizelimit : option Z) (pred : option SoSPredicate)
  : M Plugin (option string) :=
  self <- gets id ;;
  if negb (test_predicate w self true pred) then
    _log_info "skipped cmd output '%s' due to predicate (%s)"
              [A_str exe; A_pred (get_predicate self true pred)] ;;;
    ret None
  else
    _get_cmd_output_now fuel w
      (mk_cmd exe None None timeout stderr chroot runat env binary sizelimit None).

(** [Plugin.add_cmd_output] for a list of commands *)
Definition add_cmd_output (w : World) (cmds : list string)
  (suggest_filename root_symlink : option string) (timeout : option Z)
  (stderr chroot : bool) (runat : option string) (env : option (list (string * string)))
  (binary : bool) (sizelimit : option Z) (pred : option SoSPredicate)
  (subdir : option string) : M Plugin unit :=
  self <- gets id ;;
  (if (1 <? List.length cmds)%nat
      && (optstr_truthy suggest_filename || optstr_truthy root_symlink)
   then _log_warn "ambiguous filename or symlink for command list" []
   else ret tt) ;;;
  let sizelimit :=
    match sizelimit with
    | None => Some (get_option_log_size self)
    | Some _ => sizelimit
    end in
  for_each cmds
    (fun cmd =>
       _add_cmd_output w
         (mk_cmd cmd suggest_filename root_symlink timeout stderr chroot runat env
                 binary sizelimit subdir)
         pred).

(** A host whose archive directory holds what was added to the archive: a
    path exists there once something is stored under it. *)
Definition archive_backed (w : World) : World :=
  mk_world (os_lstat w) (os_stat w) (os_readlink w) (os_listdir w) (os_access_R_OK w)
           (fun entries path => bool_decide (is_Some (archive_lookup entries path)))
           (os_path_realpath w) (os_path_normpath w)
           (os_path_relpath w) (glob_glob w) (fnmatch_fnmatch w) (re_subn w) (grep w)
           (init_system_is_running w) (sos_get_command_output w)
           (archive_name_max w) (archive_get_archive_path w) (str_isalnum w).

(** What the path copier adds for a path it takes for a regular file: the
    file itself, or an empty placeholder when nobody may read it, and the
    record of the copy. *)
Definition file_entry (p : Plugin) (src : string) (st : stat_result) : archive_entry :=
  if Z.land (st_mode st) 0x124 =? 0
  then add_string (Text "") (strip_sysroot p src)
  else add_file src (strip_sysroot p src).

Definition file_record (p : Plugin) (src : string) : CopiedFile :=
  mk_copied src (strip_sysroot p src) "no" None.

(** [q] is [p] with [entries] added to the archive and [records] to
    [copied_files]; the timeout flag, the sysroot and the forbidden paths are
    the same. *)
Definition grows (p q : Plugin) (entries : list archive_entry) (records : list CopiedFile)
  : Prop :=
  _timeout_hit q = _timeout_hit p /\
  sysroot q = sysroot p /\
  forbidden_paths q = forbidden_paths p /\
  archive q = archive p ++ entries /\
  copied_files q = copied_files p ++ records.

(** A path the copier handles as a file: a regular file, or a directory that
    may not be read. *)
Definition copied_as_file (w : World) (src : string) (st : stat_result) : Prop :=
  Stat.S_ISREG (st_mode st) = true \/
  (Stat.S_ISDIR (st_mode st) = true /\ os_access_R_OK w src = false).

(** The entries of a directory listing the copier archives as files: those
    that are not forbidden and that [lstat] finds, with their status. *)
Definition listed_files (w : World) (p : Plugin) (paths : list string)
  : list (string * stat_result) :=
  omap (fun path => (fun st => (path, st)) <$> os_lstat w path) (kept p paths).

(** [/etc] as a directory that lists [passwd], [shadow] and an entry that
    is gone by the time it is looked at. *)
Definition etc_directory_world : World :=
  mk_world (fun path => if String.eqb path "/etc" then Some (mk_stat 0x41ED 4096 0 70)
                        else Examples.etc_lstat path)
           (os_stat Examples.etc_world) (fun _ => "")
           (fun path => if String.eqb path "/etc" then inr ["passwd"; "shadow"; "mtab"]
                        else inl ENOENT)
           (fun _ => true) (fun _ _ => false) id id (fun path _ => path)
           (fun _ => []) (fun _ _ => false) (fun _ _ c => inr (c, 0))
           (fun _ _ => []) (fun _ => false) (fun _ _ => mk_result 0 "")
           255 "/var/tmp/sos-archive" (fun _ => false).

(** A host on which [/bin] is a symbolic link to the directory [usr/bin]. *)
Definition usrmerge_world : World :=
  mk_world (fun path => if String.eqb path "/bin" then Some (mk_stat 0xA1FF 7 0 10)
                        else if String.eqb path "/usr/bin" then Some (mk_stat 0x41ED 4096 0 10)
                        else None)
           (fun path => if String.eqb path "/usr/bin" then inr (mk_stat 0x41ED 4096 0 10)
                        else inl ENOENT)
           (fun path => if String.eqb path "/bin" then "usr/bin" else "")
           (fun _ => inr []) (fun _ => true) (fun _ _ => false) id id (fun path _ => path)
           (fun _ => []) (fun _ _ => false) (fun _ _ c => inr (c, 0))
           (fun _ _ => []) (fun _ => false) (fun _ _ => mk_result 0 "")
           255 "/var/tmp/sos-archive" (fun _ => false).

(** What queueing leaves alone: nothing is run, archived or copied, and the
    predicates stay as they are. *)
Definition only_queues (p q : Plugin) : Prop :=
  predicate q = predicate p /\
  cmd_predicate q = cmd_predicate p /\
  archive q = archive p /\
  executed_commands q = executed_commands p /\
  copied_files q = copied_files p /\
  execs (trace q) = execs (trace p).

(** An archive entry that rewrites the output of a command [p] has run: the
    command has a file, its output is text, its name matches [globstr], and
    the entry stores a string under that file. *)
Definition rewrites_text_output (w : World) (p : Plugin) (globstr : string)
  (e : archive_entry) : Prop :=
  exists called f result,
    called ∈ executed_commands p /\
    file called = Some f /\
    binary_flag called <> "yes" /\
    fnmatch_fnmatch w (exe called) globstr = true /\
    e = add_string result (OsPath.join (cmddir p) f).

(** ** Plugin options

    An option holds [None], a boolean, an integer or a string.  [int_of_str]
    stands for Python's [int] on a string: [None] where it raises
    [ValueError]. *)

Inductive pyval : Type :=
| VNone
| VBool (b : bool)
| VInt (z : Z)
| VStr (s : string).

Inductive pytype : Type := NoneType | BoolType | IntType | StrType.

(** [type(v)] *)
Definition type_of (v : pyval) : pytype :=
  match v with
  | VNone => NoneType
  | VBool _ => BoolType
  | VInt _ => IntType
  | VStr _ => StrType
  end.

Definition pytype_eqb (a b : pytype) : bool :=
  match a, b with
  | NoneType, NoneType | BoolType, BoolType | IntType, IntType | StrType, StrType => true
  | _, _ => false
  end.

(** The exceptions of the option code, over those of the collection code. *)
Inductive option_exn : Type :=
| Collection (e : exn)
| ValueError
| AttributeError.

Module Options.

Section conversions.
Variable int_of_str : string -> option Z.

(** [bool(v)] *)
Definition py_bool (v : pyval) : bool :=
  match v with
  | VNone => false
  | VBool b => b
  | VInt z => negb (z =? 0)
  | VStr s => PyStr.truthy s
  end.

(** [int(v)] *)
Definition py_int (v : pyval) : option_exn + Z :=
  match v with
  | VNone => inl (Collection TypeError)
  | VBool b => inr (if b then 1 else 0)
  | VInt z => inr z
  | VStr s =>
      match int_of_str s with
      | Some z => inr z
      | None => inl ValueError
      end
  end.

(** [str(v)] *)
Definition py_str (v : pyval) : string :=
  match v with
  | VNone => "None"
  | VBool b => if b then "True" else "False"
  | VInt z => pretty z
  | VStr s => s
  end.

(** [(t)(v)]: the type [t] called on [v]. *)
Definition construct (t : pytype) (v : pyval) : option_exn + pyval :=
  match t with
  | NoneType => inl (Collection TypeError)
  | BoolType => inr (VBool (py_bool v))
  | IntType =>
      match py_int v with
      | inl e => inl e
      | inr z => inr (VInt z)
      end
  | StrType => inr (VStr (py_str v))
  end.

(** The options of a plugin: [opt_names], the ['enabled'] entry of each
    dictionary of [opt_parms], the attributes of [commons['cmdlineopts']] and
    the class attribute [plugin_timeout]. *)
Record Options : Type := mk_options {
  opt_names : list string;
  opt_parms : list pyval;
  cmdlineopts_attr : string -> pyval;
  plugin_timeout : Z
}.

(** The loop of [Plugin.set_option] over [zip(opt_names, opt_parms)]: the
    result is what the method returns and the new ['enabled'] entries. *)
Fixpoint set_option_loop (names : list string) (parms : list pyval) (optionname : string)
  (value : pyval) : option_exn + (bool * list pyval) :=
  match names, parms with
  | name :: names', enabled :: parms' =>
      if String.eqb name optionname then
        let defaulttype := type_of enabled in
        if negb (pytype_eqb defaulttype (type_of value))
           && negb (pytype_eqb defaulttype NoneType)
        then
          match construct defaulttype value with
          | inl e => inl e
          | inr value => inr (true, value :: parms')
          end
        else inr (true, value :: parms')
      else
        match set_option_loop names' parms' optionname value with
        | inl e => inl e
        | inr (found, parms'') => inr (found, enabled :: parms'')
        end
  | _, _ => inr (false, parms)
  end.

(** [Plugin.set_option] *)
Definition set_option (o : Options) (optionname : string) (value : pyval)
  : option_exn + (bool * Options) :=
  match set_option_loop (opt_names o) (opt_parms o) optionname value with
  | inl e => inl e
  | inr (found, parms) =>
      inr (found, mk_options (opt_names o) parms (cmdlineopts_attr o) (plugin_timeout o))
  end.

Definition global_options : list string :=
  ["verify"; "all_logs"; "log_size"; "plugin_timeout"].

(** The loop of [Plugin.get_option]: the first entry of that name that is
    not [None]. *)
Fixpoint get_option_loop (names : list string) (parms : list pyval) (optionname : string)
  : option pyval :=
  match names, parms with
  | name :: names', enabled :: parms' =>
      if String.eqb name optionname then
        match enabled with
        | VNone => get_option_loop names' parms' optionname
        | val => Some val
        end
      else get_option_loop names' parms' optionname
  | _, _ => None
  end.

(** [Plugin.get_option] *)
Definition get_option (o : Options) (optionname : string) (default : pyval) : pyval :=
  if existsb (String.eqb optionname) global_options
  then cmdlineopts_attr o optionname
  else
    match get_option_loop (opt_names o) (opt_parms o) optionname with
    | Some val => val
    | None => default
    end.

(** The property [Plugin.timeout]; the [try] block gives [_timeout], or
    [None] where it returns [None] itself. *)
Definition timeout (o : Options) : option_exn + option Z :=
  let tried : option_exn + option Z :=
    let opt_timeout := get_option o "plugin_timeout" (VInt 0) in
    match py_int (get_option o "timeout" (VInt 0)) with
    | inl e => inl e
    | inr own_timeout =>
        match opt_timeout with
        | VNone => inr (Some own_timeout)
        | _ =>
            if own_timeout =? -1 then
              match py_int opt_timeout with
              | inl e => inl e
              | inr z => inr (Some z)
              end
            else if own_timeout >? -1 then inr (Some own_timeout)
            else inr None
        end
    end in
  match tried with
  | inl ValueError => inr (Some (plugin_timeout o))
  | inl e => inl e
  | inr None => inr None
  | inr (Some _timeout) =>
      if _timeout >? -1 then inr (Some _timeout) else inr (Some (plugin_timeout o))
  end.

End conversions.

(** White space as [str.strip()] sees it. *)
Definition whitespace : list ascii :=
  map ascii_of_nat [9; 10; 11; 12; 13; 28; 29; 30; 31; 32]%nat.

(** [s.split(sep)] for a separator that is not empty; [skip] counts the
    characters of a separator still to be passed over. *)
Fixpoint split_on (sep s : string) (skip : nat) : list string :=
  match s with
  | EmptyString => [EmptyString]
  | String a s' =>
      match skip with
      | S k => split_on sep s' k
      | O =>
          if PyStr.startswith s sep
          then EmptyString :: split_on sep s' (String.length sep - 1)
          else
            match split_on sep s' 0 with
            | field :: fields => String a field :: fields
            | [] => [String a EmptyString]
            end
      end
  end.

(** [Plugin.get_option_as_list]; [default] is returned on any exception: an
    option that is not a string has no [split], and an empty delimiter is a
    [ValueError]. *)
Definition get_option_as_list (o : Options) (optionname delimiter : string)
  (default : option (list string)) : option (list string) :=
  match get_option o optionname (VInt 0) with
  | VStr option_ =>
      if PyStr.truthy delimiter then
        let opt_list := map (PyStr.strip whitespace) (split_on delimiter option_ 0) in
        Some (List.filter PyStr.truthy opt_list)
      else default
  | _ => default
  end.

End Options.

(** ** Processes *)

(** The loop of [Plugin.check_process_by_name].  [read_file path] is
    [open(path, 'r').read()]: the text of the file, or the exception the
    call raises ([OSError] when the file cannot be opened or read,
    [UnicodeDecodeError] when its bytes are not text in the encoding of the
    locale). *)
Fixpoint check_process_loop (read_file : string -> exn + string) (process : string)
  (cmd_line_paths : list string) (status : bool) : exn + bool :=
  match cmd_line_paths with
  | [] => inr status
  | path :: rest =>
      match read_file path with
      | inl e => inl e
      | inr text =>
          let cmd_line := PyStr.strip Options.whitespace text in
          check_process_loop read_file process rest
            (if PyStr.contains cmd_line process then true else status)
      end
  end.

(** [Plugin.check_process_by_name].  [except IOError] catches [OSError], of
    which [IOError] is another name, and lets every other exception
    through. *)
Definition check_process_by_name (w : World) (read_file : string -> exn + string)
  (process : string) : exn + bool :=
  let status := false in
  let cmd_line_glob := "/proc/[0-9]*/cmdline" in
  match check_process_loop read_file process (glob_glob w cmd_line_glob) status with
  | inr status => inr status
  | inl e => if is_OSError_or_IOError e then inr false else inl e
  end.

(** The loop of [Plugin.get_process_pids] *)
Fixpoint get_process_pids_loop (read_file : string -> exn + string) (process : string)
  (cmd_line_paths : list string) (pids : list string) : exn + list string :=
  match cmd_line_paths with
  | [] => inr pids
  | path :: rest =>
      match read_file path with
      | inl e =>
          if is_OSError_or_IOError e
          then get_process_pids_loop read_file process rest pids
          else inl e
      | inr text =>
          let cmd_line := PyStr.strip Options.whitespace text in
          if PyStr.contains cmd_line process then
            match Options.split_on "/" path 0 !! 2%nat with
            | Some pid => get_process_pids_loop read_file process rest (pids ++ [pid])
            | None => inl IndexError
            end
          else get_process_pids_loop read_file process rest pids
      end
  end.

(** [Plugin.get_process_pids] *)
Definition get_process_pids (w : World) (read_file : string -> exn + string)
  (process : string) : exn + list string :=
  let cmd_line_glob := "/proc/[0-9]*/cmdline" in
  get_process_pids_loop read_file process (glob_glob w cmd_line_glob) [].

(** ** The journal *)

(** The first argument of [add_journal]: nothing, one unit or a list. *)
Inductive units_arg : Type :=
| NoUnits
| Unit (u : string)
| Units (l : list string).

Definition units_list (units : units_arg) : list string :=
  match units with NoUnits => [] | Unit u => [u] | Units l => l end.

(** The command line [add_journal] builds from its arguments. *)
Definition journal_command (units : units_arg) (boot since until : option string)
  (lines : option Z) (allfields : bool) (output identifier : option string) (catalog : bool)
  : string :=
  let journal_cmd := "journalctl --no-pager " in
  let journal_cmd :=
    fold_left (fun journal_cmd unit => journal_cmd +:+ " --unit " +:+ unit)
              (units_list units) journal_cmd in
  let journal_cmd :=
    if optstr_truthy identifier
    then journal_cmd +:+ " --identifier " +:+ default "" identifier else journal_cmd in
  let journal_cmd := if catalog then journal_cmd +:+ " --catalog" else journal_cmd in
  let journal_cmd := if allfields then journal_cmd +:+ " --all" else journal_cmd in
  let journal_cmd :=
    if optstr_truthy boot then
      let boot := default "" boot in
      let boot := if String.eqb boot "this" then "" else boot in
      let boot := if String.eqb boot "last" then "-1" else boot in
      journal_cmd +:+ " --boot " +:+ boot
    else journal_cmd in
  let journal_cmd :=
    if optstr_truthy since
    then journal_cmd +:+ " --since " +:+ default "" since else journal_cmd in
  let journal_cmd :=
    if optstr_truthy until
    then journal_cmd +:+ " --until " +:+ default "" until else journal_cmd in
  let journal_cmd :=
    if num_truthy lines
    then journal_cmd +:+ " --lines " +:+ pretty (default 0 lines) else journal_cmd in
  if optstr_truthy output
  then journal_cmd +:+ " --output " +:+ default "" output else journal_cmd.

(** [Plugin.add_journal] *)
Definition add_journal (w : World) (units : units_arg) (boot since until : option string)
  (lines : option Z) (allfields : bool) (output : option string) (timeout : option Z)
  (identifier : option string) (catalog : bool) (sizelimit : option Z)
  (pred : option SoSPredicate) : M Plugin unit :=
  self <- gets id ;;
  let journal_size := 100 in
  let all_logs := get_option_all_logs self in
  let log_size := if num_truthy sizelimit then default 0 sizelimit
                  else get_option_log_size self in
  let log_size := if negb all_logs then Z.max log_size journal_size else 0 in
  let journal_cmd :=
    journal_command units boot since until lines allfields output identifier catalog in
  _log_debug "collecting journal: %s" [A_str journal_cmd] ;;;
  _add_cmd_output w
    (mk_cmd journal_cmd None None timeout true true None None false (Some log_size) None)
    pred.

(** The first entry of [zip(opt_names, opt_parms)] under a name, [None]
    valued or not. *)
Fixpoint current_entry (names : list string) (parms : list pyval) (optionname : string)
  : option pyval :=
  match names, parms with
  | name :: names', enabled :: parms' =>
      if String.eqb name optionname then Some enabled
      else current_entry names' parms' optionname
  | _, _ => None
  end.

(** The command line under [path] can be read and names [process]. *)
Definition names_process (read_file : string -> exn + string) (process path : string)
  : bool :=
  match read_file path with
  | inr text => PyStr.contains (PyStr.strip Options.whitespace text) process
  | inl _ => false
  end.

(** The exception of the first command line, in the order of the glob, that
    cannot be read. *)
Fixpoint first_failure (read_file : string -> exn + string) (paths : list string)
  : option exn :=
  match paths with
  | [] => None
  | path :: rest =>
      match read_file path with
      | inl e => Some e
      | inr _ => first_failure read_file rest
      end
  end.

(** A host on which the glob finds the processes [pids].  Process 1 is
    [init], the command line of process 7 is not text, and every other
    process has gone by the time its command line is opened. *)
Definition proc_world (pids : list string) : World :=
  Examples.with_fs (fun _ => None) (fun _ => inl ENOENT)
    (fun pat => if String.eqb pat "/proc/[0-9]*/cmdline"
                then map (fun pid => "/proc/" +:+ pid +:+ "/cmdline") pids else [])
    Examples.empty_world.
Definition proc_read_file (path : string) : exn + string :=
  if String.eqb path "/proc/1/cmdline" then inr "/sbin/init"
  else if String.eqb path "/proc/7/cmdline" then inl UnicodeDecodeError
  else inl (OSError ENOENT).

(** A string that is not empty and neither begins nor ends with one of the
    characters [cs]. *)
Definition is_stripped (cs : list ascii) (e : string) : Prop :=
  e <> "" /\
  (forall c rest, e = String c rest -> c ∉ cs) /\
  (forall c rest, String.rev e = String c rest -> c ∉ cs).

(** [Plugin.do_path_regex_sub]; [pathexp_match] is the [match] method of
    the compiled [pathexp]. *)
Definition do_path_regex_sub (w : World) (pathexp_match : string -> bool)
  (regexp subst : string) : M Plugin unit :=
  self <- gets id ;;
  let file_list := List.filter (fun f => pathexp_match (srcpath f)) (copied_files self) in
  for_each file_list
    (fun file => do_file_sub w (srcpath file) regexp subst ;;; ret tt).

(** The bytes [_mangle_command] lets through: those of a character that is
    not ASCII, and the ASCII letters, digits, underscore, dash, dot and
    slash. *)
Definition mangle_byte (c : ascii) : bool :=
  negb (is_ascii c) || is_ascii_word c || existsb (Ascii.eqb c) ["-"; "."; "/"]%char.

(** The bytes a command's file name is made of: those [_mangle_command]
    lets through, without the slash. *)
Definition is_file_name_char (c : ascii) : bool :=
  mangle_byte c && negb (Ascii.eqb c "/"%char).

(** One character of a string: a byte and the continuation bytes after
    it. *)
Definition is_char (ch : string) : bool :=
  match ch with
  | EmptyString => false
  | String _ rest => str_all PyStr.is_continuation rest
  end.

(** A character that does not begin with a continuation byte. *)
Definition starts_char (ch : string) : bool :=
  match ch with
  | EmptyString => false
  | String c _ => negb (PyStr.is_continuation c)
  end.

(** A host on which [/etc/localtime] is a symbolic link to the zone file
    [../usr/share/zoneinfo/UTC]. *)
Definition localtime_world : World :=
  mk_world (fun path => if String.eqb path "/etc/localtime" then Some (mk_stat 0xA1FF 25 0 10)
                        else if String.eqb path "/usr/share/zoneinfo/UTC"
                             then Some (mk_stat 0x81A4 114 0 10) else None)
           (fun path => if String.eqb path "/usr/share/zoneinfo/UTC"
                        then inr (mk_stat 0x81A4 114 0 10) else inl ENOENT)
           (fun _ => "../usr/share/zoneinfo/UTC") (fun _ => inl ENOENT) (fun _ => true)
           (fun _ _ => false) id (fun _ => "/usr/share/zoneinfo/UTC") (fun path _ => path)
           (fun _ => []) (fun _ _ => false) (fun _ _ c => inr (c, 0))
           (fun _ _ => []) (fun _ => false) (fun _ _ => mk_result 0 "")
           255 "/var/tmp/sos-archive" (fun _ => false).

(** The record [_get_cmd_output_now] leaves for a command. *)
Definition records_command (c : SoSCommand) (r : ExecutedCommand) : Prop :=
  exe r = cmd c /\
  is_Some (file r) /\
  binary_flag r = (if binary c then "yes" else "no").


(** * Properties *)

(** ** Strings *)

Lemma startswith_spec (s pre : string) :
  PyStr.startswith s pre = true <-> exists post, s = pre +:+ post.
Proof.
  revert s. induction pre as [|a pre IH]; intros s; simpl.
  - split; [intros _; now exists s | now destruct s].
  - destruct s as [|b s]; simpl.
    + split; [discriminate | intros [post H]; discriminate].
    + rewrite andb_true_iff, Ascii.eqb_eq, IH. split.
      * intros [-> [post ->]]. now exists post.
      * intros [post H]. injection H as -> ->. split; [reflexivity | now exists post].
Qed.

Lemma contains_spec (s sub : string) :
  PyStr.contains s sub = true <-> exists pre post, s = pre +:+ sub +:+ post.
Proof.
  induction s as [|a s IH].
  - change (PyStr.contains "" sub) with (PyStr.startswith "" sub || false).
    rewrite orb_false_r, startswith_spec. split.
    + intros [post H]. now exists EmptyString, post.
    + intros [pre [post H]]. destruct pre; [now exists post | discriminate].
  - change (PyStr.contains (String a s) sub)
      with (PyStr.startswith (String a s) sub || PyStr.contains s sub).
    rewrite orb_true_iff, startswith_spec, IH. split.
    + intros [[post H] | [pre [post H]]].
      * now exists EmptyString, post.
      * exists (String a pre), post. simpl. now rewrite H.
    + intros [pre [post H]]. destruct pre as [|c pre]; simpl in H.
      * left. now exists post.
      * right. injection H as _ H. now exists pre, post.
Qed.

Lemma path_in_path_list_spec (path : string) (path_list : list string) :
  _path_in_path_list path path_list = true <->
  exists f pre post, f ∈ path_list /\ path = pre +:+ f +:+ post.
Proof.
  unfold _path_in_path_list. rewrite existsb_exists. split.
  - intros [f [Hin Hc]]. apply contains_spec in Hc as [pre [post H]].
    exists f, pre, post. split; [now apply list_elem_of_In | exact H].
  - intros [f [pre [post [Hin H]]]]. exists f. split; [now apply list_elem_of_In |].
    apply contains_spec. now exists pre, post.
Qed.

(** ** The predicate evaluator *)

Lemma fold_left_orb {A} (f : A -> bool) (l : list A) (acc : bool) :
  fold_left (fun pvalue x => pvalue || f x) l acc = acc || existsb f l.
Proof.
  revert acc. induction l as [|x l IH]; intros acc; simpl.
  - now rewrite orb_false_r.
  - now rewrite IH, orb_assoc.
Qed.

(** What [__nonzero__] computes: [true] when the predicate has no kernel
    modules, no services and [dry_run] is false; in every other case the
    disjunction of "module loaded" over its kernel modules or'ed with the
    disjunction of "service running" over its services, and'ed with the
    negation of [dry_run]. *)
Lemma predicate_evaluation (w : World) (dry_run : bool) (kmods services : list string) :
  __nonzero__ w (mk_pred dry_run kmods services) =
  match kmods, services, dry_run with
  | [], [], false => true
  | _, _, _ =>
      (existsb (is_module_loaded w) kmods || existsb (service_is_running w) services)
      && negb dry_run
  end.
Proof.
  unfold __nonzero__. cbn [_kmods _services _dry_run].
  rewrite !fold_left_orb. cbn [orb].
  destruct kmods, services, dry_run; reflexivity.
Qed.

(** C8, where the code departs from it.  The value the claim describes is
    the one [__nonzero__] computes, but a boolean evaluation of a predicate
    does not reach that method: [bool(pred)] is true of every predicate
    object, so [test_predicate] is true as soon as a predicate is in force.
    For a dry-run predicate the claim gives false ([__nonzero__] is false on
    every host), yet the evaluation gives true, and a string offered under
    that predicate is queued. *)
Theorem boolean_evaluation_is_always_true :
  (forall pred, bool_of_predicate pred = true) /\
  (forall w p cmd pred, test_predicate w p cmd (Some pred) = true) /\
  (forall w, __nonzero__ w Examples.dry_run_predicate = false) /\
  (forall w, test_predicate w Examples.demo_plugin false (Some Examples.dry_run_predicate)
             = true) /\
  (forall w, exists p',
     add_string_as_file w (Text "note") "notes.txt" (Some Examples.dry_run_predicate)
                        Examples.demo_plugin = Returned tt p' /\
     copy_strings p' = [(Text "note", "notes.txt")]).
Proof.
  repeat split.
  eexists. split; reflexivity.
Qed.

(** ** The forbidden-path check *)

Lemma forbidden_paths_substring (p : Plugin) (path : string) :
  (exists joined f pre post,
     sysroot_joined p path = inr joined /\
     f ∈ forbidden_paths p /\
     joined = pre +:+ f +:+ post) ->
  _is_forbidden_path p path = inr true.
Proof.
  intros (j & f & pre & post & Hj & Hin & H). unfold _is_forbidden_path. rewrite Hj.
  f_equal. apply path_in_path_list_spec. now exists f, pre, post.
Qed.

(** C9.  A path is forbidden exactly when some registered forbidden path
    occurs as a contiguous substring of the sysroot-joined path; so a sibling
    whose name only starts with a forbidden path is forbidden too, though it
    is neither that path nor below it. *)
Theorem forbidden_iff_substring :
  (forall (p : Plugin) (path : string),
     _is_forbidden_path p path = inr true <->
     exists joined f pre post,
       sysroot_joined p path = inr joined /\
       f ∈ forbidden_paths p /\
       joined = pre +:+ f +:+ post) /\
  (let p := with_forbidden_paths (fun _ => ["/etc/ssh/ssh_host_key"])
              (Examples.new_plugin "ssh" "/" Examples.null_predicate) in
   _is_forbidden_path p "/etc/ssh/ssh_host_key.pub" = inr true /\
   _is_forbidden_path p "/etc/ssh/sshd_config" = inr false).
Proof.
  split; [| split; reflexivity].
  intros p path. unfold _is_forbidden_path.
  destruct (sysroot_joined p path) as [e | joined].
  - split; [discriminate | intros (j & f & pre & post & H & _); discriminate].
  - split.
    + intros H. injection H as H. apply path_in_path_list_spec in H as (f & pre & post & Hin & H).
      now exists joined, f, pre, post.
    + intros (j & f & pre & post & Hj & Hin & H). injection Hj as <-.
      f_equal. apply path_in_path_list_spec. now exists f, pre, post.
Qed.

(** ** Reasoning about what a method leaves behind *)

Section post.
Context (R : Plugin -> Plugin -> Prop) `{!PreOrder R}.

Lemma post_ret {A} (a : A) p : post_at R (ret a) p.
Proof. intros p' H. injection H as <-. reflexivity. Qed.

Lemma post_raise {A} e p : post_at R (raise (A := A) e) p.
Proof. intros p' H. injection H as <-. reflexivity. Qed.

Lemma post_diverge {A} p : post_at R (diverge (A := A)) p.
Proof. intros p' H. discriminate. Qed.

Lemma post_lift {A} (r : exn + A) p : post_at R (lift r) p.
Proof. destruct r; [apply post_raise | apply post_ret]. Qed.

Lemma post_bind {A B} (m : M Plugin A) (k : A -> M Plugin B) p :
  post_at R m p ->
  (forall a p1, m p = Returned a p1 -> R p p1 -> post_at R (k a) p1) ->
  post_at R (bind m k) p.
Proof.
  intros Hm Hk p' H. unfold bind in H. destruct (m p) as [a p1 | e p1 |] eqn:E.
  - assert (R p p1) as H1 by (apply Hm; now rewrite E).
    etransitivity; [exact H1 |]. now apply (Hk a p1).
  - apply Hm. now rewrite E.
  - discriminate.
Qed.

Lemma post_gets_bind {A B} (f : Plugin -> A) (k : A -> M Plugin B) p :
  post_at R (k (f p)) p -> post_at R (bind (gets f) k) p.
Proof. intros H. exact H. Qed.

Lemma post_lift_bind {A B} (r : exn + A) (k : A -> M Plugin B) p :
  (forall a, r = inr a -> post_at R (k a) p) -> post_at R (bind (lift r) k) p.
Proof.
  intros H. destruct r as [e | a].
  - intros p' H'. injection H' as <-. reflexivity.
  - exact (H a eq_refl).
Qed.

Lemma post_try_except {A} (m : M Plugin A) handled h p :
  post_at R m p ->
  (forall e p1, m p = Raised e p1 -> R p p1 -> post_at R (h e) p1) ->
  post_at R (try_except m handled h) p.
Proof.
  intros Hm Hh p' H. unfold try_except in H. destruct (m p) as [a p1 | e p1 |] eqn:E.
  - apply Hm. now rewrite E.
  - assert (R p p1) as H1 by (apply Hm; now rewrite E).
    destruct (handled e).
    + etransitivity; [exact H1 |]. now apply (Hh e p1).
    + injection H as <-. exact H1.
  - discriminate.
Qed.

Lemma post_for_each {A} (l : list A) (body : A -> M Plugin unit) p :
  (forall x p1, post_at R (body x) p1) -> post_at R (for_each l body) p.
Proof.
  intros Hb. revert p. induction l as [|x l IH]; intros p; simpl.
  - apply post_ret.
  - apply post_bind; [apply Hb | intros _ p1 _ _; apply IH].
Qed.

End post.

Lemma is_forbidden_congr (p p' : Plugin) (path : string) :
  sysroot p' = sysroot p -> forbidden_paths p' = forbidden_paths p ->
  _is_forbidden_path p' path = _is_forbidden_path p path.
Proof.
  intros Hs Hf. unfold _is_forbidden_path, sysroot_joined, use_sysroot, join_sysroot.
  now rewrite Hs, Hf.
Qed.

#[local] Instance copier_step_preorder : PreOrder copier_step.
Proof.
  split.
  - intros p. repeat split; try (exists []; split; [now rewrite app_nil_r | constructor]).
  - intros p1 p2 p3 (Hs1 & Hf1 & (c1 & Hc1 & Hok1) & (a1 & Ha1 & Hoa1))
                    (Hs2 & Hf2 & (c2 & Hc2 & Hok2) & (a2 & Ha2 & Hoa2)).
    assert (forall s, not_forbidden p2 s -> not_forbidden p1 s) as Ht.
    { intros s. unfold not_forbidden. now rewrite (is_forbidden_congr p1 p2). }
    split; [congruence |]. split; [congruence |]. split.
    + exists (c1 ++ c2). split; [rewrite Hc2, Hc1; now rewrite app_assoc |].
      apply Forall_app. split; [exact Hok1 |].
      eapply Forall_impl; [exact Hok2 | intros r; apply Ht].
    + exists (a1 ++ a2). split; [rewrite Ha2, Ha1; now rewrite app_assoc |].
      apply Forall_app. split; [exact Hoa1 |].
      eapply Forall_impl; [exact Hoa2 | intros e H src Hsrc; apply Ht; now apply H].
Qed.

Lemma copier_log lvl fmt args p : post_at copier_step (log lvl fmt args) p.
Proof.
  intros p' H. injection H as <-.
  repeat split; try (exists []; split; [cbn; now rewrite app_nil_r | constructor]).
Qed.

Lemma copier_call fn path p : post_at copier_step (call fn path) p.
Proof.
  intros p' H. injection H as <-.
  repeat split; try (exists []; split; [cbn; now rewrite app_nil_r | constructor]).
Qed.

Lemma copier_archive_call e p :
  (forall src, entry_source e = Some src -> not_forbidden p src) ->
  post_at copier_step (archive_call e) p.
Proof.
  intros He p' H. injection H as <-.
  repeat split; [exists []; split; [cbn; now rewrite app_nil_r | constructor] |].
  exists [e]. split; [reflexivity | now constructor].
Qed.

Lemma copier_record r p :
  not_forbidden p (srcpath r) ->
  post_at copier_step (modify (with_copied_files (fun l => l ++ [r]))) p.
Proof.
  intros Hr p' H. injection H as <-.
  repeat split; [| exists []; split; [cbn; now rewrite app_nil_r | constructor]].
  exists [r]. split; [reflexivity | now constructor].
Qed.

Lemma copier_step_not_forbidden p p1 path :
  copier_step p p1 -> not_forbidden p path -> not_forbidden p1 path.
Proof.
  intros (Hs & Hf & _) H. unfold not_forbidden. now rewrite (is_forbidden_congr p p1).
Qed.

(** ** The path copier never records a forbidden path *)

Ltac copier_bind :=
  apply (post_bind copier_step);
  [ | let a := fresh "a" in
      let p1 := fresh "p" in
      let E := fresh "E" in
      let HR := fresh "HR" in
      intros a p1 E HR;
      repeat match goal with
             | F : not_forbidden _ _ |- _ =>
                 apply (copier_step_not_forbidden _ _ _ HR) in F
             end;
      clear E HR ].

Ltac copier_leaf :=
  first
    [ apply (post_ret copier_step)
    | apply (post_raise copier_step)
    | apply (post_diverge copier_step)
    | apply (post_lift copier_step)
    | apply copier_log
    | apply copier_call
    | apply copier_archive_call; cbn [entry_source]; intros ? [= <-]; assumption
    | apply copier_archive_call; cbn [entry_source]; intros ? [=]
    | apply copier_record; cbn [srcpath]; assumption ].

Ltac copier_auto :=
  repeat first
    [ copier_leaf
    | apply (post_gets_bind copier_step); cbv beta
    | copier_bind
    | match goal with
      | |- post_at _ (if ?b then _ else _) _ => destruct b
      end ].

Section copier_invariant.
Variable w : World.
Variable do_copy_path : string -> option string -> M Plugin (option string).
Hypothesis do_copy_path_step :
  forall src dest p, post_at copier_step (do_copy_path src dest) p.

Lemma copy_symlink_step (srcpath : string) (p : Plugin) :
  not_forbidden p srcpath ->
  post_at copier_step (_copy_symlink w do_copy_path srcpath) p.
Proof.
  intros Hsrc. unfold _copy_symlink.
  copier_auto; apply do_copy_path_step.
Qed.

Lemma copy_dir_step (srcpath : string) (p : Plugin) :
  post_at copier_step (_copy_dir w do_copy_path srcpath) p.
Proof.
  unfold _copy_dir. apply (post_try_except copier_step).
  - copier_bind; [apply copier_call |].
    apply (post_lift_bind copier_step). intros entries _.
    apply (post_for_each copier_step). intros afile p1.
    copier_auto. apply do_copy_path_step.
  - intros e p1 _ _. destruct e; try apply (post_raise copier_step).
    destruct (errno =? ELOOP); [apply copier_log | apply (post_raise copier_step)].
Qed.

Lemma do_copy_path_body_step (srcpath : string) (dest : option string) (p : Plugin) :
  post_at copier_step (_do_copy_path_body w do_copy_path srcpath dest) p.
Proof.
  unfold _do_copy_path_body. apply (post_gets_bind copier_step). cbv beta.
  destruct (_timeout_hit (id p)); [apply (post_ret copier_step) |].
  apply (post_lift_bind copier_step). intros forbidden Hf.
  destruct forbidden; [copier_auto |].
  change (not_forbidden p srcpath) in Hf.
  copier_bind; [apply copier_call |].
  destruct (os_lstat w srcpath) as [st |]; [| copier_auto].
  destruct (Stat.S_ISLNK (st_mode st)).
  { copier_bind; [now apply copy_symlink_step | apply (post_ret copier_step)]. }
  destruct (Stat.S_ISDIR (st_mode st) && os_access_R_OK w srcpath).
  { copier_bind; [apply copy_dir_step | apply (post_ret copier_step)]. }
  destruct (negb (Stat.S_ISREG (st_mode st) || Stat.S_ISDIR (st_mode st))).
  { unfold _copy_node. copier_auto. }
  copier_auto.
Qed.

End copier_invariant.

Lemma do_copy_path_step (fuel : nat) (w : World) (srcpath : string) (dest : option string)
  (p : Plugin) :
  post_at copier_step (_do_copy_path fuel w srcpath dest) p.
Proof.
  revert srcpath dest p. induction fuel as [|fuel IH]; intros srcpath dest p.
  - apply do_copy_path_body_step. intros src d p1. apply (post_diverge copier_step).
  - apply do_copy_path_body_step. exact IH.
Qed.

Lemma do_copy_path_timeout (fuel : nat) (w : World) (srcpath : string) (dest : option string)
  (p : Plugin) :
  _timeout_hit p = true ->
  _do_copy_path fuel w srcpath dest p = Returned None p.
Proof.
  intros H. destruct fuel; cbn [_do_copy_path];
    unfold _do_copy_path_body, bind, gets, id; now rewrite H.
Qed.

Lemma do_copy_path_forbidden (fuel : nat) (w : World) (srcpath : string)
  (dest : option string) (p : Plugin) :
  _is_forbidden_path p srcpath = inr true ->
  _do_copy_path fuel w srcpath dest p =
  if _timeout_hit p then Returned None p
  else Returned (Some "")
         (after_events [Log DEBUG "skipping forbidden path '%s'" [A_str srcpath]] p).
Proof.
  intros H. destruct fuel; cbn [_do_copy_path];
    unfold _do_copy_path_body, bind, gets, id; rewrite H;
    now destruct (_timeout_hit p).
Qed.

(** ** The copy-spec resolver never queues a forbidden file *)

#[local] Instance resolver_step_preorder : PreOrder resolver_step.
Proof.
  split.
  - intros p. repeat split; try (exists []; split; [now rewrite app_nil_r | constructor]).
    intros f Hf. now left.
  - intros p1 p2 p3 (Hs1 & Hf1 & Hc1 & Hp1 & (s1 & Hs1' & Hos1) & (a1 & Ha1 & Hoa1))
                    (Hs2 & Hf2 & Hc2 & Hp2 & (s2 & Hs2' & Hos2) & (a2 & Ha2 & Hoa2)).
    assert (forall s, not_forbidden p2 s -> not_forbidden p1 s) as Ht.
    { intros s. unfold not_forbidden. now rewrite (is_forbidden_congr p1 p2). }
    split; [congruence |]. split; [congruence |]. split; [congruence |]. split; [| split].
    + intros f Hf. destruct (Hp2 f Hf) as [H | H]; [now apply Hp1 | right; now apply Ht].
    + exists (s1 ++ s2). split; [rewrite Hs2', Hs1'; now rewrite app_assoc |].
      apply Forall_app. split; [exact Hos1 |].
      eapply Forall_impl; [exact Hos2 |].
      intros cs (f & n & H & Hn). exists f, n. split; [exact H | now apply Ht].
    + exists (a1 ++ a2). split; [rewrite Ha2, Ha1; now rewrite app_assoc |].
      apply Forall_app. split; [exact Hoa1 |].
      eapply Forall_impl; [exact Hoa2 |].
      intros e (t & f & H & Hn). exists t, f. split; [exact H | now apply Ht].
Qed.

Ltac resolver_frame :=
  repeat split;
  try (exists []; split; [cbn; now rewrite app_nil_r | constructor]);
  try (intros ? ?; now left).

Lemma resolver_log lvl fmt args p : post_at resolver_step (log lvl fmt args) p.
Proof. intros p' H. injection H as <-. resolver_frame. Qed.

Lemma resolver_call fn path p : post_at resolver_step (call fn path) p.
Proof. intros p' H. injection H as <-. resolver_frame. Qed.

Lemma resolver_add_copy_paths f p :
  not_forbidden p f -> post_at resolver_step (_add_copy_paths [f]) p.
Proof.
  intros Hf p' H. injection H as <-. resolver_frame.
  intros g Hg. cbn in Hg. apply elem_of_union in Hg as [Hg | Hg]; [now left |].
  right. apply elem_of_union in Hg as [Hg | Hg]; [| now apply not_elem_of_empty in Hg].
  apply elem_of_singleton in Hg. now subst g.
Qed.

Lemma resolver_add_link target f p :
  not_forbidden p f -> post_at resolver_step (archive_call (add_link target f)) p.
Proof.
  intros Hf p' H. injection H as <-. resolver_frame.
  exists [add_link target f]. split; [reflexivity |]. constructor; [| constructor].
  now exists target, f.
Qed.

Lemma resolver_add_string f n filename p :
  not_forbidden p f ->
  post_at resolver_step (modify (with_copy_strings (fun l => l ++ [(Tail f n, filename)]))) p.
Proof.
  intros Hf p' H. injection H as <-. resolver_frame.
  exists [(Tail f n, filename)]. split; [reflexivity |]. constructor; [| constructor].
  now exists f, n.
Qed.

Lemma resolver_step_not_forbidden p p1 path :
  resolver_step p p1 -> not_forbidden p path -> not_forbidden p1 path.
Proof.
  intros (Hs & Hf & _) H. unfold not_forbidden. now rewrite (is_forbidden_congr p p1).
Qed.

Ltac resolver_bind :=
  apply (post_bind resolver_step);
  [ | let a := fresh "a" in
      let p1 := fresh "p" in
      let E := fresh "E" in
      let HR := fresh "HR" in
      intros a p1 E HR;
      repeat match goal with
             | F : not_forbidden _ _ |- _ =>
                 apply (resolver_step_not_forbidden _ _ _ HR) in F
             end;
      clear E HR ].

Ltac resolver_leaf :=
  first
    [ apply (post_ret resolver_step)
    | apply (post_raise resolver_step)
    | apply (post_lift resolver_step)
    | apply resolver_log
    | apply resolver_call
    | apply resolver_add_copy_paths; assumption
    | apply resolver_add_link; assumption
    | apply resolver_add_string; assumption ].

Ltac resolver_auto :=
  repeat first
    [ resolver_leaf
    | apply (post_gets_bind resolver_step); cbv beta
    | resolver_bind
    | match goal with
      | |- post_at _ (if ?b then _ else _) _ => destruct b
      end ].

Lemma scan_files_step (w : World) (sizelimit : option Z) (files : list string)
  (current_size : Z) (_file : option string) (p : Plugin) :
  post_at resolver_step (scan_files w sizelimit files current_size _file) p.
Proof.
  revert current_size _file p. induction files as [|f rest IH]; intros cur last p.
  - apply (post_ret resolver_step).
  - cbn [scan_files]. apply (post_gets_bind resolver_step). cbv beta.
    apply (post_lift_bind resolver_step). intros forbidden Hf.
    destruct forbidden.
    + resolver_bind; [apply resolver_log | apply IH].
    + change (not_forbidden p f) in Hf.
      resolver_bind; [apply resolver_call |].
      resolver_bind; [destruct (os_stat w f); resolver_auto |].
      match goal with |- context [if ?b then _ else _] => destruct b end; [resolver_auto |].
      resolver_bind; [resolver_auto | apply IH].
Qed.

Lemma scan_files_limit (w : World) (sizelimit : option Z) (files : list string)
  (current_size : Z) (_file : option string) (p p' : Plugin) (f : string) :
  scan_files w sizelimit files current_size _file p = Returned (true, Some f) p' ->
  not_forbidden p f.
Proof.
  revert current_size _file p. induction files as [|g rest IH]; intros cur last p.
  - intros [=].
  - cbn [scan_files]. unfold bind at 1, gets, id. unfold bind at 1.
    destruct (_is_forbidden_path p g) as [e | forbidden] eqn:Hg; [intros [=] |].
    cbn [lift ret].
    destruct forbidden.
    + unfold bind at 1. cbn [_log_debug log modify]. intros H. apply IH in H. exact H.
    + unfold bind at 1. cbn [call modify]. unfold bind at 1.
      destruct (os_stat w g) as [errno | st].
      * unfold bind at 1. cbn [_log_info log modify ret].
        match goal with |- context [if ?b then _ else _] => destruct b end.
        -- intros [= <- <-]. exact Hg.
        -- unfold bind at 1. cbn [_add_copy_paths modify]. intros H. apply IH in H. exact H.
      * cbn [ret].
        match goal with |- context [if ?b then _ else _] => destruct b end.
        -- intros [= <- <-]. exact Hg.
        -- unfold bind at 1. cbn [_add_copy_paths modify]. intros H. apply IH in H. exact H.
Qed.

Lemma add_string_as_file_step (w : World) (f : string) (n : Z) (filename : string)
  (pred : option SoSPredicate) (p : Plugin) :
  not_forbidden p f ->
  post_at resolver_step (add_string_as_file w (Tail f n) filename pred) p.
Proof.
  intros Hf. unfold add_string_as_file. resolver_auto.
Qed.

Lemma tail_fallback_step (w : World) (sizelimit : option Z) (f : string) (p : Plugin) :
  not_forbidden p f ->
  post_at resolver_step (tail_fallback w sizelimit f) p.
Proof.
  intros Hf. unfold tail_fallback. apply (post_gets_bind resolver_step). cbv beta.
  resolver_bind; [destruct f; resolver_leaf |].
  resolver_bind; [apply resolver_call |].
  apply (post_lift_bind resolver_step). intros tailed Ht.
  unfold tail in Ht. destruct (os_stat w f) as [errno | st]; [discriminate |].
  injection Ht as <-.
  resolver_bind; [now apply add_string_as_file_step |].
  now apply resolver_add_link.
Qed.

Lemma add_one_copyspec_step (w : World) (sizelimit : option Z) (tailit : bool)
  (copyspec : string) (p : Plugin) :
  post_at resolver_step (add_one_copyspec w sizelimit tailit copyspec) p.
Proof.
  unfold add_one_copyspec. apply (post_gets_bind resolver_step). cbv beta.
  resolver_bind; [resolver_leaf |].
  resolver_bind; [apply resolver_call |].
  match goal with |- context [if ?b then _ else _] => destruct b end;
    [apply (post_ret resolver_step) |].
  resolver_bind; [apply (post_for_each resolver_step); intros; apply resolver_call |].
  apply (post_bind resolver_step); [apply scan_files_step |].
  intros [limit_reached last] q E HR.
  destruct limit_reached, last as [f |]; try apply (post_ret resolver_step).
  apply scan_files_limit in E.
  apply (resolver_step_not_forbidden _ _ _ HR) in E.
  destruct (tailit && negb (_file_is_compressed f));
    [now apply tail_fallback_step | apply (post_ret resolver_step)].
Qed.

Lemma copyspec_loop_step (w : World) (sizelimit : option Z) (tailit : bool)
  (copyspecs : list string) (p : Plugin) :
  post_at resolver_step (copyspec_loop w sizelimit tailit copyspecs) p.
Proof.
  revert p. induction copyspecs as [|copyspec rest IH]; intros p; cbn [copyspec_loop].
  - apply (post_ret resolver_step).
  - destruct (negb (PyStr.truthy copyspec)); [apply (post_ret resolver_step) |].
    resolver_bind; [apply add_one_copyspec_step | apply IH].
Qed.

Lemma add_copy_spec_step (w : World) (copyspecs : copyspecs_arg) (sizelimit : option Z)
  (tailit : bool) (pred : option SoSPredicate) (p : Plugin) :
  post_at resolver_step (add_copy_spec w copyspecs sizelimit tailit pred) p.
Proof.
  unfold add_copy_spec. apply (post_gets_bind resolver_step). cbv beta.
  destruct (negb (test_predicate w (id p) false pred)); [resolver_auto |].
  destruct (negb (copyspecs_truthy copyspecs)); [apply (post_ret resolver_step) |].
  apply copyspec_loop_step.
Qed.

(** C1.  A copy attempt on a forbidden path changes neither [copied_files]
    nor the archive and calls nothing after the check (no [lstat]): it only
    logs the skip.  However deep the copier recurses, and however it ends,
    every record it appends to [copied_files] and every archive entry that
    names a host file is for a path that is not forbidden.  [add_copy_spec]
    copies nothing, and what it queues (paths, tail artifacts, links) is for
    files that are not forbidden. *)
Theorem forbidden_path_never_collected :
  (forall fuel w srcpath dest p,
     _is_forbidden_path p srcpath = inr true ->
     exists r p',
       _do_copy_path fuel w srcpath dest p = Returned r p' /\
       copied_files p' = copied_files p /\
       archive p' = archive p /\
       (trace p' = trace p \/
        trace p' = trace p ++ [Log DEBUG "skipping forbidden path '%s'" [A_str srcpath]])) /\
  (forall fuel w srcpath dest p p',
     final_state (_do_copy_path fuel w srcpath dest p) = Some p' ->
     copier_step p p') /\
  (forall w copyspecs sizelimit tailit pred p p',
     final_state (add_copy_spec w copyspecs sizelimit tailit pred p) = Some p' ->
     resolver_step p p').
Proof.
  split; [| split].
  - intros fuel w srcpath dest p H.
    rewrite (do_copy_path_forbidden fuel w srcpath dest p H).
    destruct (_timeout_hit p); eexists; eexists; (split; [reflexivity |]); auto.
  - intros fuel w srcpath dest p p'. apply do_copy_path_step.
  - intros w copyspecs sizelimit tailit pred p p'. apply add_copy_spec_step.
Qed.

(** A witness for C1: with [/etc/shadow] forbidden, copying it leaves the
    ledger and the archive as they were. *)
Lemma forbidden_path_never_collected_witness :
  _is_forbidden_path Examples.etc_plugin "/etc/shadow" = inr true /\
  exists r p',
    _do_copy_path 2 Examples.etc_world "/etc/shadow" None Examples.etc_plugin = Returned r p' /\
    copied_files p' = copied_files Examples.etc_plugin /\
    archive p' = archive Examples.etc_plugin /\
    (trace p' = trace Examples.etc_plugin \/
     trace p' = trace Examples.etc_plugin ++
                [Log DEBUG "skipping forbidden path '%s'" [A_str "/etc/shadow"]]).
Proof.
  split; [reflexivity |].
  apply (proj1 forbidden_path_never_collected). reflexivity.
Defined.

(** ** Once the timeout flag is set *)

Lemma after_events_nil (p : Plugin) : after_events [] p = p.
Proof. destruct p. unfold after_events, with_trace. cbn. now rewrite app_nil_r. Qed.

Lemma after_events_app (a b : list event) (p : Plugin) :
  after_events b (after_events a p) = after_events (a ++ b) p.
Proof. destruct p. unfold after_events, with_trace. cbn. now rewrite app_assoc. Qed.

Lemma get_cmd_output_now_timeout (fuel : nat) (w : World) (c : SoSCommand) (p : Plugin) :
  _timeout_hit p = true ->
  _get_cmd_output_now fuel w c p = Returned None p.
Proof.
  intros H. unfold _get_cmd_output_now, bind, gets, id. now rewrite H.
Qed.

Lemma collect_strings_timeout (p : Plugin) :
  _timeout_hit p = true ->
  _collect_strings p = Returned tt p.
Proof.
  intros H. unfold _collect_strings, bind, gets, id.
  destruct (copy_strings p) as [|[string file_name] rest]; [reflexivity |].
  cbn [collect_strings_loop]. unfold bind, gets, id. now rewrite H.
Qed.

Lemma for_each_only_logs {A} (body : A -> M Plugin unit) (l : list A) (p : Plugin) :
  (forall x q, _timeout_hit q = true ->
     exists logs, body x q = Returned tt (after_events logs q) /\ Forall is_Log logs) ->
  _timeout_hit p = true ->
  exists logs, for_each l body p = Returned tt (after_events logs p) /\ Forall is_Log logs.
Proof.
  intros Hbody. revert p. induction l as [|x l IH]; intros p Hp.
  - exists []. split; [now rewrite after_events_nil | constructor].
  - cbn [for_each]. unfold bind.
    destruct (Hbody x p Hp) as (logs1 & -> & Hl1).
    destruct (IH (after_events logs1 p) Hp) as (logs2 & -> & Hl2).
    exists (logs1 ++ logs2). split; [now rewrite after_events_app | now apply Forall_app].
Qed.

Lemma collect_timeout (fuel : nat) (w : World) (p : Plugin) :
  _timeout_hit p = true ->
  exists logs, collect fuel w p = Returned tt (after_events logs p) /\ Forall is_Log logs.
Proof.
  intros Hp. unfold collect, bind at 1, gets at 1, id.
  unfold bind at 1.
  assert (exists logs, _collect_copy_specs fuel w p = Returned tt (after_events logs p)
                       /\ Forall is_Log logs) as (logs1 & -> & Hl1).
  { unfold _collect_copy_specs, bind at 1, gets, id.
    apply for_each_only_logs; [| exact Hp].
    intros path q Hq. exists [Log INFO "collecting path '%s'" [A_str path]].
    split; [| repeat constructor].
    unfold bind, _log_info, log, modify.
    now rewrite do_copy_path_timeout by exact Hq. }
  unfold bind at 1.
  assert (exists logs, _collect_cmd_output fuel w (after_events logs1 p)
                       = Returned tt (after_events logs (after_events logs1 p))
                       /\ Forall is_Log logs) as (logs2 & -> & Hl2).
  { unfold _collect_cmd_output, bind at 1, gets, id.
    apply for_each_only_logs; [| exact Hp].
    intros soscmd q Hq.
    exists [Log DEBUG "unpacked command: " [A_cmd soscmd];
            Log INFO "collecting output of '%s'" [A_str (cmd soscmd)]].
    split; [| repeat constructor].
    unfold bind, _log_info, _log_debug, log, modify.
    rewrite get_cmd_output_now_timeout by exact Hq. f_equal.
    exact (after_events_app [Log DEBUG "unpacked command: " [A_cmd soscmd]]
                            [Log INFO "collecting output of '%s'" [A_str (cmd soscmd)]] q). }
  unfold bind at 1. rewrite collect_strings_timeout by exact Hp.
  exists (logs1 ++ logs2 ++
          [Log DEBUG "collected plugin '%s' in %s" [A_str (name p); A_elapsed]]).
  split.
  - unfold _log_debug, log, modify. now rewrite <- !after_events_app.
  - repeat (apply Forall_app; split); try assumption. repeat constructor.
Qed.

(** C2.  Once [_timeout_hit] is set, [_do_copy_path], [_get_cmd_output_now]
    and [_collect_strings] return at once and leave the plugin as it is, and
    [collect] returns without raising: it appends nothing to [copied_files],
    to [executed_commands] or to the archive, and adds only log records to
    the trace; the flag stays set. *)
Theorem timeout_truncation (w : World) (p : Plugin) :
  _timeout_hit p = true ->
  (forall fuel srcpath dest, _do_copy_path fuel w srcpath dest p = Returned None p) /\
  (forall fuel c, _get_cmd_output_now fuel w c p = Returned None p) /\
  _collect_strings p = Returned tt p /\
  (forall fuel, exists p' logs,
     collect fuel w p = Returned tt p' /\
     copied_files p' = copied_files p /\
     executed_commands p' = executed_commands p /\
     archive p' = archive p /\
     _timeout_hit p' = true /\
     trace p' = trace p ++ logs /\ Forall is_Log logs).
Proof.
  intros Hp. repeat split.
  - intros. now apply do_copy_path_timeout.
  - intros. now apply get_cmd_output_now_timeout.
  - now apply collect_strings_timeout.
  - intros fuel. destruct (collect_timeout fuel w p Hp) as (logs & H & Hl).
    exists (after_events logs p), logs. repeat split; auto.
Qed.

(** A witness for C2: a plugin with a path, a command and a string queued
    whose timeout has fired. *)
Lemma timeout_truncation_witness :
  _timeout_hit Examples.timed_out_plugin = true /\
  _collect_strings Examples.timed_out_plugin = Returned tt Examples.timed_out_plugin /\
  exists p' logs,
    collect 0 Examples.etc_world Examples.timed_out_plugin = Returned tt p' /\
    copied_files p' = [] /\ executed_commands p' = [] /\ archive p' = [] /\
    _timeout_hit p' = true /\
    trace p' = trace Examples.timed_out_plugin ++ logs /\ Forall is_Log logs.
Proof.
  split; [reflexivity |].
  pose proof (timeout_truncation Examples.etc_world Examples.timed_out_plugin eq_refl)
    as (_ & _ & Hs & Hc).
  split; [exact Hs | exact (Hc 0%nat)].
Defined.

(** ** The chroot fallback of the command executor *)

Lemma execs_app (a b : list event) : execs (a ++ b) = execs a ++ execs b.
Proof. unfold execs. apply omap_app. Qed.

Lemma execs_logs (logs : list event) : Forall is_Log logs -> execs logs = [].
Proof.
  induction 1 as [|e logs He _ IH]; [reflexivity |].
  destruct e; try contradiction. exact IH.
Qed.

Lemma get_command_output_unfold (fuel : nat) (w : World) (prog : string)
  (timeout : option Z) (stderr chroot : bool) (runat : option string)
  (env : option (list (string * string))) (binary : bool) (sizelimit : option Z) :
  get_command_output fuel w prog timeout stderr chroot runat env binary sizelimit =
  (self <- gets id ;;
   if _timeout_hit self then ret None
   else
     let root :=
       if chroot || String.eqb (opt_chroot (opts self)) "always"
       then Some (sysroot self) else None in
     let req := mk_req prog timeout stderr root runat env binary sizelimit in
     modify (after_events [Exec req]) ;;;
     let result := sos_get_command_output w (trace self) req in
     (if status result =? 124 then
        match timeout with
        | Some t => _log_warn "command '%s' timed out after %ds" [A_str prog; A_int t]
        | None => raise TypeError
        end
      else ret tt) ;;;
     if (status result =? 126) || (status result =? 127) then
       if optstr_truthy root && negb (String.eqb (default "" root) "/")
          && negb (String.eqb (opt_chroot (opts self)) "always")
       then
         word <- lift (match PyStr.first_word prog with
                       | Some word => inr word
                       | None => inl IndexError
                       end) ;;
         _log_info "command '%s' not found in %s - re-trying in host root"
                   [A_str word; A_str (default "" root)] ;;;
         match fuel with
         | O => diverge
         | S fuel' =>
             get_command_output fuel' w prog timeout true false runat env binary None
         end
       else
         _log_debug "could not run '%s': command not found" [A_str prog] ;;;
         ret (Some result)
     else ret (Some result)).
Proof. destruct fuel; reflexivity. Qed.

(** A run that is not chrooted executes the command once and never retries,
    whatever the command returns. *)
Lemma unchrooted_run (fuel : nat) (w : World) (prog : string) (timeout : option Z)
  (stderr : bool) (runat : option string) (env : option (list (string * string)))
  (binary : bool) (sizelimit : option Z) (q : Plugin) :
  _timeout_hit q = false ->
  opt_chroot (opts q) <> "always" ->
  let req := mk_req prog timeout stderr None runat env binary sizelimit in
  let r := sos_get_command_output w (trace q) req in
  exists logs,
    Forall is_Log logs /\
    (get_command_output fuel w prog timeout stderr false runat env binary sizelimit q
       = Returned (Some r) (after_events (Exec req :: logs) q)
     \/ (status r = 124 /\ timeout = None /\
         get_command_output fuel w prog timeout stderr false runat env binary sizelimit q
           = Raised TypeError (after_events (Exec req :: logs) q))).
Proof.
  intros Hq Hopt req r. apply String.eqb_neq in Hopt.
  remember (get_command_output fuel w prog timeout stderr false runat env binary sizelimit q)
    as run eqn:Hrun.
  rewrite get_command_output_unfold in Hrun.
  unfold bind at 1, gets at 1, id in Hrun. rewrite Hq, Hopt in Hrun.
  cbn [orb optstr_truthy andb] in Hrun. fold req in Hrun. fold r in Hrun.
  unfold bind, _log_warn, _log_debug, log, modify, ret, raise in Hrun.
  destruct (status r =? 124) eqn:E124; [destruct timeout as [t |] |].
  - destruct ((status r =? 126) || (status r =? 127));
      rewrite !after_events_app in Hrun;
      (eexists; split; [| left; exact Hrun]); repeat constructor.
  - exists []. split; [constructor | right].
    split; [now apply Z.eqb_eq | split; [reflexivity | exact Hrun]].
  - destruct ((status r =? 126) || (status r =? 127)).
    + rewrite !after_events_app in Hrun.
      eexists; split; [| left; exact Hrun]. repeat constructor.
    + exists []. split; [constructor | left; exact Hrun].
Qed.




(** ** Every command that runs is recorded with a file *)

Ltac split_run H :=
  repeat match type of H with
         | context [if ?b then _ else _] => destruct b eqn:?
         | context [match ?x with _ => _ end] => destruct x eqn:?
         end.

(** What [get_command_output] returns and leaves behind: either it was
    skipped, or the result is that of one run of the command and only the
    trace has grown. *)
Lemma get_command_output_returned (fuel : nat) (w : World) (prog : string)
  (timeout : option Z) (stderr chroot : bool) (runat : option string)
  (env : option (list (string * string))) (binary : bool) (sizelimit : option Z)
  (p : Plugin) (res : option cmd_result) (q : Plugin) :
  get_command_output fuel w prog timeout stderr chroot runat env binary sizelimit p
    = Returned res q ->
  (_timeout_hit p = true /\ res = None /\ q = p) \/
  (_timeout_hit p = false /\
   exists evs tr req,
     q = after_events evs p /\
     res = Some (sos_get_command_output w tr req) /\
     x_command req = prog).
Proof.
  revert stderr chroot sizelimit p.
  induction fuel as [|fuel IH]; intros stderr chroot sizelimit p H;
    rewrite get_command_output_unfold in H;
    unfold bind at 1, gets at 1, id in H;
    (destruct (_timeout_hit p) eqn:Hp; [left; injection H as <- <-; auto | right]);
    (split; [reflexivity |]);
    unfold bind at 1, modify at 1 in H; unfold bind at 1 in H;
    unfold _log_warn, _log_debug, log, modify, lift, ret, raise in H;
    (destruct (if status _ =? 124 then _ else _) as [[] q1 | e q1 |] eqn:Hwarn in H;
     try discriminate);
    (assert (exists evs, q1 = after_events evs p) as [evs1 ->]
      by (split_run Hwarn; try discriminate; injection Hwarn as <-;
          rewrite ?after_events_app; eauto));
    clear Hwarn;
    (destruct ((status _ =? 126) || (status _ =? 127)) in H;
     [ destruct (optstr_truthy _ && _ && _) in H;
       [ unfold bind at 1 in H; destruct (PyStr.first_word prog); [| discriminate];
         unfold bind at 1, _log_info, log, modify in H
       | unfold bind in H; injection H as <- <-; rewrite ?after_events_app; eauto 10 ]
     | injection H as <- <-; eauto 10 ]).
  - discriminate.
  - apply IH in H as [(Hq & _) | (_ & evs & tr & req & -> & -> & Hreq)].
    + change (_timeout_hit p = true) in Hq. congruence.
    + rewrite !after_events_app. eauto 10.
Qed.

(** With a budget of one retry, a command with a first word and a numeric
    timeout always comes back with a result. *)
Lemma get_command_output_returns (fuel : nat) (w : World) (prog : string) (t : Z)
  (stderr chroot : bool) (runat : option string) (env : option (list (string * string)))
  (binary : bool) (sizelimit : option Z) (p : Plugin) (word : string) :
  _timeout_hit p = false ->
  PyStr.first_word prog = Some word ->
  exists r evs,
    get_command_output (S fuel) w prog (Some t) stderr chroot runat env binary sizelimit p
      = Returned (Some r) (after_events evs p).
Proof.
  intros Hp Hword.
  remember (get_command_output (S fuel) w prog (Some t) stderr chroot runat env binary
                               sizelimit p) as run eqn:Hrun.
  rewrite get_command_output_unfold in Hrun.
  unfold bind at 1, gets at 1, id in Hrun. rewrite Hp, Hword in Hrun.
  unfold bind at 1, modify at 1 in Hrun. unfold bind at 1 in Hrun.
  unfold _log_warn, _log_debug, log, modify, lift, ret in Hrun.
  destruct (status _ =? 124) in Hrun;
    (destruct ((status _ =? 126) || (status _ =? 127)) in Hrun;
     [ destruct (optstr_truthy _ && _ && _) eqn:Hretry in Hrun;
       [ unfold bind at 1 in Hrun; unfold bind at 1, _log_info, log, modify in Hrun;
         rewrite ?after_events_app in Hrun;
         apply andb_true_iff in Hretry as [_ Hopt];
         apply negb_true_iff, String.eqb_neq in Hopt;
         match type of Hrun with
         | _ = get_command_output _ _ _ _ _ _ _ _ _ _ ?q =>
             destruct (unchrooted_run fuel w prog (Some t) true runat env binary None q
                         Hp Hopt) as (logs & _ & [Hr | (_ & [=] & _)])
         end;
         rewrite Hr, after_events_app in Hrun; eauto
       | unfold bind in Hrun; rewrite ?after_events_app in Hrun; eauto ]
     | rewrite ?after_events_app in Hrun; eauto ]).
Qed.

Lemma make_command_filename_returned (fuel : nat) (w : World) (exe : string)
  (subdir : option string) (p : Plugin) (outfn : string) (q : Plugin) :
  _make_command_filename fuel w exe subdir p = Returned outfn q -> q = p.
Proof.
  unfold _make_command_filename, bind, gets, id, ret, diverge.
  destruct (os_path_exists _ _ _); [destruct (next_free_name _ _ _ _) |];
    intros [=]; auto.
Qed.

Lemma get_cmd_output_now_returned (fuel : nat) (w : World) (c : SoSCommand)
  (p : Plugin) (r : option string) (p' : Plugin) :
  _get_cmd_output_now fuel w c p = Returned r p' ->
  (_timeout_hit p = true /\ r = None /\ p' = p) \/
  (_timeout_hit p = false /\
   exists outfn tr req,
     x_command req = cmd c /\
     r = Some (OsPath.join (archive_get_archive_path w) outfn) /\
     executed_commands p' =
       executed_commands p ++
       [mk_executed (cmd c) (Some (PyStr.drop (String.length (cmddir p) + 1) outfn))
                    (if binary c then "yes" else "no")] /\
     archive p' =
       archive p ++ archived_output c (output (sos_get_command_output w tr req)) outfn).
Proof.
  intros H. unfold _get_cmd_output_now in H. unfold bind at 1, gets at 1, id in H.
  destruct (_timeout_hit p) eqn:Hp; [left; injection H as <- <-; auto | right].
  split; [reflexivity |].
  unfold bind at 1 in H.
  destruct (get_command_output _ _ _ _ _ _ _ _ _ _ p) as [res q | e q |] eqn:Hrun;
    try discriminate.
  apply get_command_output_returned in Hrun
    as [(Hq & _) | (_ & evs & tr & req & -> & -> & Hreq)]; [congruence |].
  unfold bind at 1 in H. destruct (PyStr.first_word (cmd c)); [| discriminate].
  unfold lift, ret at 1 in H. unfold bind at 1, _log_debug, log, modify in H.
  unfold bind at 1 in H.
  destruct (_make_command_filename _ _ _ _ _) as [outfn q | e q |] eqn:Hfn in H;
    try discriminate.
  apply make_command_filename_returned in Hfn as ->.
  unfold bind at 1, ret at 1 in H.
  exists outfn, tr, req. split; [exact Hreq |].
  unfold archive_call, modify, bind, ret in H. unfold archived_output.
  destruct (binary c), (optstr_truthy (root_symlink c));
    injection H as <- <-; cbn; rewrite <- ?app_assoc; auto.
Qed.

Lemma get_cmd_output_now_returns (fuel : nat) (w : World) (c : SoSCommand) (p : Plugin)
  (word : string) (t : Z) :
  _timeout_hit p = false ->
  PyStr.first_word (cmd c) = Some word ->
  timeout c = Some t ->
  (let outfn := command_filename_base w p (filename_source c) (subdir c) in
   os_path_exists w (archive p) outfn = false \/
   next_free_name (S fuel) (os_path_exists w (archive p)) outfn 2 <> None) ->
  exists r p', _get_cmd_output_now (S fuel) w c p = Returned r p'.
Proof.
  intros Hp Hword Ht Hfree.
  unfold _get_cmd_output_now. unfold bind at 1, gets at 1, id. rewrite Hp, Ht.
  unfold bind at 1.
  destruct (get_command_output_returns fuel w (cmd c) t (stderr c) (chroot c) (runat c)
              (env c) (binary c) (sizelimit c) p word Hp Hword) as (res & evs & ->).
  rewrite Hword. unfold bind at 1, lift, ret at 1.
  unfold bind at 1, _log_debug, log, modify. rewrite after_events_app.
  unfold bind at 1.
  assert (exists outfn q,
             _make_command_filename (S fuel) w (filename_source c) (subdir c)
               (after_events (evs ++ [Log DEBUG "collected output of '%s' in %s"
                                          [A_str word; A_elapsed]]) p)
             = Returned outfn q) as (outfn & q & ->).
  { unfold _make_command_filename, bind, gets, id.
    change (archive (after_events _ p)) with (archive p).
    change (command_filename_base w (after_events _ p) (filename_source c) (subdir c))
      with (command_filename_base w p (filename_source c) (subdir c)).
    cbv zeta in Hfree. destruct Hfree as [-> | Hfree]; [unfold ret; eauto |].
    destruct (os_path_exists _ _ _); [| unfold ret; eauto].
    destruct (next_free_name _ _ _ _); [unfold ret; eauto | contradiction]. }
  unfold bind, ret, archive_call, modify.
  destruct (binary c), (optstr_truthy (root_symlink c)); eauto.
Qed.

(** C7, as the code has it.  A call to [_get_cmd_output_now] that returns
    was either skipped by the timeout flag, and then it changed nothing and
    appended no record, or it appended exactly one record to
    [executed_commands]; that record's file field is never null, and the
    output of the command (empty when the command was not found) was added
    to the archive under that name.  A command with a first word and a
    numeric timeout whose output name is free, or frees up within the
    budget, does return. *)
Theorem every_run_command_is_recorded_with_file :
  (forall fuel w c p r p',
     _get_cmd_output_now fuel w c p = Returned r p' ->
     (_timeout_hit p = true /\ r = None /\ p' = p) \/
     (_timeout_hit p = false /\
      exists outfn tr req,
        x_command req = cmd c /\
        r = Some (OsPath.join (archive_get_archive_path w) outfn) /\
        executed_commands p' =
          executed_commands p ++
          [mk_executed (cmd c) (Some (PyStr.drop (String.length (cmddir p) + 1) outfn))
                       (if binary c then "yes" else "no")] /\
        archive p' =
          archive p ++ archived_output c (output (sos_get_command_output w tr req)) outfn)) /\
  (forall fuel w c p word t,
     _timeout_hit p = false ->
     PyStr.first_word (cmd c) = Some word ->
     timeout c = Some t ->
     (let outfn := command_filename_base w p (filename_source c) (subdir c) in
      os_path_exists w (archive p) outfn = false \/
      next_free_name (S fuel) (os_path_exists w (archive p)) outfn 2 <> None) ->
     exists r p', _get_cmd_output_now (S fuel) w c p = Returned r p').
Proof.
  split.
  - intros fuel w c p r p'. apply get_cmd_output_now_returned.
  - intros fuel w c p word t. apply get_cmd_output_now_returns.
Qed.

(** A witness for C7: a command the host does not have is run, returns, and
    is recorded. *)
Lemma every_run_command_is_recorded_with_file_witness :
  exists r p',
    _get_cmd_output_now 1 Examples.bare_world Examples.missing_command Examples.demo_plugin
      = Returned r p'.
Proof.
  apply (proj2 every_run_command_is_recorded_with_file 0%nat Examples.bare_world
           Examples.missing_command Examples.demo_plugin "nosuchcmd" 300);
    try reflexivity.
  left. reflexivity.
Defined.

(** The counterexample to C7 as stated: the command is not found (status
    127), yet its record carries a file name, not null, and the empty output
    was archived under it. *)
Lemma command_not_found_still_has_file :
  exists r p' rec,
    _get_cmd_output_now 1 Examples.bare_world Examples.missing_command Examples.demo_plugin
      = Returned r p' /\
    status (sos_get_command_output Examples.bare_world []
              (mk_req "nosuchcmd --version" (Some 300) true (Some "/") None None false None))
      = 127 /\
    executed_commands p' = [rec] /\
    file rec = Some "demo/nosuchcmd_--version" /\
    file rec <> None /\
    archive p' = [add_string (Text "") "sos_commands/demo/nosuchcmd_--version"].
Proof.
  eexists _, _, _. split; [vm_compute; reflexivity |].
  repeat split; discriminate.
Qed.

(** ** The size budget of the copy-spec resolver *)

Lemma calls_to_app (fn : string) (a b : list event) :
  calls_to fn (a ++ b) = calls_to fn a ++ calls_to fn b.
Proof. unfold calls_to. apply omap_app. Qed.

Lemma is_forbidden_total (p : Plugin) (f : string) :
  f <> "" -> exists b, _is_forbidden_path p f = inr b.
Proof.
  intros Hf. unfold _is_forbidden_path, sysroot_joined, join_sysroot.
  destruct (use_sysroot p); [| eauto]. destruct f; [contradiction | eauto].
Qed.

Lemma running_total_cons (w : World) (p : Plugin) (x : string) (l : list string) :
  running_total w p (x :: l) =
  (if is_kept p x then file_size w x else 0) + running_total w p l.
Proof.
  unfold running_total, kept. cbn [List.filter]. destruct (is_kept p x); reflexivity.
Qed.

(** The loop stops at the first file that takes the running total over the
    limit: the files before it are queued, it is the one left in [_file],
    and the files after it are not touched. *)
Lemma scan_files_overflow (w : World) (L : Z) (pre : list string) (f : string)
  (post : list string) (cur : Z) (last : option string) (p : Plugin) :
  L <> 0 ->
  Forall (fun x => x <> "") pre ->
  _is_forbidden_path p f = inr false ->
  (forall k, cur + running_total w p (take k pre) <= L) ->
  cur + running_total w p pre + file_size w f > L ->
  exists p' evs,
    scan_files w (Some L) (pre ++ f :: post) cur last p = Returned (true, Some f) p' /\
    same_but_queue p p' /\
    copy_paths p' = copy_paths p ∪ list_to_set (kept p pre) /\
    trace p' = trace p ++ evs /\
    calls_to "os.stat" evs = kept p pre ++ [f].
Proof.
  intros HL Hne Hf. revert cur last p Hf.
  induction Hne as [|x pre Hx Hne IH]; intros cur last p Hf Hfit Hover.
  - cbn [app scan_files]. unfold bind at 1, gets at 1, id. rewrite Hf.
    unfold bind at 1, lift, ret at 1. unfold bind at 1, call, modify.
    unfold bind at 1. unfold file_size in Hover.
    specialize (Hfit 0%nat). cbn in Hfit, Hover.
    destruct (os_stat w f) as [errno | st]; [lia |].
    unfold ret at 1. cbn [num_truthy default from_option].
    replace (negb (L =? 0)) with true by (symmetry; now apply negb_true_iff, Z.eqb_neq).
    replace (cur + st_size st >? L) with true by (symmetry; apply Z.gtb_lt; lia).
    cbn [andb]. eexists _, [Call "os.stat" f]. split; [reflexivity |].
    split; [reflexivity |]. split; [cbn; now rewrite union_empty_r_L |].
    split; reflexivity.
  - cbn [app scan_files]. unfold bind at 1, gets at 1, id.
    destruct (is_forbidden_total p x Hx) as [b Hb]. rewrite Hb.
    unfold bind at 1, lift, ret at 1.
    assert (is_kept p x = negb b) as Hk by (unfold is_kept; rewrite Hb; now destruct b).
    destruct b.
    + unfold bind at 1, _log_debug, log, modify.
      destruct (IH cur (Some x) (after_events [Log DEBUG "skipping forbidden path '%s'"
                                                   [A_str x]] p) Hf)
        as (p' & evs & Hrun & Hsame & Hpaths & Htrace & Hcalls).
      { intros k. specialize (Hfit (S k)). cbn [take] in Hfit.
        rewrite running_total_cons, Hk in Hfit. exact Hfit. }
      { rewrite running_total_cons, Hk in Hover. exact Hover. }
      exists p', (Log DEBUG "skipping forbidden path '%s'" [A_str x] :: evs).
      split; [exact Hrun |]. split; [| split; [| split]].
      * unfold same_but_queue in *. rewrite Hsame at 1. reflexivity.
      * rewrite Hpaths. unfold kept. cbn [List.filter]. rewrite Hk. reflexivity.
      * rewrite Htrace. cbn. now rewrite <- app_assoc.
      * unfold kept in *. cbn [List.filter]. rewrite Hk. exact Hcalls.
    + unfold bind at 1, call, modify. unfold bind at 1.
      pose proof (Hfit 1%nat) as Hfit1. cbn [take] in Hfit1.
      rewrite running_total_cons, Hk, take_0 in Hfit1.
      change (cur + (file_size w x + 0) <= L) in Hfit1.
      set (evs0 := match os_stat w x with
                   | inr _ => [Call "os.stat" x]
                   | inl _ => [Call "os.stat" x; Log INFO "failed to stat '%s'" [A_str x]]
                   end).
      assert (Forall2 (fun _ _ => True) evs0 evs0 /\ calls_to "os.stat" evs0 = [x])
        as [_ Hcalls0] by (split; [apply Forall2_same_length; reflexivity |];
                           unfold evs0; now destruct (os_stat w x)).
      assert (exists q,
                 (match os_stat w x with
                  | inr st => ret (cur + st_size st)
                  | inl _ => _log_info "failed to stat '%s'" [A_str x] ;;; ret cur
                  end) (after_events [Call "os.stat" x] p)
                 = Returned (cur + file_size w x) q /\ q = after_events evs0 p)
        as (q & -> & ->).
      { unfold file_size, evs0. destruct (os_stat w x).
        - eexists. split; [unfold bind, _log_info, log, modify, ret;
                           rewrite Z.add_0_r; reflexivity |].
          now rewrite after_events_app.
        - eexists. split; reflexivity. }
      cbn [num_truthy default from_option].
      replace (cur + file_size w x >? L) with false
        by (symmetry; rewrite Z.gtb_ltb; apply Z.ltb_ge; lia).
      rewrite andb_false_r. unfold bind at 1, _add_copy_paths, modify.
      destruct (IH (cur + file_size w x) (Some x)
                   (with_copy_paths (fun s => s ∪ list_to_set [x]) (after_events evs0 p)) Hf)
        as (p' & evs & Hrun & Hsame & Hpaths & Htrace & Hcalls).
      { intros k. specialize (Hfit (S k)). cbn [take] in Hfit.
        rewrite running_total_cons, Hk in Hfit. cbn [negb] in Hfit.
        change (cur + file_size w x + running_total w p (take k pre) <= L). lia. }
      { rewrite running_total_cons, Hk in Hover. cbn [negb] in Hover.
        change (cur + file_size w x + running_total w p pre + file_size w f > L). lia. }
      exists p', (evs0 ++ evs). split; [exact Hrun |]. split; [| split; [| split]].
      * unfold same_but_queue in *. rewrite Hsame at 1. reflexivity.
      * rewrite Hpaths. unfold kept. cbn [List.filter]. rewrite Hk. cbn [negb].
        change (copy_paths p ∪ list_to_set [x] ∪ list_to_set (List.filter (is_kept p) pre)
                = copy_paths p ∪ list_to_set (x :: List.filter (is_kept p) pre)).
        cbn [list_to_set foldr]. now rewrite union_empty_r_L, <- (assoc_L (∪)).
      * rewrite Htrace. cbn. now rewrite <- app_assoc.
      * rewrite calls_to_app, Hcalls0, Hcalls. unfold kept. cbn [List.filter].
        rewrite Hk. reflexivity.
Qed.

Lemma insert_by_mtime_perm (key : string -> Z) (x : string) (l : list string) :
  insert_by_mtime key x l ≡ₚ x :: l.
Proof.
  induction l as [|y l IH]; cbn [insert_by_mtime]; [reflexivity |].
  destruct (key y <=? key x); [reflexivity |].
  rewrite IH. apply Permutation_swap.
Qed.

Lemma sort_newest_first_perm (key : string -> Z) (files : list string) :
  sort_newest_first key files ≡ₚ files.
Proof.
  induction files as [|x l IH]; [reflexivity |].
  cbn [sort_newest_first foldr]. rewrite insert_by_mtime_perm.
  now apply Permutation_skip.
Qed.

Lemma insert_by_mtime_sorted (key : string -> Z) (x : string) (l : list string) :
  Sorted (fun a b => key b <= key a) l ->
  Sorted (fun a b => key b <= key a) (insert_by_mtime key x l).
Proof.
  induction 1 as [|y l Hs IH Hhd]; cbn [insert_by_mtime].
  - repeat constructor.
  - destruct (key y <=? key x) eqn:E.
    + apply Z.leb_le in E. repeat constructor; assumption.
    + apply Z.leb_gt in E. constructor; [exact IH |].
      destruct Hhd as [|z l Hz]; cbn [insert_by_mtime].
      * constructor. lia.
      * destruct (key z <=? key x); constructor; [lia | exact Hz].
Qed.

Lemma sort_newest_first_sorted (w : World) (files : list string) :
  newest_first w (sort_newest_first (getmtime w) files).
Proof.
  unfold newest_first. induction files as [|x l IH]; [constructor |].
  cbn [sort_newest_first foldr]. now apply insert_by_mtime_sorted.
Qed.

Lemma for_each_calls (fn : string) (l : list string) (p : Plugin) :
  for_each l (fun f => call fn f) p = Returned tt (after_events (map (Call fn) l) p).
Proof.
  revert p. induction l as [|x l IH]; intros p; cbn [for_each map].
  - unfold ret. now rewrite after_events_nil.
  - unfold bind, call at 1, modify. rewrite IH. now rewrite after_events_app.
Qed.

Lemma calls_to_other (fn g : string) (l : list string) :
  String.eqb g fn = false -> calls_to fn (map (Call g) l) = [].
Proof.
  intros H. induction l as [|x l IH]; [reflexivity |].
  cbn [map]. unfold calls_to in *. simpl. rewrite H. exact IH.
Qed.

Lemma calls_to_logs (fn : string) (logs : list event) :
  Forall is_Log logs -> calls_to fn logs = [].
Proof.
  induction 1 as [|e logs He _ IH]; [reflexivity |].
  destruct e; try contradiction. exact IH.
Qed.

(** The tail fallback for a file that [os.stat] finds: the last bytes of the
    file, up to the whole size limit, are queued as a string (when the
    plugin's predicate allows) and the link is added. *)
Lemma tail_fallback_runs (w : World) (L : Z) (f : string) (st : stat_result) (q : Plugin) :
  f <> "" ->
  os_stat w f = inr st ->
  exists q' target logs,
    tail_fallback w (Some L) f q = Returned tt q' /\
    archive q' = archive q ++ [add_link target f] /\
    copy_strings q' =
      copy_strings q ++
      (if test_predicate w q false None
       then [(Tail f (Z.min (st_size st) L), tailed_name (PyStr.lstrip [OsPath.sep] f))]
       else []) /\
    copy_paths q' = copy_paths q /\
    copied_files q' = copied_files q /\
    trace q' = trace q ++ Call "tail" f :: logs /\
    Forall is_Log logs.
Proof.
  intros Hf Hst. unfold tail_fallback. unfold bind at 1, gets at 1, id.
  destruct f as [|c f']; [contradiction |].
  assert ((if Ascii.eqb c OsPath.sep
           then PyStr.lstrip [OsPath.sep] (String c f') else String c f')
          = PyStr.lstrip [OsPath.sep] (String c f')) as ->.
  { cbn [PyStr.lstrip existsb]. rewrite orb_false_r. now destruct (Ascii.eqb c OsPath.sep). }
  unfold bind at 1, ret at 1. unfold bind at 1, call, modify.
  unfold bind at 1, tail. rewrite Hst. unfold lift, ret at 1.
  cbn [default from_option].
  unfold bind at 1, add_string_as_file. unfold bind at 1, gets at 1, id.
  change (test_predicate w (after_events _ q) false None) with (test_predicate w q false None).
  destruct (test_predicate w q false None); cbn [negb];
    unfold bind, _log_info, _log_debug, log, modify, archive_call.
  - eexists _, _, [_]. split; [reflexivity |].
    split; [reflexivity |]. split; [reflexivity |]. split; [reflexivity |].
    split; [reflexivity |]. split; [cbn; now rewrite <- app_assoc | repeat constructor].
  - eexists _, _, [_]. split; [reflexivity |].
    split; [reflexivity |]. split; [cbn; now rewrite app_nil_r |]. split; [reflexivity |].
    split; [reflexivity |]. split; [cbn; now rewrite <- app_assoc | repeat constructor].
Qed.

Lemma same_but_queue_fields (w : World) (p p' : Plugin) :
  same_but_queue p p' ->
  archive p' = archive p /\
  copy_strings p' = copy_strings p /\
  copied_files p' = copied_files p /\
  test_predicate w p' false None = test_predicate w p false None.
Proof.
  intros H. unfold same_but_queue in H.
  repeat split; rewrite H; reflexivity.
Qed.

(** One glob through [add_copy_spec] when the running total first passes
    the limit at the file [f]. *)
Lemma add_copy_spec_overflow (w : World) (p : Plugin) (spec joined : string)
  (sizelimit : option Z) (tailit : bool) (pred : option SoSPredicate) (L : Z)
  (pre : list string) (f : string) (post : list string) :
  test_predicate w p false pred = true ->
  effective_sizelimit p sizelimit = Some L ->
  L <> 0 ->
  spec <> "" ->
  sysroot_joined p spec = inr joined ->
  sort_newest_first (getmtime w) (glob_glob w joined) = pre ++ f :: post ->
  Forall (fun x => x <> "") (pre ++ [f]) ->
  _is_forbidden_path p f = inr false ->
  (forall k, running_total w p (take k pre) <= L) ->
  running_total w p pre + file_size w f > L ->
  exists p' evs,
    add_copy_spec w (Spec spec) sizelimit tailit pred p = Returned None p' /\
    copy_paths p' = copy_paths p ∪ list_to_set (kept p pre) /\
    trace p' = trace p ++ evs /\
    calls_to "os.stat" evs = kept p pre ++ [f] /\
    copied_files p' = copied_files p /\
    if tailit && negb (_file_is_compressed f)
    then (exists target, archive p' = archive p ++ [add_link target f]) /\
         copy_strings p' =
           copy_strings p ++
           (if test_predicate w p false None
            then [(Tail f (Z.min (file_size w f) L),
                   tailed_name (PyStr.lstrip [OsPath.sep] f))]
            else [])
    else archive p' = archive p /\ copy_strings p' = copy_strings p.
Proof.
  intros Hpred HL HL0 Hspec Hj Hsort Hne Hf Hfit Hover.
  apply Forall_app in Hne as [Hne Hfne]. apply Forall_inv in Hfne.
  assert (exists st, os_stat w f = inr st) as [st Hst].
  { unfold file_size in Hover. destruct (os_stat w f) as [e | st]; [| eauto].
    specialize (Hfit (length pre)). rewrite firstn_all in Hfit. lia. }
  assert (file_size w f = st_size st) as Hsize by (unfold file_size; now rewrite Hst).
  unfold add_copy_spec. unfold bind at 1, gets at 1, id. rewrite Hpred, HL.
  cbn [negb copyspecs_truthy copyspecs_list copyspec_loop].
  destruct spec as [|c spec']; [contradiction |]. cbn [PyStr.truthy negb].
  unfold bind at 1, add_one_copyspec. unfold bind at 1, gets at 1, id. rewrite Hj.
  unfold bind at 1, lift, ret at 1. unfold bind at 1, call at 1, modify.
  assert ((List.length (glob_glob w joined) =? 0)%nat = false) as ->.
  { destruct (glob_glob w joined); [now destruct pre | reflexivity]. }
  unfold bind at 1. rewrite for_each_calls, after_events_app.
  rewrite Hsort. unfold bind at 1.
  set (q0 := after_events ([Call "glob.glob" joined] ++
                           map (Call "os.path.getmtime") (glob_glob w joined)) p).
  destruct (scan_files_overflow w L pre f post 0 None q0 HL0 Hne Hf)
    as (p2 & evs & -> & Hsame & Hpaths & Htrace & Hcalls).
  { intros k. change (0 + running_total w p (take k pre) <= L). specialize (Hfit k). lia. }
  { change (0 + running_total w p pre + file_size w f > L). lia. }
  change (kept q0 pre) with (kept p pre) in Hpaths, Hcalls.
  change (copy_paths q0) with (copy_paths p) in Hpaths.
  destruct (same_but_queue_fields w q0 p2 Hsame) as (Harch & Hstr & Hcop & Htest).
  change (archive q0) with (archive p) in Harch.
  change (copy_strings q0) with (copy_strings p) in Hstr.
  change (copied_files q0) with (copied_files p) in Hcop.
  change (test_predicate w q0 false None) with (test_predicate w p false None) in Htest.
  destruct (tailit && negb (_file_is_compressed f)).
  - destruct (tail_fallback_runs w L f st p2 Hfne Hst)
      as (q' & target & logs & -> & Harch' & Hstr' & Hpaths' & Hcop' & Htrace' & Hlogs).
    unfold bind, ret. eexists q', _. split; [reflexivity |].
    split; [congruence |]. split; [| split; [| split]].
    + rewrite Htrace', Htrace. change (trace q0) with (trace p ++ ([Call "glob.glob" joined] ++
             map (Call "os.path.getmtime") (glob_glob w joined))).
      rewrite <- !app_assoc. reflexivity.
    + rewrite !calls_to_app, (calls_to_other "os.stat" "os.path.getmtime") by reflexivity.
      rewrite Hcalls.
      change (calls_to "os.stat" (Call "tail" f :: logs)) with (calls_to "os.stat" logs).
      rewrite (calls_to_logs _ _ Hlogs). cbn. now rewrite app_nil_r.
    + congruence.
    + split; [exists target; congruence |]. rewrite Hstr', Hstr, Htest, Hsize. reflexivity.
  - unfold bind, ret. eexists p2, _. split; [reflexivity |].
    split; [exact Hpaths |]. split; [| split; [| split]].
    + rewrite Htrace. change (trace q0) with (trace p ++ ([Call "glob.glob" joined] ++
             map (Call "os.path.getmtime") (glob_glob w joined))).
      rewrite <- !app_assoc. reflexivity.
    + rewrite !calls_to_app, (calls_to_other "os.stat" "os.path.getmtime") by reflexivity.
      rewrite Hcalls. reflexivity.
    + exact Hcop.
    + split; assumption.
Qed.

(** C3.  [add_copy_spec] sorts the files of a glob newest first (a stable
    sort: a permutation, largest modification time first) and walks them in
    that order, adding sizes.  When the running total first passes the limit
    at a file [f], the files before [f] that are not forbidden are exactly
    what was added to [copy_paths], [os.stat] was called on them and on [f]
    in that order and on no later file, and [f] is the file the tail
    fallback links (with [tailit], for a file that is not compressed) or
    that is dropped. *)
Theorem size_budget_stops_at_overflow :
  (forall w files,
     newest_first w (sort_newest_first (getmtime w) files) /\
     sort_newest_first (getmtime w) files ≡ₚ files) /\
  (forall w p spec joined sizelimit tailit pred L pre f post,
     test_predicate w p false pred = true ->
     effective_sizelimit p sizelimit = Some L ->
     L <> 0 ->
     spec <> "" ->
     sysroot_joined p spec = inr joined ->
     sort_newest_first (getmtime w) (glob_glob w joined) = pre ++ f :: post ->
     Forall (fun x => x <> "") (pre ++ [f]) ->
     _is_forbidden_path p f = inr false ->
     (forall k, running_total w p (take k pre) <= L) ->
     running_total w p pre + file_size w f > L ->
     exists p' evs,
       add_copy_spec w (Spec spec) sizelimit tailit pred p = Returned None p' /\
       copy_paths p' = copy_paths p ∪ list_to_set (kept p pre) /\
       trace p' = trace p ++ evs /\
       calls_to "os.stat" evs = kept p pre ++ [f] /\
       copied_files p' = copied_files p /\
       if tailit && negb (_file_is_compressed f)
       then exists target, archive p' = archive p ++ [add_link target f]
       else archive p' = archive p /\ copy_strings p' = copy_strings p).
Proof.
  split.
  { intros w files. split; [apply sort_newest_first_sorted | apply sort_newest_first_perm]. }
  intros w p spec joined sizelimit tailit pred L pre f post
         Hpred HL HL0 Hspec Hj Hsort Hne Hf Hfit Hover.
  destruct (add_copy_spec_overflow w p spec joined sizelimit tailit pred L pre f post
              Hpred HL HL0 Hspec Hj Hsort Hne Hf Hfit Hover)
    as (p' & evs & Hrun & Hpaths & Htrace & Hcalls & Hcop & Htail).
  exists p', evs. repeat (split; [assumption |]).
  destruct (tailit && negb (_file_is_compressed f)); [exact (proj1 Htail) | exact Htail].
Qed.

(** A witness for C3, the example of the claim: three logs of 10MB, a 15MB
    limit.  The newest is queued, the second is linked to its tail, the
    third is never passed to [os.stat]. *)
Lemma size_budget_stops_at_overflow_witness :
  exists p' evs,
    add_copy_spec Examples.logs_world (Spec "/var/log/app.log*") (Some 15) true None
                  Examples.logs_plugin = Returned None p' /\
    copy_paths p' = ∅ ∪ list_to_set ["/var/log/app.log"] /\
    trace p' = [] ++ evs /\
    calls_to "os.stat" evs = ["/var/log/app.log"; "/var/log/app.log.1"] /\
    copied_files p' = [] /\
    exists target, archive p' = [] ++ [add_link target "/var/log/app.log.1"].
Proof.
  apply (proj2 size_budget_stops_at_overflow Examples.logs_world Examples.logs_plugin
           "/var/log/app.log*" "/var/log/app.log*" (Some 15) true None (15 * Examples.MB)
           ["/var/log/app.log"] "/var/log/app.log.1" ["/var/log/app.log.2"]);
    try reflexivity; try discriminate.
  - repeat constructor; discriminate.
  - intros [|[|k]]; vm_compute; discriminate.
Defined.


(** C4, where the code departs from it.  The tail artifact holds the last
    bytes of the file up to the whole size limit, not up to what is left of
    the limit after the files already queued: whenever earlier files of the
    glob have used part of the limit, the artifact is larger than the
    remaining budget.  In the example of three 10MB logs and a 15MB limit,
    5MB remain after the newest log, yet all 10MB of the second log are
    queued as its tail. *)
Theorem tail_ignores_bytes_already_queued :
  (forall w p spec joined sizelimit pred L pre f post,
     test_predicate w p false pred = true ->
     test_predicate w p false None = true ->
     effective_sizelimit p sizelimit = Some L ->
     L <> 0 ->
     spec <> "" ->
     sysroot_joined p spec = inr joined ->
     sort_newest_first (getmtime w) (glob_glob w joined) = pre ++ f :: post ->
     Forall (fun x => x <> "") (pre ++ [f]) ->
     _is_forbidden_path p f = inr false ->
     _file_is_compressed f = false ->
     (forall k, running_total w p (take k pre) <= L) ->
     running_total w p pre + file_size w f > L ->
     0 < running_total w p pre ->
     exists p' nbytes,
       add_copy_spec w (Spec spec) sizelimit true pred p = Returned None p' /\
       copy_strings p' =
         copy_strings p ++ [(Tail f nbytes, tailed_name (PyStr.lstrip [OsPath.sep] f))] /\
       nbytes = Z.min (file_size w f) L /\
       nbytes > L - running_total w p pre) /\
  (exists p',
     add_copy_spec Examples.logs_world (Spec "/var/log/app.log*") (Some 15) true None
                   Examples.logs_plugin = Returned None p' /\
     copy_paths p' = {[ "/var/log/app.log" ]} /\
     copy_strings p' =
       [(Tail "/var/log/app.log.1" (10 * Examples.MB), "var.log.app.log.1.tailed")] /\
     15 * Examples.MB - file_size Examples.logs_world "/var/log/app.log" = 5 * Examples.MB).
Proof.
  split.
  - intros w p spec joined sizelimit pred L pre f post
           Hpred Hdefault HL HL0 Hspec Hj Hsort Hne Hf Hz Hfit Hover Hused.
    destruct (add_copy_spec_overflow w p spec joined sizelimit true pred L pre f post
                Hpred HL HL0 Hspec Hj Hsort Hne Hf Hfit Hover)
      as (p' & evs & Hrun & _ & _ & _ & _ & Htail).
    rewrite Hz, Hdefault in Htail. cbn [andb negb] in Htail.
    exists p', (Z.min (file_size w f) L). repeat split; [exact Hrun | apply Htail | lia].
  - eexists. split; [vm_compute; reflexivity |]. repeat split.
Qed.

(** ** An empty copy spec ends the list *)

Lemma copyspec_loop_stops_at_empty (w : World) (sizelimit : option Z) (tailit : bool)
  (pre post : list string) (p : Plugin) :
  Forall (fun s => s <> "") pre ->
  copyspec_loop w sizelimit tailit (pre ++ "" :: post) p =
  match copyspec_loop w sizelimit tailit pre p with
  | Returned _ p' => Returned (Some false) p'
  | other => other
  end.
Proof.
  intros Hpre. revert p. induction Hpre as [|s pre Hs _ IH]; intros p; [reflexivity |].
  cbn [app copyspec_loop]. destruct s; [contradiction |]. cbn [PyStr.truthy negb].
  unfold bind. destruct (add_one_copyspec _ _ _ _ p); [apply IH | reflexivity..].
Qed.

(** C10.  In a call that a predicate in force lets through to the copy
    specs, a list whose first empty element is at some position gives
    [False] there:
    the call ends in the state a call with only the elements before it ends
    in, whatever follows the empty element.  An empty list and an empty
    string give [False] with nothing done. *)
Theorem empty_copyspec_ends_the_call (w : World) (p : Plugin) (pre post : list string)
  (sizelimit : option Z) (tailit : bool) (pred : option SoSPredicate) :
  test_predicate w p false pred = true ->
  Forall (fun s => s <> "") pre ->
  add_copy_spec w (Specs (pre ++ "" :: post)) sizelimit tailit pred p =
    match add_copy_spec w (Specs pre) sizelimit tailit pred p with
    | Returned _ p' => Returned (Some false) p'
    | other => other
    end /\
  add_copy_spec w (Specs []) sizelimit tailit pred p = Returned (Some false) p /\
  add_copy_spec w (Spec "") sizelimit tailit pred p = Returned (Some false) p.
Proof.
  intros Hpred Hpre. unfold add_copy_spec, bind, gets, id. rewrite Hpred.
  cbn [negb copyspecs_truthy copyspecs_list list_truthy PyStr.truthy]. unfold ret.
  split; [| split; reflexivity].
  destruct pre as [|s pre]; [reflexivity |]. cbn [app list_truthy negb].
  exact (copyspec_loop_stops_at_empty w _ tailit (s :: pre) post p Hpre).
Qed.

(** A witness for C10: the glob before the empty element is resolved, the
    one after it is not. *)
Lemma empty_copyspec_ends_the_call_witness :
  add_copy_spec Examples.etc_world (Specs (["/etc/*"] ++ "" :: ["/var/log/app.log*"]))
                None true None Examples.etc_plugin =
    match add_copy_spec Examples.etc_world (Specs ["/etc/*"]) None true None
                        Examples.etc_plugin with
    | Returned _ p' => Returned (Some false) p'
    | other => other
    end /\
  add_copy_spec Examples.etc_world (Specs []) None true None Examples.etc_plugin
    = Returned (Some false) Examples.etc_plugin /\
  add_copy_spec Examples.etc_world (Spec "") None true None Examples.etc_plugin
    = Returned (Some false) Examples.etc_plugin.
Proof.
  apply (empty_copyspec_ends_the_call Examples.etc_world Examples.etc_plugin
           ["/etc/*"] ["/var/log/app.log*"] None true None).
  - reflexivity.
  - repeat constructor. discriminate.
Defined.

(** The predicate test fails exactly when no predicate is in force. *)
Lemma test_predicate_false (w : World) (p : Plugin) (cmd : bool)
  (pred : option SoSPredicate) :
  test_predicate w p cmd pred = false <-> get_predicate p cmd pred = None.
Proof.
  unfold test_predicate, bool_of_predicate.
  destruct (get_predicate p cmd pred); split; congruence.
Qed.

(** The predicate test in front of the copy specs.  When it fails the call
    logs that it is skipped and returns [None]: the copy specs are not
    looked at. *)
Lemma add_copy_spec_skipped (w : World) (p : Plugin) (copyspecs : copyspecs_arg)
  (sizelimit : option Z) (tailit : bool) (pred : option SoSPredicate) :
  test_predicate w p false pred = false ->
  exists line,
    add_copy_spec w copyspecs sizelimit tailit pred p
      = Returned None (after_events [line] p).
Proof.
  intros Hpred. unfold add_copy_spec, bind, gets, id. rewrite Hpred. cbn [negb].
  eexists. reflexivity.
Qed.

(** ** Substitution in command output returns the last count *)

(** C6, where the code departs from it.  With two collected commands
    matching [*ip*], two replacements are made in the output of the first
    and none in the second: the call returns 0, the count of the last
    matching entry, not the total 2.  When commands were collected but none
    matches the glob, the call returns [None], not 0. *)
Theorem cmd_output_sub_returns_last_count :
  (exists p',
     do_cmd_output_sub Examples.scrub_world "ip" "password=" "password=***"
                       Examples.scrub_plugin = Returned (Some 0) p' /\
     Examples.literal_subn "password=" "password=***"
                           (Text "password=hunter2 password=swordfish")
       = inr (Text "password=***hunter2 password=***swordfish", 2) /\
     archive_lookup (archive p') "sos_commands/net/ip_addr"
       = Some (Text "password=***hunter2 password=***swordfish")) /\
  (exists p',
     do_cmd_output_sub Examples.scrub_world "lsmod" "password=" "password=***"
                       Examples.scrub_plugin = Returned None p' /\
     archive p' = archive Examples.scrub_plugin).
Proof.
  split; eexists; (split; [vm_compute; reflexivity |]); repeat split.
Qed.

(** ** Registering forbidden paths *)

Lemma register_loop (w : World) (l : list string) (p : Plugin) :
  exists p',
    for_each l (register_forbidden w) p = Returned tt p' /\
    sysroot p' = sysroot p /\
    forbidden_paths p' = forbidden_paths p ++ concat (map (glob_glob w) l).
Proof.
  revert p. induction l as [|x l IH]; intros p; cbn [for_each map concat].
  - exists p. unfold ret. now rewrite app_nil_r.
  - unfold bind at 1.
    assert (exists q, register_forbidden w x p = Returned tt q /\ sysroot q = sysroot p /\
                      forbidden_paths q = forbidden_paths p ++ glob_glob w x)
      as (q & -> & Hsq & Hfq) by (eexists; repeat split).
    destruct (IH q) as (p' & -> & Hs & Hf).
    exists p'. split; [reflexivity |]. split; [congruence |].
    rewrite Hf, Hfq. now rewrite <- app_assoc.
Qed.

Lemma map_raising_total {A B} (f : A -> exn + B) (ok : A -> Prop) (l : list A) :
  (forall x, ok x -> exists y, f x = inr y) ->
  Forall ok l ->
  exists ys, map_raising f l = inr ys /\
             forall x y, x ∈ l -> f x = inr y -> y ∈ ys.
Proof.
  intros Hf. induction 1 as [|x l Hx _ (ys & Hys & Hin)]; cbn [map_raising].
  - exists []. split; [reflexivity |]. intros x y Hx. now apply elem_of_nil in Hx.
  - destruct (Hf x Hx) as [y0 Hy0]. rewrite Hy0, Hys.
    exists (y0 :: ys). split; [reflexivity |].
    intros z y Hz Hy. apply elem_of_cons in Hz as [-> | Hz].
    + rewrite Hy0 in Hy. injection Hy as <-. apply elem_of_cons. now left.
    + apply elem_of_cons. right. now apply (Hin z).
Qed.

(** X1.  What [add_forbidden_path] registers is then forbidden: every path the
    glob of a registered (sysroot-joined) pattern yields is in
    [forbidden_paths], so every path that contains it is skipped. *)
Theorem registered_paths_are_forbidden (w : World) (forbidden : list string) (p : Plugin) :
  Forall (fun F => F <> "") forbidden ->
  exists p',
    add_forbidden_path w forbidden p = Returned tt p' /\
    forall F joined g path pre post,
      F ∈ forbidden ->
      sysroot_joined p F = inr joined ->
      g ∈ glob_glob w joined ->
      sysroot_joined p path = inr (pre +:+ g +:+ post) ->
      _is_forbidden_path p' path = inr true.
Proof.
  intros Hne.
  unfold add_forbidden_path. unfold bind at 1, gets at 1, id.
  assert (exists l,
             (if use_sysroot p then lift (map_raising (join_sysroot p) forbidden)
              else ret forbidden) p = Returned l p /\
             forall F j, F ∈ forbidden -> sysroot_joined p F = inr j -> j ∈ l)
    as (l & Hl & Hinl).
  { unfold sysroot_joined. destruct (use_sysroot p).
    - destruct (map_raising_total (join_sysroot p) (fun F => F <> "") forbidden)
        as (js & Hjs & Hin); [| exact Hne | rewrite Hjs; eauto].
      intros F HF. destruct F; [contradiction | cbn; eauto].
    - exists forbidden. split; [reflexivity |]. intros F j HF [= <-]. exact HF. }
  unfold bind at 1. rewrite Hl.
  destruct (register_loop w l p) as (p' & -> & Hs & Hf).
  exists p'. split; [reflexivity |].
  intros F joined g path pre post HF Hj Hg Hpath.
  apply forbidden_paths_substring. exists (pre +:+ g +:+ post), g, pre, post.
  split; [| split; [| reflexivity]].
  - unfold sysroot_joined, use_sysroot, join_sysroot in *. now rewrite Hs.
  - rewrite Hf. apply elem_of_app. right. apply list_elem_of_In, in_concat.
    exists (glob_glob w joined). split; [| now apply list_elem_of_In].
    apply in_map, list_elem_of_In. now apply (Hinl F).
Qed.

(** On the example host, registering [/etc/shadow] makes [/etc/shadow] and
    [/etc/shadow-] forbidden. *)
Lemma registered_paths_are_forbidden_witness :
  exists p',
    add_forbidden_path Examples.shadow_world ["/etc/shadow"]
                       (Examples.new_plugin "etc" "/" Examples.null_predicate)
      = Returned tt p' /\
    _is_forbidden_path p' "/etc/shadow-" = inr true.
Proof.
  destruct (registered_paths_are_forbidden Examples.shadow_world ["/etc/shadow"]
              (Examples.new_plugin "etc" "/" Examples.null_predicate))
    as (p' & Hrun & Hforbidden).
  - repeat constructor. discriminate.
  - exists p'. split; [exact Hrun |].
    apply (Hforbidden "/etc/shadow" "/etc/shadow" "/etc/shadow" "/etc/shadow-" "" "-");
      try reflexivity; repeat constructor.
Defined.

(** ** Strings *)

Lemma string_app_cons (c : ascii) (s t : string) : String c s +:+ t = String c (s +:+ t).
Proof. reflexivity. Qed.

Lemma rev_app_rev_app (s a b : string) :
  String.rev_app (String.rev_app s a) b = String.rev_app a (s +:+ b).
Proof.
  revert a b. induction s as [|c s IH]; intros a b; [reflexivity |].
  cbn [String.rev_app]. now rewrite IH.
Qed.

Lemma string_app_nil_r (s : string) : s +:+ "" = s.
Proof. induction s as [|c s IH]; [reflexivity |]. now rewrite string_app_cons, IH. Qed.

Lemma string_rev_involutive (s : string) : String.rev (String.rev s) = s.
Proof. unfold String.rev. rewrite rev_app_rev_app. exact (string_app_nil_r s). Qed.

Lemma rev_app_append (s t a : string) :
  String.rev_app (s +:+ t) a = String.rev_app t (String.rev_app s a).
Proof.
  revert a. induction s as [|c s IH]; intros a; [reflexivity |].
  rewrite string_app_cons. cbn [String.rev_app]. apply IH.
Qed.

Lemma rev_app_acc (s a : string) : String.rev_app s a = String.rev s +:+ a.
Proof.
  unfold String.rev. revert a. induction s as [|c s IH]; intros a; [reflexivity |].
  cbn [String.rev_app]. rewrite IH, (IH (String c "")).
  clear IH. induction (String.rev_app s "") as [|d r IHr]; [reflexivity |].
  rewrite !string_app_cons. now rewrite IHr.
Qed.

Lemma string_rev_append (s t : string) :
  String.rev (s +:+ t) = String.rev t +:+ String.rev s.
Proof. unfold String.rev at 1. rewrite rev_app_append. apply rev_app_acc. Qed.

Lemma str_all_append (f : ascii -> bool) (s t : string) :
  str_all f (s +:+ t) = str_all f s && str_all f t.
Proof.
  induction s as [|c s IH]; [reflexivity |].
  rewrite string_app_cons. cbn [str_all]. rewrite IH. apply andb_assoc.
Qed.

Lemma str_all_rev (f : ascii -> bool) (s : string) : str_all f (String.rev s) = str_all f s.
Proof.
  induction s as [|c s IH]; [reflexivity |].
  change (String.rev (String c s)) with (String.rev_app s (String c "")).
  rewrite rev_app_acc, str_all_append, IH. cbn. rewrite andb_true_r. apply andb_comm.
Qed.

(** [lstrip] and [lskip] drop a prefix. *)
Lemma lstrip_suffix (cs : list ascii) (s : string) :
  exists pre, s = pre +:+ PyStr.lstrip cs s.
Proof.
  induction s as [|c s [pre IH]]; [now exists "" |].
  cbn. destruct (existsb _ cs); [| now exists ""].
  exists (String c pre). now rewrite string_app_cons, <- IH.
Qed.

(** [rstrip] keeps a prefix. *)
Lemma rstrip_prefix (cs : list ascii) (s : string) :
  exists post, s = PyStr.rstrip cs s +:+ post.
Proof.
  unfold PyStr.rstrip. destruct (lstrip_suffix cs (String.rev s)) as [pre H].
  exists (String.rev pre). rewrite <- string_rev_append, <- H.
  symmetry. apply string_rev_involutive.
Qed.

Lemma str_all_lstrip (f : ascii -> bool) (cs : list ascii) (s : string) :
  str_all f s = true -> str_all f (PyStr.lstrip cs s) = true.
Proof.
  destruct (lstrip_suffix cs s) as [pre H]. intros Hs. rewrite H, str_all_append in Hs.
  now apply andb_true_iff in Hs.
Qed.

Lemma str_all_rstrip (f : ascii -> bool) (cs : list ascii) (s : string) :
  str_all f s = true -> str_all f (PyStr.rstrip cs s) = true.
Proof.
  destruct (rstrip_prefix cs s) as [post H]. intros Hs. rewrite H, str_all_append in Hs.
  now apply andb_true_iff in Hs.
Qed.

Lemma lstrip_head (cs : list ascii) (s : string) (c : ascii) (rest : string) :
  PyStr.lstrip cs s = String c rest -> existsb (Ascii.eqb c) cs = false.
Proof.
  induction s as [|d s IH]; [discriminate |].
  cbn. destruct (existsb (Ascii.eqb d) cs) eqn:Hd; [exact IH |].
  now intros [= <- <-].
Qed.

(** ** The file name of a command's output *)

Lemma str_all_join (f : ascii -> bool) (l : list string) :
  str_all f (PyStr.join l) = forallb (str_all f) l.
Proof.
  induction l as [|x l IH]; [reflexivity |].
  cbn [PyStr.join fold_right forallb]. fold (PyStr.join l). now rewrite str_all_append, IH.
Qed.

Lemma join_chars (s : string) : PyStr.join (PyStr.chars s) = s.
Proof.
  induction s as [|c s IH]; [reflexivity |].
  cbn [PyStr.chars]. destruct (PyStr.chars s) as [|[|d ch] rest].
  - cbn in *. now rewrite <- IH.
  - cbn in *. now rewrite <- IH.
  - destruct (PyStr.is_continuation d); cbn in *; now rewrite <- IH.
Qed.

Lemma string_app_assoc (s t u : string) : (s +:+ t) +:+ u = s +:+ (t +:+ u).
Proof.
  induction s as [|c s IH]; [reflexivity |]. now rewrite !string_app_cons, IH.
Qed.

Lemma join_firstn_skipn (n : nat) (l : list string) :
  PyStr.join l = PyStr.join (firstn n l) +:+ PyStr.join (skipn n l).
Proof.
  revert n. induction l as [|x l IH]; intros [|n]; try reflexivity.
  cbn [firstn skipn PyStr.join fold_right]. fold (PyStr.join l) (PyStr.join (firstn n l)).
  rewrite (IH n). now rewrite string_app_assoc.
Qed.

(** The characters of a string are characters, and all but the first begin
    with a byte that is not a continuation byte. *)
Lemma chars_are_chars (s : string) :
  forallb is_char (PyStr.chars s) = true /\
  forallb starts_char (List.tl (PyStr.chars s)) = true.
Proof.
  induction s as [|c s [IH1 IH2]]; [split; reflexivity |].
  cbn [PyStr.chars]. destruct (PyStr.chars s) as [|[|d ch] rest].
  - split; reflexivity.
  - discriminate IH1.
  - cbn [forallb is_char List.tl] in IH1, IH2.
    destruct (PyStr.is_continuation d) eqn:Hd; cbn [forallb is_char starts_char List.tl str_all].
    + rewrite Hd. cbn [andb]. split; [exact IH1 | exact IH2].
    + rewrite Hd. cbn [negb andb]. split; [exact IH1 | exact IH2].
Qed.

Lemma chars_of_char (c : ascii) (r t : string) :
  str_all PyStr.is_continuation r = true ->
  forallb starts_char (PyStr.chars t) = true ->
  PyStr.chars (String c (r +:+ t)) = String c r :: PyStr.chars t.
Proof.
  revert c. induction r as [|e r IH]; intros c Hr Ht.
  - change ("" +:+ t) with t. cbn [PyStr.chars].
    destruct (PyStr.chars t) as [|[|d ch] rest]; try reflexivity.
    cbn [forallb starts_char] in Ht. apply andb_true_iff in Ht as [Hd _].
    apply negb_true_iff in Hd. now rewrite Hd.
  - cbn [str_all] in Hr. apply andb_true_iff in Hr as [He Hr].
    rewrite string_app_cons.
    change (PyStr.chars (String c (String e (r +:+ t))))
      with (match PyStr.chars (String e (r +:+ t)) with
            | String d ch :: rest =>
                if PyStr.is_continuation d then String c (String d ch) :: rest
                else String c EmptyString :: String d ch :: rest
            | rest => String c EmptyString :: rest
            end).
    rewrite (IH e Hr Ht). now rewrite He.
Qed.

(** Joining characters and taking the characters of the result gives the
    characters back. *)
Lemma chars_join (l : list string) :
  forallb is_char l = true ->
  forallb starts_char (List.tl l) = true ->
  PyStr.chars (PyStr.join l) = l.
Proof.
  induction l as [|g l IH]; [reflexivity |].
  cbn [forallb List.tl]. intros [Hg Hl]%andb_true_iff Hstart.
  assert (PyStr.chars (PyStr.join l) = l) as Hrest.
  { apply IH; [exact Hl |]. destruct l; [reflexivity |].
    cbn [forallb List.tl] in Hstart |- *. now apply andb_true_iff in Hstart as [_ ?]. }
  cbn [PyStr.join fold_right]. fold (PyStr.join l).
  destruct g as [|c r]; [discriminate Hg |].
  rewrite string_app_cons. rewrite chars_of_char; [now rewrite Hrest | exact Hg |].
  now rewrite Hrest.
Qed.

Lemma forallb_firstn {A} (f : A -> bool) (n : nat) (l : list A) :
  forallb f l = true -> forallb f (firstn n l) = true.
Proof.
  revert n. induction l as [|x l IH]; intros [|n]; try reflexivity.
  cbn [firstn forallb]. intros [Hx Hl]%andb_true_iff. now rewrite Hx, (IH n Hl).
Qed.

Lemma chars_take (n : nat) (s : string) :
  PyStr.chars (PyStr.take n s) = firstn n (PyStr.chars s).
Proof.
  unfold PyStr.take. destruct (chars_are_chars s) as [Hchars Hstart].
  apply chars_join; [now apply forallb_firstn |].
  destruct n as [|n]; [reflexivity |].
  destruct (PyStr.chars s) as [|g l]; [reflexivity |].
  cbn [firstn List.tl] in *. now apply forallb_firstn.
Qed.

Lemma take_prefix (n : nat) (s : string) :
  exists post, s = PyStr.take n s +:+ post.
Proof.
  exists (PyStr.join (skipn n (PyStr.chars s))). unfold PyStr.take.
  now rewrite <- join_firstn_skipn, join_chars.
Qed.

Lemma str_all_take (f : ascii -> bool) (n : nat) (s : string) :
  str_all f s = true -> str_all f (PyStr.take n s) = true.
Proof.
  destruct (take_prefix n s) as [post H]. intros Hs. rewrite H, str_all_append in Hs.
  now apply andb_true_iff in Hs as [? _].
Qed.

Lemma continuation_byte (d : ascii) : PyStr.is_continuation d = true -> mangle_byte d = true.
Proof.
  unfold PyStr.is_continuation, mangle_byte, is_ascii. cbv zeta.
  intros [Hd%Nat.leb_le _]%andb_true_iff.
  replace (nat_of_ascii d <? 128)%nat with false; [reflexivity |].
  symmetry. apply Nat.ltb_ge. exact Hd.
Qed.

Lemma continuation_bytes (rest : string) :
  str_all PyStr.is_continuation rest = true -> str_all mangle_byte rest = true.
Proof.
  induction rest as [|d rest IH]; [reflexivity |]. cbn [str_all].
  intros [Hd Hrest]%andb_true_iff. now rewrite (continuation_byte d Hd), (IH Hrest).
Qed.

Lemma char_bytes (w : World) (ch : string) :
  is_char ch = true -> mangle_keeps w ch = true -> str_all mangle_byte ch = true.
Proof.
  destruct ch as [|c rest]; [discriminate |]. cbn [is_char mangle_keeps str_all].
  unfold mangle_byte at 1. destruct (is_ascii c) eqn:Hc; cbn [negb orb].
  - destruct rest; [| discriminate]. intros _ ->. reflexivity.
  - intros Hrest _. now apply continuation_bytes.
Qed.

Lemma collapse_runs_kept (w : World) (in_run : bool) (l : list string) :
  forallb is_char l = true ->
  str_all mangle_byte (PyStr.join (collapse_runs w in_run l)) = true.
Proof.
  rewrite str_all_join.
  revert in_run. induction l as [|ch l IH]; intros in_run; [reflexivity |].
  cbn [forallb collapse_runs]. intros [Hch Hl]%andb_true_iff.
  destruct (mangle_keeps w ch) eqn:Hkeep.
  - cbn [forallb]. now rewrite (char_bytes w ch Hch Hkeep), (IH false Hl).
  - destruct in_run; [now apply IH |]. cbn [forallb]. now rewrite (IH true Hl).
Qed.

Lemma replace_slash_safe (s : string) :
  str_all mangle_byte s = true ->
  str_all is_file_name_char (PyStr.replace_char "/"%char "."%char s) = true.
Proof.
  induction s as [|c s IH]; [reflexivity |].
  cbn [str_all PyStr.replace_char]. intros [Hc Hs]%andb_true_iff. rewrite (IH Hs), andb_true_r.
  unfold is_file_name_char. destruct (Ascii.eqb c "/") eqn:E; [reflexivity |].
  now rewrite Hc, E.
Qed.

(** X2.  The name [_mangle_command] makes of any command line has at most
    [name_max] characters; it holds no slash, and every ASCII character in
    it is a letter, a digit, an underscore, a dash or a dot (no blank, no
    control character); it does not begin with a blank, a dot, an underscore
    or a dash.  The name can be empty: that of a command made of dots and
    slashes is. *)
Theorem mangled_command_is_a_file_name (w : World) (command : string) (name_max : nat) :
  (length (PyStr.chars (_mangle_command w command name_max)) <= name_max)%nat /\
  str_all is_file_name_char (_mangle_command w command name_max) = true /\
  (forall c rest,
     _mangle_command w command name_max = String c rest ->
     c ∉ [" "; "."; "_"; "-"]%char) /\
  _mangle_command w "/../." name_max = "".
Proof.
  split; [| split; [| split]].
  - unfold _mangle_command. cbv zeta. rewrite chars_take. apply firstn_le_length.
  - unfold _mangle_command, PyStr.strip.
    apply str_all_take, str_all_rstrip, str_all_lstrip, replace_slash_safe,
      collapse_runs_kept, chars_are_chars.
  - unfold _mangle_command, PyStr.strip.
    set (t := PyStr.replace_char _ _ _).
    set (cs := [" "; "."; "_"; "-"]%char).
    intros c rest H.
    destruct (take_prefix name_max (PyStr.rstrip cs (PyStr.lstrip cs t))) as [post1 Htake].
    destruct (rstrip_prefix cs (PyStr.lstrip cs t)) as [post Hpre].
    assert (exists r, PyStr.lstrip cs t = String c r) as [r Hr].
    { rewrite Hpre, Htake, H. cbn. eauto. }
    apply lstrip_head in Hr. intros Hin%list_elem_of_In.
    assert (existsb (Ascii.eqb c) cs = true); [| congruence].
    apply existsb_exists. exists c. split; [exact Hin | apply Ascii.eqb_refl].
  - destruct name_max; reflexivity.
Qed.

(** The accented letter of [echo é] is a letter: the name keeps it. *)
Example mangled_command_keeps_letters (w : World) :
  let e_acute := String (ascii_of_nat 195) (String (ascii_of_nat 169) EmptyString) in
  str_isalnum w e_acute = true ->
  _mangle_command w ("echo " +:+ e_acute) 255 = "echo_" +:+ e_acute.
Proof.
  intros e_acute H. unfold _mangle_command. cbv zeta.
  change (PyStr.chars (strip_bin_prefix ("echo " +:+ e_acute)))
    with ["e"; "c"; "h"; "o"; " "; e_acute].
  cbn [collapse_runs]. 
  change (mangle_keeps w e_acute) with (str_isalnum w e_acute). rewrite H.
  reflexivity.
Qed.

(** ** The collision loop of [_make_command_filename] *)

Lemma next_free_name_spec (fuel : nat) (taken : string -> bool) (outfn : string) (inc : Z)
  (newfn : string) :
  next_free_name fuel taken outfn inc = Some newfn ->
  exists k : nat,
    (k < fuel)%nat /\
    newfn = outfn +:+ "_" +:+ pretty (inc + Z.of_nat k) /\
    taken newfn = false /\
    forall j : nat, (j < k)%nat -> taken (outfn +:+ "_" +:+ pretty (inc + Z.of_nat j)) = true.
Proof.
  revert inc. induction fuel as [|fuel IH]; intros inc; [discriminate |].
  cbn [next_free_name]. destruct (taken (outfn +:+ "_" +:+ pretty inc)) eqn:Htaken; cbn [negb].
  - intros (k & Hk & -> & Hfree & Hbelow)%IH.
    exists (S k). replace (inc + Z.of_nat (S k)) with (inc + 1 + Z.of_nat k) by lia.
    split; [lia | split; [reflexivity | split; [exact Hfree |]]].
    intros [|j] Hj.
    + now rewrite Z.add_0_r.
    + replace (inc + Z.of_nat (S j)) with (inc + 1 + Z.of_nat j) by lia.
      apply Hbelow. lia.
  - intros [= <-]. exists 0%nat. rewrite Z.add_0_r.
    split; [lia | split; [reflexivity | split; [exact Htaken |]]]. lia.
Qed.

Lemma next_free_name_finds (fuel : nat) (taken : string -> bool) (outfn : string) (inc : Z)
  (k : nat) :
  (k < fuel)%nat ->
  taken (outfn +:+ "_" +:+ pretty (inc + Z.of_nat k)) = false ->
  exists newfn, next_free_name fuel taken outfn inc = Some newfn.
Proof.
  revert inc k. induction fuel as [|fuel IH]; intros inc k Hk Hfree; [lia |].
  cbn [next_free_name]. destruct (taken (outfn +:+ "_" +:+ pretty inc)) eqn:Htaken; cbn [negb];
    [| eauto].
  destruct k as [|k]; [rewrite Z.add_0_r in Hfree; congruence |].
  apply (IH (inc + 1) k); [lia |].
  now replace (inc + 1 + Z.of_nat k) with (inc + Z.of_nat (S k)) by lia.
Qed.

Lemma make_command_filename_free (fuel : nat) (w : World) (exe : string)
  (subdir : option string) (p : Plugin) (outfn : string) (q : Plugin) :
  _make_command_filename fuel w exe subdir p = Returned outfn q ->
  let base := command_filename_base w p exe subdir in
  let exists_ := os_path_exists w (archive p) in
  q = p /\
  exists_ outfn = false /\
  (outfn = base \/
   exists n : Z,
     2 <= n /\ outfn = base +:+ "_" +:+ pretty n /\
     exists_ base = true /\
     forall m : Z, 2 <= m < n -> exists_ (base +:+ "_" +:+ pretty m) = true).
Proof.
  unfold _make_command_filename, bind, gets, id, ret, diverge. cbn zeta.
  destruct (os_path_exists w (archive p) (command_filename_base w p exe subdir)) eqn:Hbase.
  - destruct (next_free_name _ _ _ _) as [newfn |] eqn:Hnext; [| discriminate].
    intros [= <- <-].
    apply next_free_name_spec in Hnext as (k & _ & -> & Hfree & Hbelow).
    split; [reflexivity | split; [exact Hfree | right]].
    exists (2 + Z.of_nat k). split; [lia | split; [reflexivity | split; [reflexivity |]]].
    intros m Hm. replace m with (2 + Z.of_nat (Z.to_nat (m - 2))) by lia.
    apply Hbelow. lia.
  - intros [= <- <-]. auto.
Qed.

(** X3.  When the name built from the plugin directory and the mangled
    command, or that name with one of the suffixes [_2], [_3], ... within the
    budget of the search, does not exist in the archive, then
    [_make_command_filename] returns a name that does not exist: the plain
    name when that one is free, and otherwise the name with the smallest
    free suffix.  The plugin is left as it was. *)
Theorem command_filename_is_free (fuel : nat) (w : World) (exe : string)
  (subdir : option string) (p : Plugin) :
  let base := command_filename_base w p exe subdir in
  let exists_ := os_path_exists w (archive p) in
  (exists_ base = false \/
   exists k : Z, 2 <= k < 2 + Z.of_nat fuel /\ exists_ (base +:+ "_" +:+ pretty k) = false) ->
  exists outfn,
    _make_command_filename fuel w exe subdir p = Returned outfn p /\
    exists_ outfn = false /\
    (outfn = base \/
     exists n : Z,
       2 <= n /\ outfn = base +:+ "_" +:+ pretty n /\
       exists_ base = true /\
       forall m : Z, 2 <= m < n -> exists_ (base +:+ "_" +:+ pretty m) = true).
Proof.
  intros base exists_ Hfree.
  assert (exists outfn, _make_command_filename fuel w exe subdir p = Returned outfn p)
    as [outfn Hrun].
  { unfold _make_command_filename, bind, gets, id, ret. fold base. fold exists_.
    destruct (exists_ base) eqn:Hbase; [| eauto].
    destruct Hfree as [[=] | (k & Hk & Hfree)].
    destruct (next_free_name_finds fuel exists_ base 2 (Z.to_nat (k - 2))) as [newfn ->];
      [lia | | eauto].
    now replace (2 + Z.of_nat (Z.to_nat (k - 2))) with k by lia. }
  exists outfn. split; [exact Hrun |].
  now apply make_command_filename_free in Hrun as (_ & Hrun).
Qed.

(** [lsblk] was collected once already, so the second output goes to
    [lsblk_2]. *)
Lemma command_filename_is_free_witness :
  let w := archive_backed Examples.empty_world in
  let p := with_archive (fun _ => [add_string (Text "sda") "sos_commands/block/lsblk"])
                        (Examples.new_plugin "block" "/" Examples.null_predicate) in
  exists outfn,
    _make_command_filename 1 w "lsblk" None p = Returned outfn p /\
    os_path_exists w (archive p) outfn = false /\
    (outfn = "sos_commands/block/lsblk" \/
     exists n : Z,
       2 <= n /\ outfn = "sos_commands/block/lsblk" +:+ "_" +:+ pretty n /\
       os_path_exists w (archive p) "sos_commands/block/lsblk" = true /\
       forall m : Z, 2 <= m < n ->
         os_path_exists w (archive p) ("sos_commands/block/lsblk" +:+ "_" +:+ pretty m) = true).
Proof.
  cbn zeta.
  apply (command_filename_is_free 1 (archive_backed Examples.empty_world) "lsblk" None
           (with_archive (fun _ => [add_string (Text "sda") "sos_commands/block/lsblk"])
                         (Examples.new_plugin "block" "/" Examples.null_predicate))).
  right. exists 2. split; [lia | reflexivity].
Defined.

(** ** How often a command is run *)

Lemma unchrooted_final (fuel : nat) (w : World) (prog : string) (timeout : option Z)
  (stderr : bool) (runat : option string) (env : option (list (string * string)))
  (binary : bool) (sizelimit : option Z) (q : Plugin) :
  _timeout_hit q = false ->
  opt_chroot (opts q) <> "always" ->
  exists logs,
    Forall is_Log logs /\
    final_state
      (get_command_output fuel w prog timeout stderr false runat env binary sizelimit q)
      = Some (after_events
                (Exec (mk_req prog timeout stderr None runat env binary sizelimit) :: logs) q).
Proof.
  intros Hq Hopt.
  destruct (unchrooted_run fuel w prog timeout stderr runat env binary sizelimit q Hq Hopt)
    as (logs & Hlogs & [-> | (_ & _ & ->)]); eauto.
Qed.

Lemma execs_cons_exec (req : exec_request) (logs : list event) :
  Forall is_Log logs -> execs (Exec req :: logs) = [req].
Proof. intros H. change (execs (Exec req :: logs)) with (req :: execs logs).
       now rewrite (execs_logs logs H). Qed.

(** X4.  [get_command_output] always comes to an end, and by then it has run
    the command at most twice: the retry in the host root is itself never
    retried, so a budget of one nested call is enough for every command, every
    plugin and every host.  All it leaves behind are log records and the runs
    of that command. *)
Theorem command_runs_at_most_twice (fuel : nat) (w : World) (prog : string)
  (timeout : option Z) (stderr chroot : bool) (runat : option string)
  (env : option (list (string * string))) (binary : bool) (sizelimit : option Z)
  (p : Plugin) :
  exists evs,
    final_state
      (get_command_output (S fuel) w prog timeout stderr chroot runat env binary sizelimit p)
      = Some (after_events evs p) /\
    (List.length (execs evs) <= 2)%nat /\
    Forall (fun req => x_command req = prog) (execs evs).
Proof.
  remember (get_command_output (S fuel) w prog timeout stderr chroot runat env binary
                               sizelimit p) as run eqn:Hrun.
  rewrite get_command_output_unfold in Hrun.
  unfold bind at 1, gets at 1, id in Hrun.
  destruct (_timeout_hit p) eqn:Hp.
  { exists []. subst run. rewrite after_events_nil. repeat split; cbn; [lia | constructor]. }
  unfold bind at 1, modify at 1 in Hrun. unfold bind at 1 in Hrun.
  unfold _log_warn, _log_debug, log, modify, lift, ret, raise in Hrun.
  set (req1 := mk_req prog timeout stderr _ runat env binary sizelimit) in Hrun.
  assert (forall logs, Forall is_Log logs ->
            (List.length (execs (Exec req1 :: logs)) <= 2)%nat /\
            Forall (fun req => x_command req = prog) (execs (Exec req1 :: logs))) as Hone.
  { intros logs Hlogs. rewrite (execs_cons_exec _ _ Hlogs). cbn.
    split; [lia | repeat constructor]. }
  destruct (status _ =? 124) in Hrun; [destruct timeout as [t |] |];
    try (subst run; exists [Exec req1]; split; [reflexivity | apply (Hone []); constructor]);
    (destruct ((status _ =? 126) || (status _ =? 127)) in Hrun;
     [ destruct (optstr_truthy _ && _ && _) eqn:Hretry in Hrun;
       [ unfold bind at 1 in Hrun; destruct (PyStr.first_word prog) as [word |];
         [ unfold bind at 1, _log_info, log, modify in Hrun;
           rewrite ?after_events_app in Hrun;
           apply andb_true_iff in Hretry as [_ Hopt];
           apply negb_true_iff, String.eqb_neq in Hopt;
           match type of Hrun with
           | _ = get_command_output _ _ _ ?t _ _ _ _ _ _ ?q =>
               destruct (unchrooted_final fuel w prog t true runat env binary None q
                           Hp Hopt) as (logs & Hlogs & Hfinal)
           end;
           rewrite <- Hrun in Hfinal; rewrite after_events_app in Hfinal;
           eexists; split; [exact Hfinal |];
           rewrite !execs_app, (execs_cons_exec _ _ Hlogs); cbn;
           split; [lia | repeat constructor]
         | subst run; rewrite ?after_events_app; eexists; split; [reflexivity |];
           apply (Hone (_ :: [])) || apply (Hone []); repeat constructor ]
       | unfold bind in Hrun; rewrite ?after_events_app in Hrun; subst run;
         eexists; split; [reflexivity |];
         first [apply (Hone [_; _]) | apply (Hone [_]) | apply (Hone [])];
         repeat constructor ]
     | rewrite ?after_events_app in Hrun; subst run;
       eexists; split; [reflexivity |];
       first [apply (Hone [_; _]) | apply (Hone [_]) | apply (Hone [])];
       repeat constructor ]).
Qed.

(** X5.  With the chroot option set to "always", every command is run inside
    the sysroot, also when the caller asked for no chroot, and it is run
    exactly once: a command that is not found there (status 126 or 127) is
    not retried in the host root. *)
Theorem forced_chroot_never_falls_back (fuel : nat) (w : World) (prog : string)
  (timeout : option Z) (stderr chroot : bool) (runat : option string)
  (env : option (list (string * string))) (binary : bool) (sizelimit : option Z)
  (p : Plugin) :
  _timeout_hit p = false ->
  opt_chroot (opts p) = "always" ->
  exists logs,
    Forall is_Log logs /\
    final_state
      (get_command_output fuel w prog timeout stderr chroot runat env binary sizelimit p)
      = Some (after_events
                (Exec (mk_req prog timeout stderr (Some (sysroot p)) runat env binary
                              sizelimit) :: logs) p).
Proof.
  intros Hp Hopt.
  remember (get_command_output fuel w prog timeout stderr chroot runat env binary
                               sizelimit p) as run eqn:Hrun.
  rewrite get_command_output_unfold in Hrun.
  unfold bind at 1, gets at 1, id in Hrun. rewrite Hp, Hopt in Hrun.
  rewrite orb_true_r in Hrun. cbn [String.eqb Ascii.eqb Bool.eqb negb andb] in Hrun.
  rewrite !andb_false_r in Hrun.
  unfold bind, _log_warn, _log_debug, log, modify, ret, raise in Hrun.
  destruct (status _ =? 124) in Hrun; [destruct timeout as [t |] |];
    try destruct ((status _ =? 126) || (status _ =? 127)) in Hrun;
    rewrite ?after_events_app in Hrun; subst run;
    (eexists; split; [| reflexivity]); repeat constructor.
Qed.

(** With chroot forced, [lsblk] missing under [/mnt/image] is run there and
    nowhere else. *)
Lemma forced_chroot_never_falls_back_witness :
  let p := Examples.chroot_plugin in
  let forced :=
    mk_plugin (plugin_name p) (sysroot p) (cmddir p)
              (mk_opts "always" false 25 false) (predicate p) (cmd_predicate p)
              (_timeout_hit p) (forbidden_paths p) (copied_files p) (executed_commands p)
              (copy_paths p) (copy_strings p) (collect_cmds p) (archive p) (trace p) in
  exists logs,
    Forall is_Log logs /\
    final_state
      (get_command_output 0 Examples.chroot_world "lsblk -f" (Some 300) true false None None
                          false None forced)
      = Some (after_events
                (Exec (mk_req "lsblk -f" (Some 300) true (Some "/mnt/image") None None false
                              None) :: logs) forced).
Proof.
  cbn zeta.
  apply (forced_chroot_never_falls_back 0 Examples.chroot_world "lsblk -f" (Some 300) true
           false None None false None); reflexivity.
Defined.

(** ** Sysroot translation *)

Lemma startswith_append (a s : string) : PyStr.startswith (a +:+ s) a = true.
Proof.
  induction a as [|c a IH]; [now destruct s |].
  rewrite string_app_cons. cbn [PyStr.startswith]. now rewrite Ascii.eqb_refl, IH.
Qed.

Lemma drop_append (a s : string) : PyStr.drop (String.length a) (a +:+ s) = s.
Proof. induction a as [|c a IH]; [now destruct s | exact IH]. Qed.

Lemma startswith_nil (s : string) : PyStr.startswith s "" = true.
Proof. now destruct s. Qed.

Lemma startswith_cons (c d : ascii) (s pre : string) :
  PyStr.startswith (String c s) (String d pre) = Ascii.eqb d c && PyStr.startswith s pre.
Proof. reflexivity. Qed.

Lemma startswith_slash (c : ascii) (s : string) :
  PyStr.startswith (String c s) "/" = Ascii.eqb c "/".
Proof.
  change "/" with (String "/"%char "") at 1.
  now rewrite startswith_cons, startswith_nil, andb_true_r, Ascii.eqb_sym.
Qed.

Lemma startswith_two_slashes (c : ascii) (s : string) :
  PyStr.startswith (String c s) "//" = Ascii.eqb c "/" && PyStr.startswith s "/".
Proof.
  change "//" with (String "/"%char "/").
  now rewrite startswith_cons, Ascii.eqb_sym.
Qed.

(** X6.  [strip_sysroot] undoes [join_sysroot]: for a sysroot that is [/] or
    does not end in a slash, a path of the host view that is joined to the
    sysroot and stripped again comes back as the absolute path it names
    (itself when it starts with one slash, with a slash put in front when it
    is relative). *)
Theorem strip_sysroot_undoes_join (p : Plugin) (c : ascii) (rest : string) :
  sysroot p = "/" \/ (sysroot p <> "" /\ PyStr.endswith (sysroot p) "/" = false) ->
  PyStr.startswith (String c rest) "//" = false ->
  exists joined,
    join_sysroot p (String c rest) = inr joined /\
    strip_sysroot p joined =
      if OsPath.isabs (String c rest) then String c rest else String "/" (String c rest).
Proof.
  intros Hroot Hpath. unfold join_sysroot, OsPath.isabs, OsPath.sep.
  eexists. split; [reflexivity |].
  rewrite startswith_two_slashes in Hpath. rewrite startswith_slash.
  set (tail := if Ascii.eqb c "/" then rest else String c rest).
  assert (PyStr.startswith tail "/" = false /\
          (if Ascii.eqb c "/" then String c rest else String "/" (String c rest))
          = String "/" tail) as [Htail ->].
  { subst tail. destruct (Ascii.eqb c "/") eqn:Hc.
    - apply Ascii.eqb_eq in Hc as ->. now split.
    - split; [| reflexivity]. now rewrite startswith_slash. }
  unfold OsPath.join. rewrite Htail.
  destruct Hroot as [Hroot | [Hne Hslash]].
  - unfold strip_sysroot, use_sysroot. rewrite Hroot. reflexivity.
  - rewrite Hslash. destruct (sysroot p) as [|a s] eqn:Hs; [contradiction |].
    cbn [PyStr.truthy negb orb]. rewrite <- Hs.
    unfold strip_sysroot. destruct (use_sysroot p) eqn:Huse; cbn [negb].
    + now rewrite startswith_append, drop_append.
    + unfold use_sysroot in Huse. apply negb_false_iff, String.eqb_eq in Huse.
      rewrite Hs in Huse. rewrite Huse in Hslash. discriminate.
Qed.

(** Under [/mnt/image], [/etc/fstab] is read from [/mnt/image/etc/fstab] and
    reported as [/etc/fstab]. *)
Lemma strip_sysroot_undoes_join_witness :
  exists joined,
    join_sysroot Examples.chroot_plugin "/etc/fstab" = inr joined /\
    strip_sysroot Examples.chroot_plugin joined = "/etc/fstab".
Proof.
  apply (strip_sysroot_undoes_join Examples.chroot_plugin "/" "etc/fstab").
  - right. split; [discriminate | reflexivity].
  - reflexivity.
Defined.

Lemma commonprefix2_startswith (a b : string) :
  String.eqb (commonprefix2 a b) a = PyStr.startswith b a.
Proof.
  revert b. induction a as [|x a IH]; intros b; [now destruct b |].
  destruct b as [|y b]; [reflexivity |].
  cbn [commonprefix2 PyStr.startswith]. destruct (Ascii.eqb x y) eqn:Hxy; [| reflexivity].
  cbn [String.eqb andb]. rewrite Ascii.eqb_refl. apply IH.
Qed.

(** X7.  [tmp_in_sysroot] is a test on the characters of the two paths, not
    on their components: it holds exactly when the temporary directory, as a
    string, starts with the sysroot. *)
Theorem tmp_in_sysroot_is_a_prefix_test (p : Plugin) (tmp_dir : string) :
  tmp_in_sysroot p tmp_dir = PyStr.startswith tmp_dir (sysroot p).
Proof. apply commonprefix2_startswith. Qed.

(** ** What the path copier does with one path *)

Lemma grows_refl (p : Plugin) : grows p p [] [].
Proof. unfold grows. now rewrite !app_nil_r. Qed.

Lemma grows_trans (p q r : Plugin) e1 r1 e2 r2 :
  grows p q e1 r1 -> grows q r e2 r2 -> grows p r (e1 ++ e2) (r1 ++ r2).
Proof.
  intros (Ht & Hs & Hf & Ha & Hc) (Ht' & Hs' & Hf' & Ha' & Hc').
  unfold grows. rewrite Ht', Hs', Hf', Ha', Hc', Ha, Hc, !app_assoc. auto.
Qed.

Lemma grows_after_events (evs : list event) (p : Plugin) : grows p (after_events evs p) [] [].
Proof. unfold grows. cbn. now rewrite !app_nil_r. Qed.

Lemma strip_sysroot_congr (p q : Plugin) (path : string) :
  sysroot q = sysroot p -> strip_sysroot q path = strip_sysroot p path.
Proof. intros H. unfold strip_sysroot, use_sysroot. now rewrite H. Qed.

Lemma dest_is_stripped (p : Plugin) (src : string) :
  (if use_sysroot p then strip_sysroot p src else src) = strip_sysroot p src.
Proof. unfold strip_sysroot. now destruct (use_sysroot p). Qed.

Lemma file_type_exclusive (w : World) (src : string) (st : stat_result) :
  copied_as_file w src st ->
  Stat.S_ISLNK (st_mode st) = false /\
  Stat.S_ISDIR (st_mode st) && os_access_R_OK w src = false /\
  negb (Stat.S_ISREG (st_mode st) || Stat.S_ISDIR (st_mode st)) = false.
Proof.
  unfold copied_as_file, Stat.S_ISREG, Stat.S_ISDIR, Stat.S_ISLNK.
  intros [H | [H Hacc]]; apply Z.eqb_eq in H; rewrite H, ?Hacc; auto.
Qed.

(** One file, whatever the recursion budget. *)
Lemma copy_one_file (fuel : nat) (w : World) (src : string) (p : Plugin) (st : stat_result) :
  _timeout_hit p = false ->
  _is_forbidden_path p src = inr false ->
  os_lstat w src = Some st ->
  copied_as_file w src st ->
  exists q,
    _do_copy_path fuel w src None p = Returned None q /\
    grows p q [file_entry p src st] [file_record p src].
Proof.
  intros Hp Hf Hst Hfile.
  destruct (file_type_exclusive w src st Hfile) as (Hlnk & Hdir & Hnode).
  assert (_do_copy_path fuel w src None p =
          _do_copy_path_body w (fun _ _ => diverge) src None p) as ->.
  { destruct fuel; cbn [_do_copy_path]; [reflexivity |].
    unfold _do_copy_path_body, bind, gets, id. rewrite Hp, Hf. cbn [lift ret].
    unfold call, modify. rewrite Hst, Hlnk, Hdir, Hnode. reflexivity. }
  unfold _do_copy_path_body, bind, gets, id. rewrite Hp, Hf. cbn [lift ret].
  unfold call, modify. rewrite Hst, Hlnk, Hdir, Hnode.
  cbn [optstr_truthy]. rewrite dest_is_stripped.
  unfold _log_debug, log, modify, archive_call, modify, ret, file_entry, file_record.
  destruct (Z.land (st_mode st) 292 =? 0); (eexists; split; [reflexivity |]);
    unfold grows; cbn; auto.
Qed.

Lemma get_dest_after_record (p q : Plugin) (x src : string) :
  sysroot_joined p x = inr src ->
  sysroot q = sysroot p ->
  copied_files q = copied_files p ++ [file_record p src] ->
  exists d,
    _get_dest_for_srcpath q x = inr (Some d) /\
    (Forall (fun r => srcpath r <> src) (copied_files p) -> d = strip_sysroot p src).
Proof.
  intros Hx Hs Hc. unfold _get_dest_for_srcpath.
  assert (sysroot_joined q x = inr src) as ->
    by (unfold sysroot_joined, use_sysroot, join_sysroot in *; now rewrite Hs).
  rewrite Hc. clear Hc. induction (copied_files p) as [|r l IH]; cbn [app List.find].
  - cbn. rewrite String.eqb_refl. cbn. eauto.
  - destruct (String.eqb src (srcpath r)) eqn:E.
    + cbn. eexists. split; [reflexivity |].
      intros H. apply Forall_cons in H as [H _]. apply String.eqb_eq in E. congruence.
    + destruct IH as (d & Hfind & Hd). exists d. split; [exact Hfind |].
      intros H. apply Forall_cons in H as [_ H]. auto.
Qed.

(** X8.  A path that is not forbidden and that [lstat] shows as a regular
    file (or as a directory that may not be read) is copied without any
    recursion: the archive gets the file under its sysroot-stripped path, or
    an empty placeholder when the mode has no read bit, [copied_files] gets
    one record, and [_get_dest_for_srcpath] then finds the file again under
    the name the plugin uses for it; when the path had not been recorded
    before, what it finds is the destination just written. *)
Theorem file_is_archived_and_found (fuel : nat) (w : World) (src x : string) (p : Plugin)
  (st : stat_result) :
  _timeout_hit p = false ->
  sysroot_joined p x = inr src ->
  _is_forbidden_path p src = inr false ->
  os_lstat w src = Some st ->
  copied_as_file w src st ->
  exists q d,
    _do_copy_path fuel w src None p = Returned None q /\
    archive q = archive p ++ [file_entry p src st] /\
    copied_files q = copied_files p ++ [file_record p src] /\
    _get_dest_for_srcpath q x = inr (Some d) /\
    (Forall (fun r => srcpath r <> src) (copied_files p) -> d = strip_sysroot p src).
Proof.
  intros Hp Hx Hf Hst Hfile.
  destruct (copy_one_file fuel w src p st Hp Hf Hst Hfile)
    as (q & Hrun & _ & Hs & _ & Ha & Hc).
  destruct (get_dest_after_record p q x src Hx Hs Hc) as (d & Hd & Hfresh).
  exists q, d. auto.
Qed.

(** Under the sysroot [/mnt/image], [/etc/fstab] is copied from
    [/mnt/image/etc/fstab] and found again as [/etc/fstab]. *)
Lemma file_is_archived_and_found_witness :
  let w := Examples.with_fs
             (fun path => if String.eqb path "/mnt/image/etc/fstab"
                          then Some (Examples.regular 512 10) else None)
             (fun _ => inl ENOENT) (fun _ => []) Examples.empty_world in
  let p := Examples.chroot_plugin in
  exists q d,
    _do_copy_path 0 w "/mnt/image/etc/fstab" None p = Returned None q /\
    archive q = archive p ++ [add_file "/mnt/image/etc/fstab" "/etc/fstab"] /\
    copied_files q = copied_files p ++ [mk_copied "/mnt/image/etc/fstab" "/etc/fstab" "no" None] /\
    _get_dest_for_srcpath q "/etc/fstab" = inr (Some d) /\
    (Forall (fun r => srcpath r <> "/mnt/image/etc/fstab") (copied_files p) ->
     d = "/etc/fstab").
Proof.
  cbn zeta.
  apply (file_is_archived_and_found 0 _ "/mnt/image/etc/fstab" "/etc/fstab"
           Examples.chroot_plugin (Examples.regular 512 10));
    try reflexivity.
  left. reflexivity.
Defined.

(** ** A directory of files *)

Lemma copy_missing (fuel : nat) (w : World) (src : string) (p : Plugin) :
  _timeout_hit p = false ->
  _is_forbidden_path p src = inr false ->
  os_lstat w src = None ->
  exists q, _do_copy_path fuel w src None p = Returned None q /\ grows p q [] [].
Proof.
  intros Hp Hf Hst.
  exists (after_events [Call "os.lstat" src; Log INFO "failed to stat '%s'" [A_str src]] p).
  split; [| apply grows_after_events].
  destruct fuel; cbn [_do_copy_path];
    unfold _do_copy_path_body, bind, gets, id; rewrite Hp, Hf; cbn [lift ret];
    unfold call, modify; rewrite Hst; unfold _log_info, log, modify, ret;
    now rewrite after_events_app.
Qed.

Lemma copy_forbidden (fuel : nat) (w : World) (src : string) (p : Plugin) :
  _timeout_hit p = false ->
  _is_forbidden_path p src = inr true ->
  exists q r, _do_copy_path fuel w src None p = Returned r q /\ grows p q [] [].
Proof.
  intros Hp Hf. rewrite (do_copy_path_forbidden fuel w src None p Hf), Hp.
  eexists _, _. split; [reflexivity | apply grows_after_events].
Qed.

Lemma is_kept_congr (p q : Plugin) (path : string) :
  sysroot q = sysroot p -> forbidden_paths q = forbidden_paths p ->
  is_kept q path = is_kept p path.
Proof. intros Hs Hf. unfold is_kept. now rewrite (is_forbidden_congr p q). Qed.

(** The loop of [_copy_dir] over a listing whose entries are files. *)
Lemma copy_dir_loop (fuel : nat) (w : World) (src : string) (names : list string)
  (p0 p : Plugin) :
  _timeout_hit p = false ->
  sysroot p = sysroot p0 ->
  forbidden_paths p = forbidden_paths p0 ->
  Forall (fun path =>
            (exists b, _is_forbidden_path p0 path = inr b) /\
            forall st, os_lstat w path = Some st -> copied_as_file w path st)
         (map (OsPath.join src) names) ->
  exists q,
    for_each names
      (fun afile =>
         _log_debug "recursively adding '%s' from '%s'" [A_str afile; A_str src] ;;;
         _do_copy_path fuel w (OsPath.join src afile) None ;;; ret tt) p
    = Returned tt q /\
    grows p q
      (map (fun f => file_entry p0 f.1 f.2)
           (listed_files w p0 (map (OsPath.join src) names)))
      (map (fun f => file_record p0 f.1)
           (listed_files w p0 (map (OsPath.join src) names))).
Proof.
  revert p. induction names as [|n names IH]; intros p Hp Hs Hf Hall.
  - exists p. split; [reflexivity | apply grows_refl].
  - cbn [map] in Hall. apply Forall_cons in Hall as [[[b Hb] Hfile] Hall].
    cbn [for_each]. unfold bind at 1. unfold bind at 1, _log_debug, log, modify.
    set (p1 := after_events _ p).
    assert (grows p p1 [] []) as G1 by apply grows_after_events.
    assert (_is_forbidden_path p1 (OsPath.join src n) = inr b) as Hb1
      by (rewrite <- Hb; apply is_forbidden_congr; [exact Hs | exact Hf]).
    assert (exists q1 r,
               _do_copy_path fuel w (OsPath.join src n) None p1 = Returned r q1 /\
               grows p1 q1
                 (map (fun f => file_entry p0 f.1 f.2)
                      (listed_files w p0 [OsPath.join src n]))
                 (map (fun f => file_record p0 f.1)
                      (listed_files w p0 [OsPath.join src n])))
      as (q1 & r & Hrun & G2).
    { unfold listed_files, kept. cbn [List.filter]. unfold is_kept. rewrite Hb.
      destruct b.
      - apply copy_forbidden; [exact Hp | exact Hb1].
      - simpl omap. destruct (os_lstat w (OsPath.join src n)) as [st |] eqn:Hst.
        + destruct (copy_one_file fuel w (OsPath.join src n) p1 st Hp Hb1 Hst (Hfile st eq_refl))
            as (q1 & Hrun & G).
          exists q1, None. split; [exact Hrun |]. cbn [fmap option_fmap option_map map fst snd].
          unfold file_entry, file_record in *.
          rewrite !(strip_sysroot_congr p0 p1) in G by exact Hs. exact G.
        + destruct (copy_missing fuel w (OsPath.join src n) p1 Hp Hb1 Hst) as (q1 & Hrun & G).
          exists q1, None. split; [exact Hrun | exact G]. }
    unfold bind at 1. rewrite Hrun. unfold bind at 1, ret at 1.
    pose proof (grows_trans _ _ _ _ _ _ _ G1 G2) as G12. cbn [app] in G12.
    destruct G12 as (Ht12 & Hs12 & Hf12 & Ha12 & Hc12).
    destruct (IH q1) as (q & Hloop & G3);
      [congruence | congruence | congruence | exact Hall |].
    exists q. split; [exact Hloop |].
    pose proof (grows_trans p q1 q _ _ _ _ (conj Ht12 (conj Hs12 (conj Hf12 (conj Ha12 Hc12)))) G3)
      as G.
    assert (listed_files w p0 (map (OsPath.join src) (n :: names)) =
            listed_files w p0 [OsPath.join src n] ++
            listed_files w p0 (map (OsPath.join src) names)) as ->.
    { unfold listed_files, kept. cbn [map List.filter].
      destruct (is_kept p0 (OsPath.join src n)); [| reflexivity].
      simpl. now destruct (os_lstat w (OsPath.join src n)). }
    now rewrite !map_app.
Qed.

(** X9.  Copying a readable directory whose entries are files archives the
    directory entry by entry, in the order of the listing: every entry that is
    not forbidden and that [lstat] finds is added to the archive under its
    sysroot-stripped path and recorded in [copied_files]; forbidden entries
    and entries that cannot be stat'ed are passed over without an error.
    Nothing else is added, and one level of recursion is all it takes. *)
Theorem flat_directory_is_copied_in_order (fuel : nat) (w : World) (src : string)
  (p : Plugin) (st : stat_result) (names : list string) :
  _timeout_hit p = false ->
  _is_forbidden_path p src = inr false ->
  os_lstat w src = Some st ->
  Stat.S_ISDIR (st_mode st) = true ->
  os_access_R_OK w src = true ->
  os_listdir w src = inr names ->
  Forall (fun path =>
            (exists b, _is_forbidden_path p path = inr b) /\
            forall st, os_lstat w path = Some st -> copied_as_file w path st)
         (map (OsPath.join src) names) ->
  exists q,
    _do_copy_path (S fuel) w src None p = Returned None q /\
    grows p q
      (map (fun f => file_entry p f.1 f.2) (listed_files w p (map (OsPath.join src) names)))
      (map (fun f => file_record p f.1) (listed_files w p (map (OsPath.join src) names))).
Proof.
  intros Hp Hf Hst Hdir Hacc Hlist Hall.
  assert (Stat.S_ISLNK (st_mode st) = false) as Hlnk.
  { unfold Stat.S_ISDIR, Stat.S_ISLNK in *. apply Z.eqb_eq in Hdir. now rewrite Hdir. }
  cbn [_do_copy_path]. unfold _do_copy_path_body, bind at 1, gets at 1, id.
  rewrite Hp, Hf. unfold bind at 1, lift, ret at 1. unfold bind at 1, call, modify.
  rewrite Hst, Hlnk, Hdir, Hacc. cbn [andb].
  set (p1 := after_events [Call "os.lstat" src] p).
  unfold bind at 1, _copy_dir, try_except, bind at 1, call, modify.
  rewrite Hlist. unfold bind at 1, lift, ret at 1.
  set (p2 := after_events [Call "os.listdir" src] p1).
  destruct (copy_dir_loop fuel w src names p p2 Hp eq_refl eq_refl Hall) as (q & Hloop & G).
  rewrite Hloop. exists q. split; [reflexivity |].
  pose proof (grows_trans _ _ _ _ _ _ _ (grows_after_events [Call "os.lstat" src; Call "os.listdir" src] p) G)
    as G'.
  subst p2 p1. rewrite after_events_app in G. cbn [app] in G, G'. exact (G' ).
Qed.

(** [/etc] lists [passwd], the forbidden [shadow] and the vanished [mtab]:
    only [passwd] is archived. *)
Lemma flat_directory_is_copied_in_order_witness :
  exists q,
    _do_copy_path 1 etc_directory_world "/etc" None Examples.etc_plugin = Returned None q /\
    grows Examples.etc_plugin q
          [add_file "/etc/passwd" "/etc/passwd"]
          [mk_copied "/etc/passwd" "/etc/passwd" "no" None].
Proof.
  apply (flat_directory_is_copied_in_order 0 etc_directory_world "/etc" Examples.etc_plugin
           (mk_stat 0x41ED 4096 0 70) ["passwd"; "shadow"; "mtab"]); try reflexivity.
  cbn [map].
  repeat match goal with
         | |- Forall _ (_ :: _) => apply List.Forall_cons
         | |- Forall _ [] => apply List.Forall_nil
         | |- _ /\ _ => split
         | |- exists _, _ => eexists; reflexivity
         end;
    intros st H; vm_compute in H; try discriminate;
    injection H as <-; left; reflexivity.
Defined.

(** ** Device numbers *)

Ltac bits :=
  repeat match goal with
    | |- context [Z.testbit (Z.lor _ _) _] => rewrite Z.lor_spec
    | |- context [Z.testbit (Z.land _ _) _] => rewrite Z.land_spec
    | |- context [Z.testbit (Z.shiftl ?a ?k) ?m] =>
        first [ rewrite (Z.shiftl_spec a k m) by lia
              | rewrite (Z.testbit_neg_r (Z.shiftl a k) m) by lia ]
    | |- context [Z.testbit (Z.shiftr ?a ?k) ?m] =>
        first [ rewrite (Z.shiftr_spec a k m) by lia
              | rewrite (Z.testbit_neg_r (Z.shiftr a k) m) by lia ]
    | |- context [Z.testbit (Z.ones ?k) ?m] =>
        first [ rewrite (Z.testbit_ones_nonneg k m) by lia
              | rewrite (Z.testbit_neg_r (Z.ones k) m) by lia ]
    | |- context [?a <? ?b] =>
        first [ replace (a <? b) with true by (symmetry; apply Z.ltb_lt; lia)
              | replace (a <? b) with false by (symmetry; apply Z.ltb_ge; lia) ]
    | |- context [Z.testbit ?d ?m] =>
        rewrite (Z.testbit_neg_r d m) by lia
    | _ => progress rewrite ?andb_true_r, ?andb_false_r, ?orb_false_r, ?orb_false_l,
             ?andb_false_l, ?andb_true_l, ?orb_true_r, ?orb_true_l
    end.

Lemma makedev_major_minor (dev : Z) :
  0 <= dev < 2 ^ 64 -> gnu_dev_makedev (gnu_dev_major dev) (gnu_dev_minor dev) = dev.
Proof.
  intros Hdev. unfold gnu_dev_makedev, gnu_dev_major, gnu_dev_minor.
  change 0xFFFFF000 with (Z.shiftl (Z.ones 20) 12).
  change 0xFFFFFF00 with (Z.shiftl (Z.ones 24) 8).
  change 0xFFF with (Z.ones 12). change 0xFF with (Z.ones 8).
  apply Z.bits_inj'. intros n Hn.
  assert (forall m, 64 <= m -> Z.testbit dev m = false) as Hhigh.
  { intros m H. destruct (Z.eq_dec dev 0) as [-> | Hz]; [apply Z.bits_0 |].
    apply Z.bits_above_log2; [lia |].
    apply Z.log2_lt_pow2; [lia |].
    apply Z.lt_le_trans with (2 ^ 64); [lia |]. apply Z.pow_le_mono_r; lia. }
  destruct (Z_lt_dec n 8); [| destruct (Z_lt_dec n 12); [| destruct (Z_lt_dec n 20);
    [| destruct (Z_lt_dec n 32); [| destruct (Z_lt_dec n 44);
    [| destruct (Z_lt_dec n 64)]]]]]; bits.
  all: rewrite ?Hhigh by lia.
  all: rewrite ?andb_true_r, ?andb_false_r, ?orb_false_r, ?orb_false_l,
             ?andb_false_l, ?andb_true_l, ?orb_true_r, ?orb_true_l.
  all: try reflexivity.
  all: try (f_equal; lia).
Qed.

Lemma major_minor_nonneg (dev : Z) :
  0 <= dev -> 0 <= gnu_dev_major dev /\ 0 <= gnu_dev_minor dev.
Proof.
  intros Hdev. unfold gnu_dev_major, gnu_dev_minor.
  split; apply Z.lor_nonneg; split; apply Z.land_nonneg; right; lia.
Qed.

(** Bit 63 of a device number is bit 31 of its major number. *)
Lemma small_major_small_dev (dev : Z) :
  0 <= dev < 2 ^ 64 -> gnu_dev_major dev < 2 ^ 31 -> dev < 2 ^ 63.
Proof.
  intros Hdev Hmaj.
  destruct (Z_lt_dec dev (2 ^ 63)) as [| Hbig]; [assumption | exfalso].
  assert (Z.testbit dev 63 = true) as Hbit.
  { apply Z.testbit_true; [lia |].
    assert (dev / 2 ^ 63 = 1) as ->; [| reflexivity].
    apply Z.le_antisymm.
    - apply Z.lt_succ_r. apply Z.div_lt_upper_bound; lia.
    - apply Z.div_le_lower_bound; lia. }
  assert (Z.testbit (gnu_dev_major dev) 31 = true) as Hbit'.
  { unfold gnu_dev_major.
    change 0xFFFFF000 with (Z.shiftl (Z.ones 20) 12). change 0xFFF with (Z.ones 12).
    bits. change (31 + 32) with 63. rewrite Hbit. reflexivity. }
  destruct (major_minor_nonneg dev) as [Hnn _]; [lia |].
  destruct (Z.eq_dec (gnu_dev_major dev) 0) as [Hz | Hz].
  - rewrite Hz, Z.bits_0 in Hbit'. discriminate.
  - rewrite Z.bits_above_log2 in Hbit'; [discriminate | lia |].
    apply Z.log2_lt_pow2; lia.
Qed.

(** What [os.makedev] makes of the two halves of a device number: the number
    itself when both halves fit a C [int], [OverflowError] when one does
    not. *)
Lemma makedev_of_halves (dev : Z) :
  0 <= dev < 2 ^ 64 ->
  os_makedev (gnu_dev_major dev) (gnu_dev_minor dev) =
  if (gnu_dev_major dev <? 2 ^ 31) && (gnu_dev_minor dev <? 2 ^ 31)
  then inr dev else inl OverflowError.
Proof.
  intros Hdev. destruct (major_minor_nonneg dev) as [Hmaj Hmin]; [lia |].
  unfold os_makedev, fits_int.
  replace (- 2 ^ 31 <=? gnu_dev_major dev) with true by (symmetry; apply Z.leb_le; lia).
  replace (- 2 ^ 31 <=? gnu_dev_minor dev) with true by (symmetry; apply Z.leb_le; lia).
  cbn [andb].
  destruct (gnu_dev_major dev <? 2 ^ 31) eqn:Emaj; [| reflexivity].
  destruct (gnu_dev_minor dev <? 2 ^ 31); [| reflexivity].
  cbn [andb]. cbv zeta. rewrite (makedev_major_minor dev Hdev).
  apply Z.ltb_lt in Emaj. pose proof (small_major_small_dev dev Hdev Emaj) as Hsmall.
  apply Z.ltb_lt in Hsmall. now rewrite Hsmall.
Qed.

(** ** Paths the copier does not descend into *)

(** X10.  A block or character device, a named pipe or a socket is not read.
    Its device number is taken apart by [os.major] and [os.minor] and put
    together again by [os.makedev].  When the number is a [dev_t] whose major
    and minor halves both fit a C [int], the archive gets one [add_node]
    with the mode of the path and the very number [lstat] reported, and
    nothing is recorded in [copied_files].  Otherwise the copy raises
    [OverflowError] and the archive gets nothing. *)
Theorem special_node_is_recreated (fuel : nat) (w : World) (src : string)
  (dest : option string) (p : Plugin) (st : stat_result) :
  _timeout_hit p = false ->
  _is_forbidden_path p src = inr false ->
  os_lstat w src = Some st ->
  Stat.S_ISLNK (st_mode st) = false ->
  Stat.S_ISDIR (st_mode st) = false ->
  Stat.S_ISREG (st_mode st) = false ->
  exists q,
    (if fits_dev_t (st_rdev st)
        && (gnu_dev_major (st_rdev st) <? 2 ^ 31)
        && (gnu_dev_minor (st_rdev st) <? 2 ^ 31)
     then _do_copy_path fuel w src dest p = Returned None q /\
          grows p q [add_node src (st_mode st) (st_rdev st)] []
     else _do_copy_path fuel w src dest p = Raised OverflowError q /\
          grows p q [] []).
Proof.
  intros Hp Hf Hst Hlnk Hdir Hreg.
  assert (_do_copy_path fuel w src dest p = _do_copy_path_body w
            (match fuel with O => fun _ _ => diverge | S k => _do_copy_path k w end)
            src dest p) as -> by (destruct fuel; reflexivity).
  unfold _do_copy_path_body, bind, gets, id. rewrite Hp, Hf. cbn [lift ret].
  unfold call, modify. rewrite Hst, Hlnk, Hdir, Hreg. cbn [andb orb negb].
  unfold _log_debug, log, modify, _copy_node, archive_call, modify, ret, bind.
  unfold os_major, os_minor.
  destruct (fits_dev_t (st_rdev st)) eqn:Hfits; cbn [andb lift ret raise].
  - assert (0 <= st_rdev st < 2 ^ 64) as Hdev
      by (unfold fits_dev_t in Hfits; apply andb_true_iff in Hfits as [?%Z.leb_le ?%Z.ltb_lt];
          lia).
    rewrite (makedev_of_halves _ Hdev).
    destruct ((gnu_dev_major (st_rdev st) <? 2 ^ 31) && (gnu_dev_minor (st_rdev st) <? 2 ^ 31));
      cbn [lift ret raise];
      (eexists; split; [reflexivity |]); unfold grows; cbn; now rewrite ?app_nil_r.
  - eexists; split; [reflexivity |]. unfold grows; cbn; now rewrite ?app_nil_r.
Qed.

(** The disk [/dev/sda], device 8:0, becomes a block node.  A device number
    with bit 63 set has a major number of [2^31], which [os.makedev] does not
    take. *)
Lemma special_node_is_recreated_witness :
  let w := Examples.with_fs
             (fun path => if String.eqb path "/dev/sda"
                          then Some (mk_stat 0x61B0 0 0x800 10)
                          else if String.eqb path "/dev/odd"
                          then Some (mk_stat 0x61B0 0 (2 ^ 63) 10) else None)
             (fun _ => inl ENOENT) (fun _ => []) Examples.empty_world in
  let p := Examples.new_plugin "block" "/" Examples.null_predicate in
  (exists q,
     _do_copy_path 0 w "/dev/sda" None p = Returned None q /\
     grows p q [add_node "/dev/sda" 0x61B0 0x800] []) /\
  (exists q,
     _do_copy_path 0 w "/dev/odd" None p = Raised OverflowError q /\
     grows p q [] []).
Proof.
  cbn zeta. split.
  - apply (special_node_is_recreated 0
             (Examples.with_fs
                (fun path => if String.eqb path "/dev/sda"
                             then Some (mk_stat 0x61B0 0 0x800 10)
                             else if String.eqb path "/dev/odd"
                             then Some (mk_stat 0x61B0 0 (2 ^ 63) 10) else None)
                (fun _ => inl ENOENT) (fun _ => []) Examples.empty_world)
             "/dev/sda" None
             (Examples.new_plugin "block" "/" Examples.null_predicate)
             (mk_stat 0x61B0 0 0x800 10)); reflexivity.
  - apply (special_node_is_recreated 0
             (Examples.with_fs
                (fun path => if String.eqb path "/dev/sda"
                             then Some (mk_stat 0x61B0 0 0x800 10)
                             else if String.eqb path "/dev/odd"
                             then Some (mk_stat 0x61B0 0 (2 ^ 63) 10) else None)
                (fun _ => inl ENOENT) (fun _ => []) Examples.empty_world)
             "/dev/odd" None
             (Examples.new_plugin "block" "/" Examples.null_predicate)
             (mk_stat 0x61B0 0 (2 ^ 63) 10)); reflexivity.
Defined.

(** X11.  A symbolic link is archived as a link, and its target is not
    followed when the target is a directory, when stat'ing the target runs
    into a loop of links (ELOOP), or when the link points to itself: no
    recursive call is made, so the copy ends whatever the budget.  A link to
    a directory is not even recorded in [copied_files]; the others are, with
    the target as the link has it.  A relative target is archived as it
    is. *)
Theorem link_is_not_followed (fuel : nat) (w : World) (src : string) (dest : option string)
  (p : Plugin) (st : stat_result) :
  _timeout_hit p = false ->
  _is_forbidden_path p src = inr false ->
  os_lstat w src = Some st ->
  Stat.S_ISLNK (st_mode st) = true ->
  let linkdest := os_readlink w src in
  let absdest := os_path_normpath w (OsPath.join (OsPath.dirname src) linkdest) in
  os_path_isdir w absdest = true \/ os_stat w absdest = inl ELOOP \/ absdest = src ->
  exists q reldest,
    _do_copy_path fuel w src dest p = Returned None q /\
    (OsPath.isabs linkdest = false -> reldest = linkdest) /\
    grows p q
      [add_link reldest (strip_sysroot p src)]
      (if os_path_isdir w absdest then []
       else [mk_copied src (strip_sysroot p src) "yes" (Some linkdest)]).
Proof.
  intros Hp Hf Hst Hlnk linkdest absdest Hstop.
  assert (forall rec,
            exists q reldest,
              _do_copy_path_body w rec src dest p = Returned None q /\
              (OsPath.isabs linkdest = false -> reldest = linkdest) /\
              grows p q
                [add_link reldest (strip_sysroot p src)]
                (if os_path_isdir w absdest then []
                 else [mk_copied src (strip_sysroot p src) "yes" (Some linkdest)])) as H;
    [| destruct fuel; apply H].
  intros rec.
  unfold _do_copy_path_body, _copy_symlink, bind, gets, id, call, _log_debug, log, modify,
    archive_call, modify, ret.
  rewrite Hp, Hf. cbv beta iota. unfold lift, ret. rewrite Hst, Hlnk.
  fold linkdest. fold absdest.
  assert (os_stat w absdest = inl ELOOP -> os_path_isdir w absdest = false) as Hnodir
    by (intros H; unfold os_path_isdir; now rewrite H).
  destruct (OsPath.isabs linkdest) eqn:Habs; cbv beta iota;
    (destruct Hstop as [Hdir | [Hloop | Hself]];
     [ rewrite Hdir
     | rewrite (Hnodir Hloop), Hloop; cbn [Z.eqb ELOOP Pos.eqb]
     | destruct (os_path_isdir w absdest);
       [| destruct (match os_stat w absdest with inl errno => errno =? 40 | inr _ => false end);
          [| rewrite Hself, String.eqb_refl; cbn [negb]]] ]);
    (eexists _, _; split; [reflexivity |]; apply and_comm; split;
     [ unfold grows; cbn; rewrite ?app_nil_r; auto 6
     | intros; congruence || reflexivity ]).
Qed.

(** [/bin] points to the directory [usr/bin]: the link is archived and
    nothing else. *)
Lemma link_is_not_followed_witness :
  let p := Examples.new_plugin "filesys" "/" Examples.null_predicate in
  exists q reldest,
    _do_copy_path 0 usrmerge_world "/bin" None p = Returned None q /\
    (false = false -> reldest = "usr/bin") /\
    grows p q [add_link reldest "/bin"] [].
Proof.
  cbn zeta.
  apply (link_is_not_followed 0 usrmerge_world "/bin" None
           (Examples.new_plugin "filesys" "/" Examples.null_predicate)
           (mk_stat 0xA1FF 7 0 10)); try reflexivity.
  left. reflexivity.
Defined.

(** X12.  When a directory cannot be listed, the error decides what happens:
    on ELOOP ("too many levels of symbolic links") the directory is passed
    over with an error in the log and the copy goes on, nothing archived;
    any other [OSError] of the listing is raised again and leaves
    [_do_copy_path] as an exception. *)
Theorem unlistable_directory (fuel : nat) (w : World) (src : string) (dest : option string)
  (p : Plugin) (st : stat_result) (errno : Z) :
  _timeout_hit p = false ->
  _is_forbidden_path p src = inr false ->
  os_lstat w src = Some st ->
  Stat.S_ISDIR (st_mode st) = true ->
  os_access_R_OK w src = true ->
  os_listdir w src = inl errno ->
  exists evs,
    grows p (after_events evs p) [] [] /\
    _do_copy_path fuel w src dest p =
      if errno =? ELOOP
      then Returned None (after_events evs p)
      else Raised (OSError errno) (after_events evs p).
Proof.
  intros Hp Hf Hst Hdir Hacc Hlist.
  assert (Stat.S_ISLNK (st_mode st) = false) as Hlnk.
  { unfold Stat.S_ISDIR, Stat.S_ISLNK in *. apply Z.eqb_eq in Hdir. now rewrite Hdir. }
  destruct (errno =? ELOOP) eqn:Herrno;
    (eexists; split; [apply grows_after_events |]);
    (destruct fuel; cbn [_do_copy_path];
     unfold _do_copy_path_body, _copy_dir, try_except, bind, gets, id, call, modify;
     rewrite Hp, Hf; cbn [lift ret]; rewrite Hst, Hlnk, Hdir, Hacc, Hlist;
     cbn [andb lift raise is_OSError]; rewrite Herrno;
     unfold _log_error, log, modify, raise, ret;
     rewrite ?after_events_app; reflexivity).
Qed.

(** A directory that vanished between [lstat] and the listing (ENOENT) ends
    the copy with [OSError]. *)
Lemma unlistable_directory_witness :
  let w := mk_world (fun _ => Some (mk_stat 0x41ED 4096 0 10)) (fun _ => inl ENOENT)
             (fun _ => "") (fun _ => inl ENOENT) (fun _ => true) (fun _ _ => false) id id
             (fun path _ => path) (fun _ => []) (fun _ _ => false) (fun _ _ c => inr (c, 0))
             (fun _ _ => []) (fun _ => false) (fun _ _ => mk_result 0 "")
             255 "/var/tmp/sos-archive" (fun _ => false) in
  let p := Examples.new_plugin "filesys" "/" Examples.null_predicate in
  exists evs,
    grows p (after_events evs p) [] [] /\
    _do_copy_path 1 w "/run/user" None p = Raised (OSError ENOENT) (after_events evs p).
Proof.
  cbn zeta.
  apply (unlistable_directory 1 _ "/run/user" None
           (Examples.new_plugin "filesys" "/" Examples.null_predicate)
           (mk_stat 0x41ED 4096 0 10) ENOENT); reflexivity.
Defined.

(** ** Collection without a size limit *)

(** With no limit in force the loop queues every file it keeps and never
    reports the limit as reached. *)
Lemma scan_files_unlimited (w : World) (sizelimit : option Z) (files : list string)
  (cur : Z) (last : option string) (p : Plugin) :
  num_truthy sizelimit = false ->
  Forall (fun x => x <> "") files ->
  exists p' last',
    scan_files w sizelimit files cur last p = Returned (false, last') p' /\
    same_but_queue p p' /\
    copy_paths p' = copy_paths p ∪ list_to_set (kept p files).
Proof.
  intros Hlim Hne. revert cur last p.
  induction Hne as [|x files Hx Hne IH]; intros cur last p.
  - exists p, last. split; [reflexivity |]. split; [now destruct p |].
    cbn. now rewrite union_empty_r_L.
  - cbn [scan_files]. unfold bind at 1, gets at 1, id.
    destruct (is_forbidden_total p x Hx) as [b Hb]. rewrite Hb.
    unfold bind at 1, lift, ret at 1.
    assert (is_kept p x = negb b) as Hk by (unfold is_kept; rewrite Hb; now destruct b).
    destruct b.
    + unfold bind at 1, _log_debug, log, modify.
      destruct (IH cur (Some x) (after_events [Log DEBUG "skipping forbidden path '%s'"
                                                   [A_str x]] p))
        as (p' & last' & Hrun & Hsame & Hpaths).
      exists p', last'. split; [exact Hrun |]. split.
      * unfold same_but_queue in *. rewrite Hsame at 1. reflexivity.
      * rewrite Hpaths. unfold kept. cbn [List.filter]. rewrite Hk. reflexivity.
    + unfold bind at 1, call, modify. unfold bind at 1.
      assert (exists c q evs,
                 (match os_stat w x with
                  | inr st => ret (cur + st_size st)
                  | inl _ => _log_info "failed to stat '%s'" [A_str x] ;;; ret cur
                  end) (after_events [Call "os.stat" x] p)
                 = Returned c q /\ q = after_events evs p)
        as (c & q & evs & -> & ->).
      { destruct (os_stat w x).
        - eexists _, _, _. split; [unfold bind, _log_info, log, modify, ret; reflexivity |].
          now rewrite after_events_app.
        - eexists _, _, _. split; reflexivity. }
      rewrite Hlim. cbn [andb]. unfold bind at 1, _add_copy_paths, modify.
      destruct (IH c (Some x)
                   (with_copy_paths (fun s => s ∪ list_to_set [x]) (after_events evs p)))
        as (p' & last' & Hrun & Hsame & Hpaths).
      exists p', last'. split; [exact Hrun |]. split.
      * unfold same_but_queue in *. rewrite Hsame at 1. reflexivity.
      * rewrite Hpaths. unfold kept. cbn [List.filter]. rewrite Hk. cbn [negb].
        change (copy_paths p ∪ list_to_set [x] ∪ list_to_set (List.filter (is_kept p) files)
                = copy_paths p ∪ list_to_set (x :: List.filter (is_kept p) files)).
        cbn [list_to_set foldr]. now rewrite union_empty_r_L, <- (assoc_L (∪)).
Qed.

Lemma kept_perm_set (p : Plugin) (l l' : list string) :
  l ≡ₚ l' ->
  (list_to_set (kept p l) : gset string) = list_to_set (kept p l').
Proof.
  intros Hperm. apply set_eq. intros x. unfold kept.
  rewrite !elem_of_list_to_set, !list_elem_of_In, !filter_In, <- !list_elem_of_In.
  now rewrite Hperm.
Qed.

(** X13.  With the all-logs option set, or with a size limit of zero (given
    by the caller, or from the log-size option when the caller gives none),
    [add_copy_spec] applies no limit at all: every file of the glob that is
    not forbidden is queued in [copy_paths], whatever the sizes, and nothing
    is tailed or linked. *)
Theorem no_limit_queues_every_file (w : World) (p : Plugin) (spec joined : string)
  (sizelimit : option Z) (tailit : bool) (pred : option SoSPredicate) :
  test_predicate w p false pred = true ->
  get_option_all_logs p = true \/ sizelimit = Some 0 \/
    (sizelimit = None /\ get_option_log_size p = 0) ->
  spec <> "" ->
  sysroot_joined p spec = inr joined ->
  Forall (fun f => f <> "") (glob_glob w joined) ->
  exists p',
    add_copy_spec w (Spec spec) sizelimit tailit pred p = Returned None p' /\
    copy_paths p' = copy_paths p ∪ list_to_set (kept p (glob_glob w joined)) /\
    copy_strings p' = copy_strings p /\
    archive p' = archive p /\
    copied_files p' = copied_files p.
Proof.
  intros Hpred Hno Hspec Hj Hne.
  assert (num_truthy (effective_sizelimit p sizelimit) = false) as Hlim.
  { unfold effective_sizelimit.
    destruct Hno as [-> | [-> | [-> ->]]]; [now destruct sizelimit | |];
      now destruct (get_option_all_logs p). }
  unfold add_copy_spec. unfold bind at 1, gets at 1, id. rewrite Hpred.
  cbn [negb copyspecs_truthy copyspecs_list copyspec_loop].
  destruct spec as [|c spec']; [contradiction |]. cbn [PyStr.truthy negb].
  unfold bind at 1, add_one_copyspec. unfold bind at 1, gets at 1, id. rewrite Hj.
  unfold bind at 1, lift, ret at 1. unfold bind at 1, call at 1, modify.
  destruct (List.length (glob_glob w joined) =? 0)%nat eqn:Hlen.
  { apply Nat.eqb_eq, length_zero_iff_nil in Hlen. rewrite Hlen.
    unfold bind, ret. eexists. split; [reflexivity |].
    cbn. rewrite union_empty_r_L. auto. }
  unfold bind at 1. rewrite for_each_calls, after_events_app. unfold bind at 1.
  set (q0 := after_events ([Call "glob.glob" joined] ++
                           map (Call "os.path.getmtime") (glob_glob w joined)) p).
  destruct (scan_files_unlimited w (effective_sizelimit p sizelimit)
              (sort_newest_first (getmtime w) (glob_glob w joined)) 0 None q0 Hlim)
    as (p2 & last' & -> & Hsame & Hpaths).
  { now rewrite sort_newest_first_perm. }
  destruct (same_but_queue_fields w q0 p2 Hsame) as (Harch & Hstr & Hcop & _).
  unfold bind, ret. exists p2. split; [reflexivity |].
  split; [| auto].
  rewrite Hpaths. change (copy_paths q0) with (copy_paths p). f_equal.
  change (kept q0) with (kept p). apply kept_perm_set, sort_newest_first_perm.
Qed.

(** Three 10 MB logs under a 25 MB limit: with all-logs set, all three are
    queued. *)
Lemma no_limit_queues_every_file_witness :
  let p := mk_plugin "logs" "/" "sos_commands" (mk_opts "auto" false 25 true)
                     (Some Examples.null_predicate) None false [] [] [] ∅ [] [] [] [] in
  exists p',
    add_copy_spec Examples.logs_world (Spec "/var/log/app.log*") None true None p
      = Returned None p' /\
    copy_paths p' =
      copy_paths p ∪ list_to_set (kept p ["/var/log/app.log"; "/var/log/app.log.2";
                                          "/var/log/app.log.1"]) /\
    copy_strings p' = copy_strings p /\
    archive p' = archive p /\
    copied_files p' = copied_files p.
Proof.
  cbn zeta.
  apply (no_limit_queues_every_file Examples.logs_world _ "/var/log/app.log*"
           "/var/log/app.log*" None true None); try reflexivity.
  - left. reflexivity.
  - discriminate.
  - repeat constructor; discriminate.
Defined.

(** ** Strings queued as files *)

Lemma archive_lookup_last (entries : list archive_entry) (c : content) (path : string) :
  archive_lookup (entries ++ [add_string c path]) path = Some c.
Proof.
  induction entries as [|e entries IH]; cbn [app archive_lookup].
  - now rewrite String.eqb_refl.
  - now rewrite IH.
Qed.

Lemma collect_strings_loop_archives (l : list (content * string)) (p : Plugin) :
  _timeout_hit p = false ->
  exists q,
    collect_strings_loop l p = Returned tt q /\
    grows p q (map (fun e => add_string e.1 (OsPath.joinl "sos_strings" [name p; e.2])) l) [] /\
    copy_strings q = copy_strings p /\
    plugin_name q = plugin_name p.
Proof.
  revert p. induction l as [|[c f] l IH]; intros p Hp.
  - exists p. split; [reflexivity |]. unfold grows. cbn. now rewrite !app_nil_r.
  - cbn [collect_strings_loop]. unfold bind at 1, gets at 1, id. rewrite Hp.
    unfold bind at 1, _log_info, log, modify. unfold bind at 1, try_except, archive_call, modify.
    set (p1 := with_archive _ _).
    destruct (IH p1 Hp) as (q & -> & (Ht & Hs & Hf & Ha & Hc) & Hstr & Hname).
    exists q. split; [reflexivity |]. split; [| split; [exact Hstr | exact Hname]].
    unfold grows. rewrite Ht, Hs, Hf, Ha, Hc. cbn. rewrite <- app_assoc. auto.
Qed.

(** X14.  A string handed to [add_string_as_file] under a predicate that
    holds is queued, and [_collect_strings] then writes every queued string
    to the archive as [sos_strings/<plugin>/<filename>], in the order of the
    queue, the new one last, so that reading its name back gives the content
    that was handed in.  The queue is not emptied by the collection. *)
Theorem string_as_file_round_trip (w : World) (c : content) (filename : string)
  (pred : option SoSPredicate) (p : Plugin) :
  _timeout_hit p = false ->
  test_predicate w p false pred = true ->
  exists p1 q,
    add_string_as_file w c filename pred p = Returned tt p1 /\
    _collect_strings p1 = Returned tt q /\
    archive q =
      archive p ++
      map (fun e => add_string e.1 (OsPath.joinl "sos_strings" [name p; e.2]))
          (copy_strings p ++ [(c, filename)]) /\
    copy_strings q = copy_strings p ++ [(c, filename)] /\
    archive_lookup (archive q) (OsPath.joinl "sos_strings" [name p; filename]) = Some c.
Proof.
  intros Hp Hpred. unfold add_string_as_file, bind, gets, id. rewrite Hpred. cbn [negb].
  unfold modify, _log_debug, log, modify.
  set (p1 := after_events _ _).
  destruct (collect_strings_loop_archives (copy_strings p1) p1 Hp)
    as (q & Hrun & (_ & _ & _ & Ha & _) & Hstr & _).
  exists p1, q. split; [reflexivity |]. split; [exact Hrun |].
  change (copy_strings p1) with (copy_strings p ++ [(c, filename)]) in *.
  change (archive p1) with (archive p) in Ha. change (name p1) with (name p) in Ha.
  split; [exact Ha | split; [exact Hstr |]].
  rewrite Ha, map_app, app_assoc. apply archive_lookup_last.
Qed.

(** The plugin [net] queues its routing table as [routes]. *)
Lemma string_as_file_round_trip_witness :
  let p := Examples.new_plugin "net" "/" Examples.null_predicate in
  exists p1 q,
    add_string_as_file Examples.empty_world (Text "default via 10.0.0.1") "routes" None p
      = Returned tt p1 /\
    _collect_strings p1 = Returned tt q /\
    archive q = [add_string (Text "default via 10.0.0.1") "sos_strings/net/routes"] /\
    copy_strings q = [(Text "default via 10.0.0.1", "routes")] /\
    archive_lookup (archive q) "sos_strings/net/routes" = Some (Text "default via 10.0.0.1").
Proof.
  cbn zeta.
  apply (string_as_file_round_trip Examples.empty_world (Text "default via 10.0.0.1") "routes"
           None (Examples.new_plugin "net" "/" Examples.null_predicate)); reflexivity.
Defined.

(** ** Queueing commands *)

Lemma test_predicate_congr (w : World) (p q : Plugin) (cmd : bool)
  (pred : option SoSPredicate) :
  predicate q = predicate p -> cmd_predicate q = cmd_predicate p ->
  test_predicate w q cmd pred = test_predicate w p cmd pred.
Proof. intros H1 H2. unfold test_predicate, get_predicate. now rewrite H1, H2. Qed.

Lemma add_cmd_output_loop (w : World) (mk : string -> SoSCommand) (pred : option SoSPredicate)
  (cmds : list string) (p : Plugin) :
  exists q,
    for_each cmds (fun cmd => _add_cmd_output w (mk cmd) pred) p = Returned tt q /\
    only_queues p q /\
    collect_cmds q =
      collect_cmds p ++ (if test_predicate w p true pred then map mk cmds else []).
Proof.
  revert p. induction cmds as [|c cmds IH]; intros p.
  - exists p. split; [reflexivity |]. split; [repeat split |].
    destruct (test_predicate _ _ _ _); now rewrite app_nil_r.
  - cbn [for_each]. unfold bind at 1.
    assert (exists p1,
               _add_cmd_output w (mk c) pred p = Returned tt p1 /\
               only_queues p p1 /\
               collect_cmds p1 =
                 collect_cmds p ++ (if test_predicate w p true pred then [mk c] else []))
      as (p1 & -> & (G1 & G2 & G3 & G4 & G5 & G6) & Hp1).
    { unfold _add_cmd_output, bind, gets, id, _log_debug, _log_info, log, modify.
      destruct (test_predicate w p true pred); (eexists; split; [reflexivity |]);
        (split; [repeat split; cbn; now rewrite ?execs_app, ?app_nil_r |]);
        cbn; now rewrite ?app_nil_r. }
    destruct (IH p1) as (q & -> & (H1 & H2 & H3 & H4 & H5 & H6) & Hq).
    exists q. split; [reflexivity |]. split.
    + unfold only_queues. rewrite H1, H2, H3, H4, H5, H6. auto 7.
    + rewrite Hq, Hp1. rewrite (test_predicate_congr w p p1) by assumption.
      destruct (test_predicate w p true pred); cbn; now rewrite <- app_assoc.
Qed.

(** X15.  [add_cmd_output] runs nothing: it only queues.  The predicate
    decides for the whole list at once: when it holds, every command of the
    list is queued, in the order given, each with the options of the call
    and with the log-size option as its size limit when the caller gave
    none; when it does not hold, nothing is queued. *)
Theorem add_cmd_output_queues_all_or_nothing (w : World) (cmds : list string)
  (suggest_filename root_symlink : option string) (timeout : option Z)
  (stderr chroot : bool) (runat : option string) (env : option (list (string * string)))
  (binary : bool) (sizelimit : option Z) (pred : option SoSPredicate)
  (subdir : option string) (p : Plugin) :
  exists q,
    add_cmd_output w cmds suggest_filename root_symlink timeout stderr chroot runat env
                   binary sizelimit pred subdir p = Returned tt q /\
    only_queues p q /\
    collect_cmds q =
      collect_cmds p ++
      (if test_predicate w p true pred
       then map (fun cmd =>
                   mk_cmd cmd suggest_filename root_symlink timeout stderr chroot runat env
                          binary (Some (default (get_option_log_size p) sizelimit)) subdir)
                cmds
       else []).
Proof.
  unfold add_cmd_output. unfold bind at 1, gets at 1, id. unfold bind at 1.
  assert (exists logs,
             (if (1 <? length cmds)%nat
                 && (optstr_truthy suggest_filename || optstr_truthy root_symlink)
              then _log_warn "ambiguous filename or symlink for command list" []
              else ret tt) p = Returned tt (after_events logs p) /\ Forall is_Log logs)
    as (logs & -> & Hlogs).
  { destruct (_ && _).
    - eexists. split; [reflexivity | repeat constructor].
    - exists []. split; [now rewrite after_events_nil | constructor]. }
  cbv zeta.
  destruct (add_cmd_output_loop w
              (fun cmd => mk_cmd cmd suggest_filename root_symlink timeout stderr chroot runat
                                 env binary
                                 (match sizelimit with
                                  | None => Some (get_option_log_size p)
                                  | Some _ => sizelimit
                                  end) subdir)
              pred cmds (after_events logs p))
    as (q & Hrun & (H1 & H2 & H3 & H4 & H5 & H6) & Hq).
  exists q. split; [exact Hrun |]. split.
  - unfold only_queues. rewrite H1, H2, H3, H4, H5, H6. repeat split.
    cbn. now rewrite execs_app, (execs_logs logs Hlogs), app_nil_r.
  - rewrite Hq. rewrite (test_predicate_congr w p (after_events logs p)) by reflexivity.
    cbn [collect_cmds after_events with_trace].
    destruct (test_predicate w p true pred); [| reflexivity].
    f_equal. apply map_ext. intros cmd. now destruct sizelimit.
Qed.

(** ** Substitution in a collected file *)

Lemma get_dest_raises (p : Plugin) (src : string) (e : exn) :
  _get_dest_for_srcpath p src = inl e -> e = IndexError.
Proof.
  unfold _get_dest_for_srcpath, sysroot_joined, join_sysroot.
  destruct (use_sysroot p); [| discriminate]. destruct src; [| discriminate].
  now intros [= <-].
Qed.

(** The outcomes of [do_file_sub]. *)
Lemma do_file_sub_outcomes (w : World) (src regexp subst : string) (p : Plugin) :
  (exists n q entries,
     do_file_sub w src regexp subst p = Returned n q /\
     grows p q entries [] /\
     ((n = 0 /\ entries = []) \/
      (n <> 0 /\
       exists path content result,
         _get_dest_for_srcpath p src = inr (Some path) /\
         archive_lookup (archive p) path = Some content /\
         re_subn w regexp subst content = inr (result, n) /\
         entries = [add_string result src]))) \/
  (exists e q,
     do_file_sub w src regexp subst p = Raised e q /\
     is_OSError_or_IOError e = false /\
     grows p q [] []).
Proof.
  unfold do_file_sub, bind, gets, id, try_except, lift, _log_debug, _log_error, log, modify,
    archive_open_file_read, archive_call, modify, ret, raise.
  destruct (_get_dest_for_srcpath p src) as [e | path] eqn:Hdest.
  { right. apply get_dest_raises in Hdest as ->. exists IndexError, p.
    split; [reflexivity |]. split; [reflexivity | apply grows_refl]. }
  destruct (optstr_truthy path) eqn:Hpath; cbn [negb].
  2: { left. eexists 0, _, []. split; [reflexivity |].
       split; [rewrite after_events_app; apply grows_after_events | now left]. }
  destruct path as [path |]; [| discriminate]. cbn [default from_option].
  change (archive (after_events _ (after_events _ p))) with (archive p).
  destruct (archive_lookup (archive p) path) as [content |] eqn:Hlook.
  2: { left. cbn [is_OSError_or_IOError exn_errno].
       rewrite bool_decide_eq_true_2 by reflexivity.
       rewrite !after_events_app.
       eexists 0, _, []. split; [reflexivity |].
       split; [apply grows_after_events | now left]. }
  destruct (re_subn w regexp subst content) as [e | [result n]] eqn:Hsub.
  { destruct (is_OSError_or_IOError e) eqn:He.
    - left. destruct (bool_decide _); rewrite !after_events_app;
        (eexists 0, _, []; split; [reflexivity |]);
        (split; [apply grows_after_events | now left]).
    - right. exists e. eexists. split; [reflexivity |].
      split; [exact He | rewrite after_events_app; apply grows_after_events]. }
  destruct (n =? 0) eqn:Hn; cbn [negb].
  - left. eexists 0, _, []. split; [reflexivity |].
    split; [rewrite after_events_app; apply grows_after_events | now left].
  - left. eexists n, _, [add_string result src]. split; [reflexivity |]. split.
    + unfold grows. cbn. rewrite app_nil_r. auto 6.
    + right. split; [now apply Z.eqb_neq |].
      exists path, content, result. auto.
Qed.

(** X16.  What [do_file_sub] can do, in full.  It returns 0 and leaves the
    archive as it is, unless the file was collected, the archive has it
    under its destination and the expression matched: then it returns the
    number of matches, which is not 0, and writes the substituted text under
    the name it was called with.  [OSError] and [IOError] never leave it; an
    exception that does leaves the archive as it was. *)
Theorem file_sub_effect (w : World) (src regexp subst : string) (p : Plugin) :
  (exists n q entries,
     do_file_sub w src regexp subst p = Returned n q /\
     grows p q entries [] /\
     ((n = 0 /\ entries = []) \/
      (n <> 0 /\
       exists path content result,
         _get_dest_for_srcpath p src = inr (Some path) /\
         archive_lookup (archive p) path = Some content /\
         re_subn w regexp subst content = inr (result, n) /\
         entries = [add_string result src]))) \/
  (exists e q,
     do_file_sub w src regexp subst p = Raised e q /\
     is_OSError_or_IOError e = false /\
     grows p q [] []).
Proof. apply do_file_sub_outcomes. Qed.

(** ** Substitution in command output *)

Lemma cmd_output_sub_loop_effect (w : World) (globstr regexp subst : string)
  (p0 : Plugin) (l : list ExecutedCommand) (replacements : option Z) (p : Plugin) :
  (forall called, called ∈ l -> called ∈ executed_commands p0) ->
  cmddir p = cmddir p0 ->
  exists r q new,
    cmd_output_sub_loop w globstr regexp subst l replacements p = Returned r q /\
    grows p q new [] /\
    cmddir q = cmddir p /\
    executed_commands q = executed_commands p /\
    Forall (rewrites_text_output w p0 globstr) new.
Proof.
  revert replacements p. induction l as [|called l IH]; intros replacements p Hin Hdir.
  - exists replacements, p, []. split; [reflexivity |].
    split; [apply grows_refl | auto].
  - assert (forall c, c ∈ l -> c ∈ executed_commands p0) as Hin'
      by (intros c Hc; apply Hin; now right).
    assert (called ∈ executed_commands p0) as Hcalled by (apply Hin; now left).
    cbn [cmd_output_sub_loop]. unfold bind at 1.
    assert (exists r q new,
               try_except
                 (r <- cmd_output_sub_body w globstr regexp subst called replacements ;;
                  ret (Some r))
                 any_Exception
                 (fun e =>
                    _log_error "regex substitution failed for '%s' with: '%s'"
                               [A_str (exe called); A_exn e] ;;;
                    ret None) p = Returned r q /\
               grows p q new [] /\
               cmddir q = cmddir p /\
               executed_commands q = executed_commands p /\
               Forall (rewrites_text_output w p0 globstr) new)
      as (r & q & new & -> & G & Hd & Hx & Hnew).
    { unfold try_except, cmd_output_sub_body, any_Exception.
      destruct (file called) as [f |] eqn:Hfile.
      2: { eexists _, p, []. split; [reflexivity |]. split; [apply grows_refl | auto]. }
      destruct (String.eqb (binary_flag called) "yes") eqn:Hbin.
      { unfold bind, _log_warn, log, modify, ret. eexists _, _, [].
        split; [reflexivity |]. split; [apply grows_after_events | auto]. }
      destruct (fnmatch_fnmatch w (exe called) globstr) eqn:Hmatch.
      2: { eexists _, p, []. split; [reflexivity |]. split; [apply grows_refl | auto]. }
      unfold bind, gets, id, _log_debug, _log_error, log, modify, archive_open_file_read,
        archive_call, modify, lift, ret, raise.
      change (archive (after_events _ p)) with (archive p).
      destruct (archive_lookup (archive p) (OsPath.join (cmddir p) f)) as [content |].
      2: { rewrite after_events_app. eexists _, _, [].
           split; [reflexivity |]. split; [apply grows_after_events | auto]. }
      destruct (re_subn w regexp subst content) as [e | [result n]].
      { rewrite after_events_app. eexists _, _, [].
        split; [reflexivity |]. split; [apply grows_after_events | auto]. }
      destruct (n =? 0); cbn [negb].
      - eexists _, _, []. split; [reflexivity |]. split; [apply grows_after_events | auto].
      - eexists _, _, [_]. split; [reflexivity |]. split.
        + unfold grows. cbn. rewrite app_nil_r. auto 6.
        + split; [reflexivity |]. split; [reflexivity |].
          constructor; [| constructor].
          exists called, f, result. rewrite <- Hdir.
          repeat split; try assumption. now apply String.eqb_neq. }
    destruct r as [replacements' |].
    + destruct (IH replacements' q Hin') as (r & q' & new' & -> & G' & Hd' & Hx' & Hnew');
        [congruence |].
      exists r, q', (new ++ new'). split; [reflexivity |].
      split; [exact (grows_trans _ _ _ _ _ _ _ G G') |].
      split; [congruence |]. split; [congruence |]. now apply Forall_app.
    + exists None, q, new. split; [reflexivity |]. auto.
Qed.

(** X17.  [do_cmd_output_sub] never raises, whatever the archive holds and
    whatever the expression: it always returns.  All it adds to the archive
    are rewritten outputs of commands the plugin has run, and only of those
    whose output has a file, is not binary and whose command line matches
    [*cmd*]; binary output and the list of executed commands are never
    touched. *)
Theorem cmd_output_sub_rewrites_only_matching_text (w : World) (cmd regexp subst : string)
  (p : Plugin) :
  exists r q new,
    do_cmd_output_sub w cmd regexp subst p = Returned r q /\
    grows p q new [] /\
    executed_commands q = executed_commands p /\
    Forall (rewrites_text_output w p ("*" +:+ cmd +:+ "*")) new.
Proof.
  unfold do_cmd_output_sub. unfold bind at 1, gets at 1, id.
  unfold bind at 1, _log_debug, log, modify.
  set (p1 := after_events _ p).
  destruct (list_truthy (executed_commands p)); cbn [negb].
  - destruct (cmd_output_sub_loop_effect w ("*" +:+ cmd +:+ "*") regexp subst p
                (executed_commands p) None p1)
      as (r & q & new & Hrun & G & _ & Hx & Hnew); [auto | reflexivity |].
    exists r, q, new. split; [exact Hrun |].
    split; [exact (grows_trans _ _ _ _ _ _ _ (grows_after_events _ p) G) |].
    split; [exact Hx | exact Hnew].
  - exists (Some 0), p1, []. split; [reflexivity |].
    split; [apply grows_after_events | auto].
Qed.

(** ** The public [get_cmd_output_now] *)

Lemma get_cmd_output_now_name (fuel : nat) (w : World) (c : SoSCommand)
  (p : Plugin) (r : option string) (p' : Plugin) :
  _get_cmd_output_now fuel w c p = Returned r p' ->
  _timeout_hit p = false ->
  exists outfn out,
    r = Some (OsPath.join (archive_get_archive_path w) outfn) /\
    archive p' = archive p ++ archived_output c out outfn /\
    let base := command_filename_base w p (filename_source c) (subdir c) in
    outfn = base \/ exists n : Z, 2 <= n /\ outfn = base +:+ "_" +:+ pretty n.
Proof.
  intros H Hp. unfold _get_cmd_output_now in H. unfold bind at 1, gets at 1, id in H.
  rewrite Hp in H. unfold bind at 1 in H.
  destruct (get_command_output _ _ _ _ _ _ _ _ _ _ p) as [res q | e q |] eqn:Hrun;
    try discriminate.
  apply get_command_output_returned in Hrun
    as [(Hq & _) | (_ & evs & tr & req & -> & -> & Hreq)]; [congruence |].
  unfold bind at 1 in H. destruct (PyStr.first_word (cmd c)); [| discriminate].
  unfold lift, ret at 1 in H. unfold bind at 1, _log_debug, log, modify in H.
  unfold bind at 1 in H.
  destruct (_make_command_filename _ _ _ _ _) as [outfn q | e q |] eqn:Hfn in H;
    try discriminate.
  apply make_command_filename_free in Hfn as (-> & _ & Hshape).
  unfold bind at 1, ret at 1 in H.
  exists outfn, (output (sos_get_command_output w tr req)).
  unfold archive_call, modify, bind, ret in H. unfold archived_output.
  split; [| split].
  - destruct (binary c), (optstr_truthy (root_symlink c)); now injection H as <- <-.
  - destruct (binary c), (optstr_truthy (root_symlink c));
      injection H as <- <-; cbn; rewrite <- ?app_assoc; auto.
  - cbv zeta.
    change (command_filename_base w (after_events _ (after_events evs p)) (filename_source c)
              (subdir c))
      with (command_filename_base w p (filename_source c) (subdir c)) in Hshape.
    destruct Hshape as [-> | (n & Hn & -> & _)]; [now left | right; eauto].
Qed.

(** X18.  The public [get_cmd_output_now] takes [suggest_filename] and
    [root_symlink] and hands neither on: when it returns a path, the one
    entry it has added to the archive is the output of the command, stored
    under the name made from the command line itself (with a suffix [_2],
    [_3], ... on a collision), and no link is added, whatever the two
    arguments are.  When the predicate does not hold or the timeout was hit
    it returns [None] and adds nothing. *)
Theorem public_output_now_ignores_name_and_link (fuel : nat) (w : World) (exe : string)
  (suggest_filename root_symlink : option string) (timeout : option Z)
  (stderr chroot : bool) (runat : option string) (env : option (list (string * string)))
  (binary : bool) (sizelimit : option Z) (pred : option SoSPredicate)
  (p : Plugin) (r : option string) (q : Plugin) :
  get_cmd_output_now fuel w exe suggest_filename root_symlink timeout stderr chroot runat
                     env binary sizelimit pred p = Returned r q ->
  (r = None /\ archive q = archive p /\ executed_commands q = executed_commands p) \/
  (exists outfn out,
     r = Some (OsPath.join (archive_get_archive_path w) outfn) /\
     archive q =
       archive p ++
       [if binary then add_binary (Text out) outfn else add_string (Text out) outfn] /\
     let base := command_filename_base w p exe None in
     outfn = base \/ exists n : Z, 2 <= n /\ outfn = base +:+ "_" +:+ pretty n).
Proof.
  unfold get_cmd_output_now. unfold bind at 1, gets at 1, id.
  destruct (test_predicate w p true pred); cbn [negb].
  - intros H. destruct (_timeout_hit p) eqn:Hp.
    + left. rewrite (get_cmd_output_now_timeout fuel w _ p Hp) in H.
      injection H as <- <-. auto.
    + right. apply get_cmd_output_now_name in H as (outfn & out & -> & Ha & Hshape);
        [| exact Hp].
      exists outfn, out. split; [reflexivity |]. split; [exact Ha | exact Hshape].
  - unfold bind, _log_info, log, modify, ret. intros [= <- <-]. left. auto.
Qed.

(** On a host without the command, asking for the name [version] and the
    link [v] still stores the (empty) output as [nosuchcmd_--version], with
    no link. *)
Lemma public_output_now_ignores_name_and_link_witness :
  exists q,
    get_cmd_output_now 1 Examples.bare_world "nosuchcmd --version" (Some "version") (Some "v")
                       (Some 300) true true None None false None None Examples.demo_plugin
      = Returned (Some "/var/tmp/sos-archive/sos_commands/demo/nosuchcmd_--version") q /\
    archive q = [add_string (Text "") "sos_commands/demo/nosuchcmd_--version"].
Proof.
  eexists. split; [vm_compute; reflexivity |].
  destruct (public_output_now_ignores_name_and_link 1 Examples.bare_world
              "nosuchcmd --version" (Some "version") (Some "v") (Some 300) true true None None
              false None None Examples.demo_plugin _ _ eq_refl)
    as [(H & _) | (outfn & out & _ & H & _)]; [discriminate H |].
  reflexivity.
Defined.

(** ** The timeout of a plugin *)

Lemma get_option_loop_not_none (names : list string) (parms : list pyval)
  (optionname : string) (val : pyval) :
  Options.get_option_loop names parms optionname = Some val -> val <> VNone.
Proof.
  revert parms. induction names as [|n names IH]; intros [|v parms]; try discriminate.
  cbn [Options.get_option_loop]. destruct (String.eqb n optionname); [| apply IH].
  destruct v; try apply IH; intros [= <-]; discriminate.
Qed.

(** X19.  The [timeout] property never raises, whatever the options hold
    (strings that are not numbers included), and it never gives a negative
    number of seconds other than the class default itself: its value is
    [None], a number that is not negative, or [plugin_timeout]. *)
Theorem timeout_is_never_negative (int_of_str : string -> option Z) (o : Options.Options) :
  exists r,
    Options.timeout int_of_str o = inr r /\
    forall t, r = Some t -> 0 <= t \/ t = Options.plugin_timeout o.
Proof.
  unfold Options.timeout.
  assert (Options.get_option o "timeout" (VInt 0) <> VNone) as Hown.
  { unfold Options.get_option. cbn [existsb Options.global_options String.eqb Ascii.eqb
                                     Bool.eqb orb].
    destruct (Options.get_option_loop _ _ _) eqn:E; [| discriminate].
    now apply get_option_loop_not_none in E. }
  assert (forall v, v <> VNone ->
                    (exists z, Options.py_int int_of_str v = inr z) \/
                    Options.py_int int_of_str v = inl ValueError) as Hint.
  { intros [| b | z | s] Hv; cbn; [contradiction | eauto..].
    destruct (int_of_str s); eauto. }
  assert (forall z, exists r,
            (if z >? -1 then inr (Some z) else inr (Some (Options.plugin_timeout o)))
            = (inr r : option_exn + option Z) /\
            forall t, r = Some t -> 0 <= t \/ t = Options.plugin_timeout o) as Hfinal.
  { intros z. destruct (z >? -1) eqn:Hz; eexists; (split; [reflexivity |]);
      intros t [= <-]; [left; apply Z.gtb_lt in Hz; lia | now right]. }
  assert (exists r, inr (Some (Options.plugin_timeout o)) = (inr r : option_exn + option Z) /\
                    forall t, r = Some t -> 0 <= t \/ t = Options.plugin_timeout o) as Hdefault.
  { eexists. split; [reflexivity |]. intros t [= <-]. now right. }
  destruct (Hint _ Hown) as [[own ->] | ->]; [| exact Hdefault].
  destruct (Options.get_option o "plugin_timeout" (VInt 0)) as [| b | g | s] eqn:Hg;
    try apply Hfinal;
    (destruct (own =? -1);
     [ match goal with
       | |- context [Options.py_int int_of_str ?v] =>
           destruct (Hint v ltac:(discriminate)) as [[z ->] | ->];
           [apply Hfinal | exact Hdefault]
       end
     | destruct (own >? -1) eqn:Hown1; [apply Hfinal |];
       exists None; split; [reflexivity | discriminate] ]).
Qed.

(** X20.  Which timeout wins.  With the plugin's own [timeout] option an
    integer and the global [--plugin-timeout] unset or an integer: the own
    option wins whenever it is not negative; at its default of -1 the global
    option is used, when it is set and not negative; the class default
    [plugin_timeout] is used otherwise.  The exception is an own option
    below -1 with the global option set: the property then gives [None]. *)
Theorem timeout_precedence (int_of_str : string -> option Z) (o : Options.Options)
  (own : Z) (global : option Z) :
  Options.get_option o "timeout" (VInt 0) = VInt own ->
  Options.cmdlineopts_attr o "plugin_timeout" = from_option VInt VNone global ->
  Options.timeout int_of_str o =
    inr (if 0 <=? own then Some own
         else match global with
              | None => Some (Options.plugin_timeout o)
              | Some g =>
                  if own =? -1
                  then Some (if 0 <=? g then g else Options.plugin_timeout o)
                  else None
              end).
Proof.
  intros Hown Hglobal. unfold Options.timeout. rewrite Hown.
  assert (Options.get_option o "plugin_timeout" (VInt 0) = from_option VInt VNone global)
    as -> by exact Hglobal.
  assert (forall z, (z >? -1) = (0 <=? z)) as Hgt.
  { intros z. rewrite Z.gtb_ltb. destruct (0 <=? z) eqn:E.
    - apply Z.ltb_lt. apply Z.leb_le in E. lia.
    - apply Z.ltb_ge. apply Z.leb_gt in E. lia. }
  cbn [Options.py_int].
  destruct global as [g |]; cbn [from_option Options.py_int].
  - destruct (own =? -1) eqn:E1.
    + apply Z.eqb_eq in E1 as ->. change (0 <=? -1) with false. cbv iota.
      rewrite Hgt. now destruct (0 <=? g).
    + rewrite Hgt. destruct (0 <=? own) eqn:Ho; [| reflexivity].
      now rewrite Hgt, Ho.
  - rewrite Hgt. now destruct (0 <=? own).
Qed.

(** A plugin run with [-k plugin.timeout=-5] and [--plugin-timeout 60] has
    no timeout at all. *)
Lemma timeout_precedence_witness :
  Options.timeout (fun _ => None)
    (Options.mk_options ["timeout"] [VInt (-5)]
       (fun name => if String.eqb name "plugin_timeout" then VInt 60 else VNone) 300)
  = inr None.
Proof.
  apply (timeout_precedence (fun _ => None)
           (Options.mk_options ["timeout"] [VInt (-5)]
              (fun name => if String.eqb name "plugin_timeout" then VInt 60 else VNone) 300)
           (-5) (Some 60)); reflexivity.
Defined.

(** ** Setting and reading options *)

Lemma construct_type (int_of_str : string -> option Z) (t : pytype) (v stored : pyval) :
  Options.construct int_of_str t v = inr stored -> type_of stored = t.
Proof.
  destruct t; cbn; try discriminate; try (now intros [= <-]).
  destruct (Options.py_int int_of_str v); [discriminate | now intros [= <-]].
Qed.

Lemma pytype_eqb_eq (a b : pytype) : pytype_eqb a b = true <-> a = b.
Proof. destruct a, b; cbn; split; congruence. Qed.

Lemma set_option_loop_effect (int_of_str : string -> option Z) (names : list string)
  (parms : list pyval) (name : string) (value : pyval) (found : bool) (parms' : list pyval) :
  Options.set_option_loop int_of_str names parms name value = inr (found, parms') ->
  (forall other, other <> name ->
     Options.get_option_loop names parms' other = Options.get_option_loop names parms other) /\
  match current_entry names parms name with
  | None => found = false /\ parms' = parms
  | Some old =>
      found = true /\
      exists stored,
        current_entry names parms' name = Some stored /\
        (old <> VNone -> type_of stored = type_of old) /\
        (old = VNone \/ type_of old = type_of value -> stored = value) /\
        (stored <> VNone -> Options.get_option_loop names parms' name = Some stored)
  end.
Proof.
  revert parms found parms'.
  induction names as [|n names IH]; intros [|v parms] found parms';
    cbn [Options.set_option_loop];
    try (intros [= <- <-]; split; [reflexivity | split; reflexivity]).
  destruct (String.eqb n name) eqn:Hn.
  - apply String.eqb_eq in Hn as ->.
    replace (current_entry (name :: names) (v :: parms) name) with (Some v)
      by (cbn [current_entry]; now rewrite String.eqb_refl).
    assert (forall stored other, other <> name ->
              Options.get_option_loop (name :: names) (stored :: parms) other =
              Options.get_option_loop (name :: names) (v :: parms) other) as Hother.
    { intros stored other Ho. cbn [Options.get_option_loop].
      now replace (String.eqb name other) with false
        by (symmetry; apply String.eqb_neq; congruence). }
    assert (forall stored, stored <> VNone ->
              Options.get_option_loop (name :: names) (stored :: parms) name = Some stored)
      as Hread.
    { intros stored Hs. cbn [Options.get_option_loop]. rewrite String.eqb_refl.
      now destruct stored. }
    assert (forall stored,
              current_entry (name :: names) (stored :: parms) name = Some stored) as Hcur
      by (intros stored; cbn [current_entry]; now rewrite String.eqb_refl).
    destruct (negb (pytype_eqb (type_of v) (type_of value))
              && negb (pytype_eqb (type_of v) NoneType)) eqn:Hconv.
    + apply andb_true_iff in Hconv as [Hdiff Hnone].
      apply negb_true_iff in Hdiff, Hnone.
      destruct (Options.construct int_of_str (type_of v) value) as [e | stored] eqn:Hc;
        [discriminate |].
      intros [= <- <-]. split; [apply Hother |]. split; [reflexivity |].
      exists stored. split; [apply Hcur |]. split; [| split; [| apply Hread]].
      * intros _. now apply construct_type in Hc.
      * intros [-> | Heq]; [discriminate Hnone |].
        apply pytype_eqb_eq in Heq. congruence.
    + intros [= <- <-]. split; [apply Hother |]. split; [reflexivity |].
      exists value. split; [apply Hcur |]. split; [| split; [reflexivity | apply Hread]].
      intros Hv. apply andb_false_iff in Hconv as [H | H]; apply negb_false_iff in H;
        apply pytype_eqb_eq in H; [congruence |].
      destruct v; try discriminate. contradiction.
  - destruct (Options.set_option_loop int_of_str names parms name value)
      as [e | [found0 parms0]] eqn:Hrec; [discriminate |].
    intros [= <- <-]. apply IH in Hrec as [Hother Hcur]. split.
    + intros other Ho. cbn [Options.get_option_loop]. rewrite (Hother other Ho).
      reflexivity.
    + cbn [current_entry]. rewrite Hn.
      destruct (current_entry names parms name) as [old |].
      * destruct Hcur as (-> & stored & Hs & Ht & Hv & Hr).
        split; [reflexivity |]. exists stored.
        cbn [current_entry Options.get_option_loop]. rewrite Hn. auto.
      * destruct Hcur as [-> ->]. auto.
Qed.

(** X21.  What [set_option] does to the options.  An option that is not
    declared is not set: the call returns [False] and changes nothing.  For
    a declared option it returns [True] and replaces the first entry of that
    name, keeping the type the entry had (the value is converted to it)
    unless the entry was [None]; a value of the type the entry has is stored
    as it is.  [get_option] then reads that value back, unless a global
    option of the same name hides it, and every other option reads as
    before. *)
Theorem set_option_keeps_the_type (int_of_str : string -> option Z) (o : Options.Options)
  (name : string) (value : pyval) (found : bool) (o' : Options.Options) :
  Options.set_option int_of_str o name value = inr (found, o') ->
  (forall other default,
     other <> name \/ In other Options.global_options ->
     Options.get_option o' other default = Options.get_option o other default) /\
  match current_entry (Options.opt_names o) (Options.opt_parms o) name with
  | None => found = false /\ o' = o
  | Some old =>
      found = true /\
      exists stored,
        current_entry (Options.opt_names o') (Options.opt_parms o') name = Some stored /\
        (old <> VNone -> type_of stored = type_of old) /\
        (old = VNone \/ type_of old = type_of value -> stored = value) /\
        (forall default,
           ~ In name Options.global_options -> stored <> VNone ->
           Options.get_option o' name default = stored)
  end.
Proof.
  unfold Options.set_option.
  destruct (Options.set_option_loop int_of_str (Options.opt_names o) (Options.opt_parms o)
              name value) as [e | [found0 parms']] eqn:Hloop; [discriminate |].
  intros [= <- <-]. apply set_option_loop_effect in Hloop as [Hother Hcur]. split.
  - intros other default Ho. unfold Options.get_option. cbn [Options.cmdlineopts_attr
      Options.opt_names Options.opt_parms].
    destruct (existsb (String.eqb other) Options.global_options) eqn:Hglobal; [reflexivity |].
    destruct Ho as [Ho | Ho]; [now rewrite (Hother other Ho) |].
    exfalso. assert (existsb (String.eqb other) Options.global_options = true); [| congruence].
    apply existsb_exists. exists other. split; [exact Ho | apply String.eqb_refl].
  - cbn [Options.opt_names Options.opt_parms].
    destruct (current_entry (Options.opt_names o) (Options.opt_parms o) name) as [old |].
    + destruct Hcur as (-> & stored & Hs & Ht & Hv & Hr). split; [reflexivity |].
      exists stored. repeat (split; [assumption |]).
      intros default Hng Hne. unfold Options.get_option.
      cbn [Options.opt_names Options.opt_parms].
      destruct (existsb (String.eqb name) Options.global_options) eqn:Hglobal.
      * exfalso. apply Hng. apply existsb_exists in Hglobal as (g & Hg & Heq).
        apply String.eqb_eq in Heq as ->. exact Hg.
      * now rewrite (Hr Hne).
    + destruct Hcur as [-> ->]. split; [reflexivity |]. now destruct o.
Qed.

(** The [timeout] option is declared with the integer -1; setting it from
    the command line string ["30"] stores the integer 30. *)
Lemma set_option_keeps_the_type_witness :
  let o := Options.mk_options ["timeout"; "password"] [VInt (-1); VStr ""]
                              (fun _ => VNone) 300 in
  let int_of_str := fun s => if String.eqb s "30" then Some 30 else None in
  exists o',
    Options.set_option int_of_str o "timeout" (VStr "30") = inr (true, o') /\
    Options.get_option o' "timeout" (VInt 0) = VInt 30 /\
    Options.get_option o' "password" (VInt 0) = VStr "".
Proof.
  cbn zeta. eexists. split; [reflexivity |].
  destruct (set_option_keeps_the_type
              (fun s => if String.eqb s "30" then Some 30 else None)
              (Options.mk_options ["timeout"; "password"] [VInt (-1); VStr ""]
                                  (fun _ => VNone) 300)
              "timeout" (VStr "30") _ _ eq_refl) as [Hother _].
  split; [reflexivity |].
  rewrite (Hother "password" (VInt 0)); [reflexivity | left; discriminate].
Defined.

(** ** Looking for processes *)

Lemma check_process_loop_spec (read_file : string -> exn + string) (process : string)
  (paths : list string) (status : bool) :
  check_process_loop read_file process paths status =
  match first_failure read_file paths with
  | Some e => inl e
  | None => inr (status || existsb (names_process read_file process) paths)
  end.
Proof.
  revert status. induction paths as [|path paths IH]; intros status.
  - cbn. now rewrite orb_false_r.
  - cbn [check_process_loop first_failure existsb]. unfold names_process at 1.
    destruct (read_file path) as [e | text]; [reflexivity |].
    rewrite IH. destruct (first_failure read_file paths); [reflexivity |].
    destruct (PyStr.contains _ process), status; reflexivity.
Qed.

Lemma first_failure_none (read_file : string -> exn + string) (paths : list string) :
  first_failure read_file paths = None <->
  Forall (fun path => exists text, read_file path = inr text) paths.
Proof.
  induction paths as [|path paths IH]; cbn [first_failure].
  - split; [constructor | reflexivity].
  - destruct (read_file path) as [e | text] eqn:Hread.
    + split; [discriminate |]. intros H. apply Forall_cons in H as [[text H] _]. congruence.
    + rewrite IH. split.
      * intros H. apply Forall_cons. eauto.
      * intros H. now apply Forall_cons in H as [_ H].
Qed.

Lemma check_process_by_name_spec (w : World) (read_file : string -> exn + string)
  (process : string) :
  let paths := glob_glob w "/proc/[0-9]*/cmdline" in
  (check_process_by_name w read_file process = inr true <->
   Forall (fun path => exists text, read_file path = inr text) paths /\
   Exists (fun path => names_process read_file process path = true) paths) /\
  (forall e,
     check_process_by_name w read_file process = inl e <->
     first_failure read_file paths = Some e /\ is_OSError_or_IOError e = false).
Proof.
  intros paths. unfold check_process_by_name. cbv zeta. fold paths.
  rewrite check_process_loop_spec. cbn [orb].
  pose proof (first_failure_none read_file paths) as Hnone.
  destruct (first_failure read_file paths) as [e |].
  - assert (~ Forall (fun path => exists text, read_file path = inr text) paths) as Hnot
      by (intros H; apply Hnone in H; discriminate).
    split.
    + destruct (is_OSError_or_IOError e); (split; [discriminate | intros [H _]; tauto]).
    + intros e'. destruct (is_OSError_or_IOError e) eqn:He.
      * split; [discriminate | intros [[= <-] H]; congruence].
      * split; [intros [= <-]; auto | intros [[= <-] _]; reflexivity].
  - split.
    + split.
      * intros [= Hex]. split; [now apply Hnone |].
        apply existsb_exists in Hex as (path & Hin & Hpath).
        apply Exists_exists. exists path. split; [now apply list_elem_of_In | exact Hpath].
      * intros [_ Hex]. f_equal. apply Exists_exists in Hex as (path & Hin & Hpath).
        apply existsb_exists. exists path. split; [now apply list_elem_of_In | exact Hpath].
    + intros e. split; [discriminate | intros [[=] _]].
Qed.

(** X23.  [check_process_by_name] says yes only when it could read the
    command line of every process the glob found and one of them names the
    process: one command line that cannot be read turns the answer into
    [False] when the failure is an [OSError] (a process that has gone since
    the glob), also when a match was seen before it; any other exception of
    the first read that fails (a command line that is not text) leaves the
    call. *)
Theorem process_check_needs_every_cmdline (w : World) (read_file : string -> exn + string)
  (process : string) :
  let paths := glob_glob w "/proc/[0-9]*/cmdline" in
  (check_process_by_name w read_file process = inr true <->
   Forall (fun path => exists text, read_file path = inr text) paths /\
   Exists (fun path => names_process read_file process path = true) paths) /\
  (forall e,
     check_process_by_name w read_file process = inl e <->
     first_failure read_file paths = Some e /\ is_OSError_or_IOError e = false).
Proof. apply check_process_by_name_spec. Qed.

Lemma get_process_pids_loop_app (read_file : string -> exn + string) (process : string)
  (pre rest pids : list string) :
  (forall path, path ∈ pre -> names_process read_file process path = true ->
                is_Some (Options.split_on "/" path 0 !! 2%nat)) ->
  (forall path e, path ∈ pre -> read_file path = inl e -> is_OSError_or_IOError e = true) ->
  get_process_pids_loop read_file process (pre ++ rest) pids =
  get_process_pids_loop read_file process rest
    (pids ++ omap (fun path => if names_process read_file process path
                               then Options.split_on "/" path 0 !! 2%nat else None) pre).
Proof.
  revert pids. induction pre as [|path pre IH]; intros pids Hpid Hread.
  - cbn. now rewrite app_nil_r.
  - assert (forall x, x ∈ pre -> names_process read_file process x = true ->
                      is_Some (Options.split_on "/" x 0 !! 2%nat)) as Hpid'
      by (intros x Hx; apply Hpid; now right).
    assert (forall x e, x ∈ pre -> read_file x = inl e -> is_OSError_or_IOError e = true)
      as Hread' by (intros x e Hx; apply Hread; now right).
    specialize (Hpid path ltac:(now left)). specialize (Hread path).
    cbn [app get_process_pids_loop]. simpl omap. unfold names_process in Hpid |- * at 1.
    destruct (read_file path) as [e | text].
    + rewrite (Hread e) by (try reflexivity; now left). now apply IH.
    + destruct (PyStr.contains _ process); [| now apply IH].
      destruct (Hpid eq_refl) as [pid Hsplit]. rewrite Hsplit.
      rewrite (IH _ Hpid' Hread'). cbn. now rewrite <- app_assoc.
Qed.

(** X24.  As long as every command line that cannot be read fails with an
    [OSError], [get_process_pids] gives, in the order of the glob, the
    process id (the third component of the path) of every process whose
    command line it could read and that names the process; a command line it
    cannot read is passed over.  So whenever [check_process_by_name] says
    yes, the list is not empty (the converse does not hold: see X23).  The
    first command line whose read fails with another exception ends the call
    with that exception. *)
Theorem pids_of_readable_matching_processes (w : World)
  (read_file : string -> exn + string) (process : string) :
  let paths := glob_glob w "/proc/[0-9]*/cmdline" in
  let pid_of := fun path => if names_process read_file process path
                            then Options.split_on "/" path 0 !! 2%nat else None in
  ((forall path, path ∈ paths -> names_process read_file process path = true ->
                 is_Some (Options.split_on "/" path 0 !! 2%nat)) ->
   (forall path e, path ∈ paths -> read_file path = inl e ->
                   is_OSError_or_IOError e = true) ->
   get_process_pids w read_file process = inr (omap pid_of paths) /\
   (check_process_by_name w read_file process = inr true ->
    get_process_pids w read_file process <> inr [])) /\
  (forall pre path post e,
     paths = pre ++ path :: post ->
     (forall x, x ∈ pre -> names_process read_file process x = true ->
                is_Some (Options.split_on "/" x 0 !! 2%nat)) ->
     (forall x e', x ∈ pre -> read_file x = inl e' -> is_OSError_or_IOError e' = true) ->
     read_file path = inl e ->
     is_OSError_or_IOError e = false ->
     get_process_pids w read_file process = inl e).
Proof.
  intros paths pid_of. unfold get_process_pids. cbv zeta. fold paths. split.
  - intros Hpid Hread.
    assert (get_process_pids_loop read_file process paths [] = inr (omap pid_of paths)) as Hrun.
    { rewrite <- (app_nil_r paths) at 1.
      now rewrite (get_process_pids_loop_app _ _ paths [] [] Hpid Hread). }
    split; [exact Hrun |]. rewrite Hrun.
    intros [_ Hex]%check_process_by_name_spec.
    apply Exists_exists in Hex as (path & Hin & Hpath).
    destruct (Hpid path Hin Hpath) as [pid Hsplit].
    intros [= Hnil].
    assert (pid ∈ omap pid_of paths) as Hpids.
    { apply list_elem_of_omap. exists path. split; [exact Hin |].
      unfold pid_of. now rewrite Hpath. }
    rewrite Hnil in Hpids. now apply elem_of_nil in Hpids.
  - intros pre path post e -> Hpid Hread Hpath He.
    rewrite (get_process_pids_loop_app _ _ pre (path :: post) [] Hpid Hread).
    cbn [get_process_pids_loop]. now rewrite Hpath, He.
Qed.

(** Process 1 is [init]; process 42 has gone since the glob.  The list of
    process ids has [1], while the check answers no.  On a host where the
    command line of process 7 is not text, the call raises. *)
Lemma pids_of_readable_matching_processes_witness :
  (get_process_pids (proc_world ["1"; "42"]) proc_read_file "init" = inr ["1"] /\
   check_process_by_name (proc_world ["1"; "42"]) proc_read_file "init" = inr false) /\
  get_process_pids (proc_world ["1"; "7"]) proc_read_file "init" = inl UnicodeDecodeError.
Proof.
  split; [split; [| reflexivity] |].
  - apply (proj1 (pids_of_readable_matching_processes
                    (proc_world ["1"; "42"]) proc_read_file "init")).
    + intros path Hin Hname. vm_compute in Hin.
      apply elem_of_cons in Hin as [-> | Hin]; [eexists; reflexivity |].
      apply elem_of_cons in Hin as [-> | Hin];
        [discriminate Hname | now apply elem_of_nil in Hin].
    + intros path e Hin Hread. vm_compute in Hin.
      apply elem_of_cons in Hin as [-> | Hin]; [discriminate Hread |].
      apply elem_of_cons in Hin as [-> | Hin]; [| now apply elem_of_nil in Hin].
      now injection Hread as <-.
  - apply (proj2 (pids_of_readable_matching_processes
                    (proc_world ["1"; "7"]) proc_read_file "init")
                 ["/proc/1/cmdline"] "/proc/7/cmdline" [] UnicodeDecodeError);
      try reflexivity.
    + intros x Hx _. apply list_elem_of_singleton in Hx as ->. eexists; reflexivity.
    + intros x e Hx Hread. apply list_elem_of_singleton in Hx as ->. discriminate Hread.
Defined.

(** ** Options that hold a list *)

Lemma not_in_chars (cs : list ascii) (c : ascii) :
  existsb (Ascii.eqb c) cs = false -> c ∉ cs.
Proof.
  intros H Hin%list_elem_of_In.
  assert (existsb (Ascii.eqb c) cs = true); [| congruence].
  apply existsb_exists. exists c. split; [exact Hin | apply Ascii.eqb_refl].
Qed.

Lemma strip_is_stripped (cs : list ascii) (s : string) :
  PyStr.truthy (PyStr.strip cs s) = true -> is_stripped cs (PyStr.strip cs s).
Proof.
  intros Hne. unfold is_stripped. split; [intros H; now rewrite H in Hne |]. split.
  - intros c rest H. unfold PyStr.strip in H.
    destruct (rstrip_prefix cs (PyStr.lstrip cs s)) as [post Hpre].
    rewrite H in Hpre. apply not_in_chars, (lstrip_head cs s c (rest +:+ post)).
    exact Hpre.
  - intros c rest H. unfold PyStr.strip, PyStr.rstrip in H.
    rewrite string_rev_involutive in H.
    apply not_in_chars. exact (lstrip_head cs _ c rest H).
Qed.

(** X25.  [get_option_as_list] gives the default for an option that is not
    set or does not hold a string (and for an empty delimiter); for a string
    it gives the fields between the delimiters, none of them empty and none
    with white space at either end. *)
Theorem option_list_entries_are_stripped (o : Options.Options) (optionname delimiter : string)
  (default : option (list string)) :
  match Options.get_option o optionname (VInt 0) with
  | VStr _ =>
      if PyStr.truthy delimiter then
        exists l,
          Options.get_option_as_list o optionname delimiter default = Some l /\
          Forall (is_stripped Options.whitespace) l
      else Options.get_option_as_list o optionname delimiter default = default
  | _ => Options.get_option_as_list o optionname delimiter default = default
  end.
Proof.
  unfold Options.get_option_as_list.
  destruct (Options.get_option o optionname (VInt 0)) as [| b | z | s]; try reflexivity.
  destruct (PyStr.truthy delimiter); [| reflexivity].
  eexists. split; [reflexivity |].
  apply Forall_forall. intros e He%list_elem_of_In.
  apply filter_In in He as [Hin Hne]. apply in_map_iff in Hin as (x & <- & _).
  now apply strip_is_stripped.
Qed.

(** ** The journal *)

Lemma startswith_app_l (a b pre : string) :
  PyStr.startswith a pre = true -> PyStr.startswith (a +:+ b) pre = true.
Proof.
  revert a. induction pre as [|c pre IH]; intros a; [intros _; now destruct (a +:+ b) |].
  destruct a as [|d a]; [discriminate |].
  change (String d a +:+ b) with (String d (a +:+ b)). cbn [PyStr.startswith].
  intros [-> H]%andb_true_iff. now rewrite (IH a H).
Qed.

Lemma startswith_units (units : list string) (a pre : string) :
  PyStr.startswith a pre = true ->
  PyStr.startswith
    (fold_left (fun journal_cmd unit => journal_cmd +:+ " --unit " +:+ unit) units a) pre
  = true.
Proof.
  revert a. induction units as [|u units IH]; intros a H; [exact H |].
  cbn [fold_left]. apply IH. now apply startswith_app_l.
Qed.

Lemma startswith_if (b : bool) (a x pre : string) :
  PyStr.startswith a pre = true ->
  PyStr.startswith (if b then a +:+ x else a) pre = true.
Proof. intros H. destruct b; [now apply startswith_app_l | exact H]. Qed.

Lemma journal_command_prefix (units : units_arg) (boot since until : option string)
  (lines : option Z) (allfields : bool) (output identifier : option string) (catalog : bool) :
  PyStr.startswith
    (journal_command units boot since until lines allfields output identifier catalog)
    "journalctl --no-pager " = true.
Proof.
  unfold journal_command. cbv zeta.
  repeat apply startswith_if. apply startswith_units. reflexivity.
Qed.

(** X22.  [add_journal] runs nothing: under a predicate that holds it queues
    one [journalctl --no-pager] command with the timeout it was given, and
    under one that does not it queues nothing.  The size limit of the queued
    command is 0 when the all-logs option is set; otherwise it is at least
    100 (MB), however small the limit the caller or the log-size option asks
    for, and never below a limit the caller gave. *)
Theorem journal_size_limit_has_a_floor (w : World) (units : units_arg)
  (boot since until : option string) (lines : option Z) (allfields : bool)
  (output : option string) (seconds : option Z) (identifier : option string)
  (catalog : bool) (limit : option Z) (pred : option SoSPredicate) (p : Plugin) :
  exists q,
    add_journal w units boot since until lines allfields output seconds identifier catalog
                limit pred p = Returned tt q /\
    only_queues p q /\
    if test_predicate w p true pred then
      exists c n,
        collect_cmds q = collect_cmds p ++ [c] /\
        PyStr.startswith (cmd c) "journalctl --no-pager " = true /\
        timeout c = seconds /\
        sizelimit c = Some n /\
        (get_option_all_logs p = true -> n = 0) /\
        (get_option_all_logs p = false ->
         100 <= n /\ forall s, limit = Some s -> s <= n)
    else collect_cmds q = collect_cmds p.
Proof.
  unfold add_journal. unfold bind at 1, gets at 1, id. cbv zeta.
  pose proof (journal_command_prefix units boot since until lines allfields output
                identifier catalog) as Hprefix.
  set (journal_cmd := journal_command _ _ _ _ _ _ _ _ _) in *. clearbody journal_cmd.
  unfold bind at 1, _log_debug at 1, log, modify.
  set (p1 := after_events _ p).
  unfold _add_cmd_output, bind, gets, id, _log_debug, _log_info, log, modify.
  change (test_predicate w p1 true pred) with (test_predicate w p true pred).
  destruct (test_predicate w p true pred).
  - eexists. split; [reflexivity |]. split.
    { repeat split. cbn. now rewrite !execs_app, !app_nil_r. }
    eexists _, _. split; [reflexivity |]. cbn [cmd timeout sizelimit].
    split; [| split; [reflexivity | split; [reflexivity |]]].
    + exact Hprefix.
    + split.
      * intros ->. reflexivity.
      * intros ->. cbn [negb]. split; [lia |].
        intros s ->. cbn [num_truthy default from_option].
        destruct (s =? 0) eqn:Hs; cbn [negb]; [apply Z.eqb_eq in Hs |]; lia.
  - eexists. split; [reflexivity |]. split; [| reflexivity].
    repeat split. cbn. now rewrite !execs_app, !app_nil_r.
Qed.

(** ** Substitution in the files that match a path expression *)

Lemma get_dest_congr (p q : Plugin) (src : string) :
  sysroot q = sysroot p -> copied_files q = copied_files p ->
  _get_dest_for_srcpath q src = _get_dest_for_srcpath p src.
Proof.
  intros Hs Hc. unfold _get_dest_for_srcpath, sysroot_joined, use_sysroot, join_sysroot.
  now rewrite Hs, Hc.
Qed.

Lemma get_dest_none (p : Plugin) (src joined : string) :
  sysroot_joined p src = inr joined ->
  Forall (fun r => srcpath r <> joined) (copied_files p) ->
  _get_dest_for_srcpath p src = inr None.
Proof.
  intros Hj Hall. unfold _get_dest_for_srcpath. rewrite Hj.
  induction Hall as [|r l Hr _ IH]; [reflexivity |].
  cbn [List.find]. replace (String.eqb joined (srcpath r)) with false; [exact IH |].
  symmetry. apply String.eqb_neq. congruence.
Qed.

(** The loop of [do_path_regex_sub] over files [l] of the plugin [p0]. *)
Lemma path_regex_sub_loop (w : World) (regexp subst : string) (P : string -> Prop)
  (l : list CopiedFile) (p0 p : Plugin) :
  sysroot p = sysroot p0 ->
  copied_files p = copied_files p0 ->
  Forall (fun f => P (srcpath f)) l ->
  exists q new,
    final_state
      (for_each l (fun file => do_file_sub w (srcpath file) regexp subst ;;; ret tt) p)
      = Some q /\
    grows p q new [] /\
    Forall (fun e => exists src result,
              P src /\ e = add_string result src /\
              exists path, _get_dest_for_srcpath p0 src = inr (Some path)) new.
Proof.
  intros Hs Hc Hall. revert p Hs Hc.
  induction Hall as [|f l Hf _ IH]; intros p Hs Hc.
  - exists p, []. split; [reflexivity |]. split; [apply grows_refl | constructor].
  - cbn [for_each]. unfold bind at 1. unfold bind at 1.
    destruct (do_file_sub_outcomes w (srcpath f) regexp subst p)
      as [(n & q & entries & -> & G & Hn) | (e & q & -> & _ & G)].
    + unfold ret at 1.
      pose proof G as (_ & Hsq & _ & _ & Hcq). rewrite app_nil_r in Hcq.
      destruct (IH q) as (q' & new & Hfinal & G' & Hnew); [congruence | congruence |].
      exists q', (entries ++ new). split; [exact Hfinal |].
      split; [exact (grows_trans _ _ _ _ _ _ _ G G') |].
      apply Forall_app. split; [| exact Hnew].
      destruct Hn as [[_ ->] | (_ & path & content & result & Hd & _ & _ & ->)];
        [constructor |].
      constructor; [| constructor]. exists (srcpath f), result.
      split; [exact Hf |]. split; [reflexivity |]. exists path.
      now rewrite <- (get_dest_congr p0 p) by assumption.
    + exists q, []. split; [reflexivity |]. split; [exact G | constructor].
Qed.

(** X26.  [do_path_regex_sub] always comes to an end, and all it adds to the
    archive are rewritten files: each new entry is a string stored under the
    source path of a collected file that the path expression matches and
    that [_get_dest_for_srcpath] finds.  Nothing is added to
    [copied_files]. *)
Theorem path_regex_sub_rewrites_only_matching_files (w : World)
  (pathexp_match : string -> bool) (regexp subst : string) (p : Plugin) :
  exists q new,
    final_state (do_path_regex_sub w pathexp_match regexp subst p) = Some q /\
    grows p q new [] /\
    Forall (fun e => exists src result,
              pathexp_match src = true /\ e = add_string result src /\
              exists path, _get_dest_for_srcpath p src = inr (Some path)) new.
Proof.
  unfold do_path_regex_sub. unfold bind at 1, gets at 1, id. cbv zeta.
  apply (path_regex_sub_loop w regexp subst (fun src => pathexp_match src = true));
    try reflexivity.
  apply Forall_forall. intros f Hf%list_elem_of_In. now apply filter_In in Hf.
Qed.

(** X27.  Under a sysroot the source paths in [copied_files] are paths of
    the host, and [do_path_regex_sub] hands them to [do_file_sub], which
    joins the sysroot to them once more before looking them up.  So whenever
    no collected file has such a doubly joined path as its source path, the
    call substitutes nothing: the archive is left exactly as it was,
    whatever the expressions are. *)
Theorem path_regex_sub_misses_files_under_sysroot (w : World)
  (pathexp_match : string -> bool) (regexp subst : string) (p : Plugin) :
  (forall f joined,
     f ∈ copied_files p ->
     pathexp_match (srcpath f) = true ->
     sysroot_joined p (srcpath f) = inr joined ->
     Forall (fun r => srcpath r <> joined) (copied_files p)) ->
  exists q,
    final_state (do_path_regex_sub w pathexp_match regexp subst p) = Some q /\
    grows p q [] [].
Proof.
  intros Hmiss.
  unfold do_path_regex_sub. unfold bind at 1, gets at 1, id. cbv zeta.
  destruct (path_regex_sub_loop w regexp subst
              (fun src => exists f, f ∈ copied_files p /\ srcpath f = src /\
                                    pathexp_match src = true)
              (List.filter (fun f => pathexp_match (srcpath f)) (copied_files p)) p p
              eq_refl eq_refl) as (q & new & Hfinal & G & Hnew).
  { apply Forall_forall. intros f Hf%list_elem_of_In. apply filter_In in Hf as [Hin Hm].
    exists f. split; [now apply list_elem_of_In | auto]. }
  exists q. split; [exact Hfinal |].
  destruct new as [|e new]; [exact G |]. exfalso.
  apply Forall_inv in Hnew as (src & result & (f & Hin & <- & Hm) & _ & path & Hdest).
  destruct (sysroot_joined p (srcpath f)) as [err | joined] eqn:Hj.
  - unfold _get_dest_for_srcpath in Hdest. now rewrite Hj in Hdest.
  - rewrite (get_dest_none p (srcpath f) joined Hj (Hmiss f joined Hin Hm Hj)) in Hdest.
    discriminate.
Qed.

(** [/etc/fstab] was collected from [/mnt/image/etc/fstab]; no expression
    reaches it. *)
Lemma path_regex_sub_misses_files_under_sysroot_witness :
  let p := with_archive (fun _ => [add_file "/mnt/image/etc/fstab" "/etc/fstab"])
             (with_copied_files
                (fun _ => [mk_copied "/mnt/image/etc/fstab" "/etc/fstab" "no" None])
                Examples.chroot_plugin) in
  exists q,
    final_state (do_path_regex_sub Examples.scrub_world (fun _ => true) "password="
                                   "password=***" p) = Some q /\
    grows p q [] [].
Proof.
  cbn zeta.
  apply (path_regex_sub_misses_files_under_sysroot Examples.scrub_world (fun _ => true)
           "password=" "password=***").
  intros f joined Hin _ Hj. cbn in Hin. apply list_elem_of_singleton in Hin as ->.
  vm_compute in Hj. injection Hj as <-. repeat constructor. discriminate.
Defined.

(** ** Collecting the queued paths *)

Lemma listed_files_cons (w : World) (p : Plugin) (path : string) (paths : list string) :
  listed_files w p (path :: paths) = listed_files w p [path] ++ listed_files w p paths.
Proof.
  unfold listed_files, kept. cbn [List.filter].
  destruct (is_kept p path); [| reflexivity].
  simpl. now destruct (os_lstat w path).
Qed.

(** The loop of [_collect_copy_specs] over paths that are files. *)
Lemma collect_paths_loop (fuel : nat) (w : World) (paths : list string) (p0 p : Plugin) :
  _timeout_hit p = false ->
  sysroot p = sysroot p0 ->
  forbidden_paths p = forbidden_paths p0 ->
  Forall (fun path =>
            (exists b, _is_forbidden_path p0 path = inr b) /\
            forall st, os_lstat w path = Some st -> copied_as_file w path st) paths ->
  exists q,
    for_each paths
      (fun path =>
         _log_info "collecting path '%s'" [A_str path] ;;;
         _do_copy_path fuel w path None ;;; ret tt) p
    = Returned tt q /\
    grows p q
      (map (fun f => file_entry p0 f.1 f.2) (listed_files w p0 paths))
      (map (fun f => file_record p0 f.1) (listed_files w p0 paths)) /\
    copy_paths q = copy_paths p.
Proof.
  revert p. induction paths as [|path paths IH]; intros p Hp Hs Hf Hall.
  - exists p. split; [reflexivity |]. split; [apply grows_refl | reflexivity].
  - apply Forall_cons in Hall as [[[b Hb] Hfile] Hall].
    cbn [for_each]. unfold bind at 1. unfold bind at 1, _log_info, log, modify.
    set (p1 := after_events _ p).
    assert (grows p p1 [] []) as G1 by apply grows_after_events.
    assert (_timeout_hit p1 = false) as Hp1 by exact Hp.
    assert (_is_forbidden_path p1 path = inr b) as Hb1
      by (rewrite <- Hb; apply is_forbidden_congr; [exact Hs | exact Hf]).
    assert (exists q1 r,
               _do_copy_path fuel w path None p1 = Returned r q1 /\
               grows p1 q1
                 (map (fun f => file_entry p0 f.1 f.2) (listed_files w p0 [path]))
                 (map (fun f => file_record p0 f.1) (listed_files w p0 [path])) /\
               copy_paths q1 = copy_paths p)
      as (q1 & r & Hrun & G2 & Hq1).
    { unfold listed_files, kept. cbn [List.filter]. unfold is_kept. rewrite Hb.
      destruct b.
      - rewrite (do_copy_path_forbidden fuel w path None p1 Hb1).
        rewrite Hp1.
        eexists _, _. split; [reflexivity |]. split; [apply grows_after_events | reflexivity].
      - simpl omap. destruct (os_lstat w path) as [st |] eqn:Hst.
        + assert (copied_as_file w path st) as Hfile' by now apply Hfile.
          destruct (file_type_exclusive w path st Hfile') as (Hlnk & Hdir & Hnode).
          exists (with_copied_files (fun l => l ++ [file_record p0 path])
                    (with_archive (fun a => a ++ [file_entry p0 path st])
                       (after_events [Call "os.lstat" path;
                                      Log DEBUG "copying path '%s' to archive:'%s'"
                                          [A_str path; A_str (strip_sysroot p0 path)]] p1))),
                 None.
          split; [| split; [| reflexivity]].
          * destruct fuel; cbn [_do_copy_path];
              unfold _do_copy_path_body, bind, gets, id; rewrite Hp1, Hb1; cbn [lift ret];
              unfold call, modify; rewrite Hst, Hlnk, Hdir, Hnode;
              cbn [optstr_truthy]; rewrite dest_is_stripped;
              rewrite (strip_sysroot_congr p0 p1) by exact Hs;
              unfold _log_debug, log, modify, archive_call, modify, ret, file_entry,
                file_record;
              rewrite after_events_app;
              now destruct (Z.land (st_mode st) 292 =? 0).
          * unfold grows. cbn. auto.
        + destruct (copy_missing fuel w path p1 Hp Hb1 Hst) as (q1 & Hrun & G).
          exists q1, None. split; [exact Hrun |]. split; [exact G |].
          destruct fuel; cbn [_do_copy_path] in Hrun;
            unfold _do_copy_path_body, bind, gets, id in Hrun;
            rewrite Hp1, Hb1 in Hrun; cbn [lift ret] in Hrun;
            unfold call, modify in Hrun; rewrite Hst in Hrun;
            unfold _log_info, log, modify, ret in Hrun;
            now injection Hrun as <-. }
    unfold bind at 1. rewrite Hrun. unfold bind at 1, ret at 1.
    pose proof (grows_trans _ _ _ _ _ _ _ G1 G2) as G12. cbn [app] in G12.
    pose proof G12 as (Ht12 & Hs12 & Hf12 & _).
    destruct (IH q1) as (q & Hloop & G3 & Hq);
      [congruence | congruence | congruence | exact Hall |].
    exists q. split; [exact Hloop |]. split; [| congruence].
    rewrite listed_files_cons, !map_app.
    exact (grows_trans _ _ _ _ _ _ _ G12 G3).
Qed.

(** X28.  [_collect_copy_specs] goes through the queued paths and, when
    each of them is a file (or is gone, or has become forbidden since it was
    queued), the archive gets exactly the queued files that are not
    forbidden and that [lstat] finds, each under its sysroot-stripped path
    and with its record in [copied_files]; a path that is gone or forbidden
    is passed over and the collection goes on.  The queue itself is left as
    it was. *)
Theorem queued_files_are_collected (fuel : nat) (w : World) (p : Plugin) :
  _timeout_hit p = false ->
  (forall path,
     path ∈ copy_paths p ->
     (exists b, _is_forbidden_path p path = inr b) /\
     forall st, os_lstat w path = Some st -> copied_as_file w path st) ->
  exists q,
    _collect_copy_specs fuel w p = Returned tt q /\
    grows p q
      (map (fun f => file_entry p f.1 f.2) (listed_files w p (elements (copy_paths p))))
      (map (fun f => file_record p f.1) (listed_files w p (elements (copy_paths p)))) /\
    copy_paths q = copy_paths p.
Proof.
  intros Hp Hall. unfold _collect_copy_specs. unfold bind at 1, gets at 1, id.
  apply collect_paths_loop; try reflexivity; [exact Hp |].
  apply Forall_forall. intros path Hin. apply Hall. now apply elem_of_elements.
Qed.

(** With [/etc/passwd] queued, the collection archives it. *)
Lemma queued_files_are_collected_witness :
  let p := with_copy_paths (fun _ => {[ "/etc/passwd" ]})
                           (Examples.new_plugin "etc" "/" Examples.null_predicate) in
  exists q,
    _collect_copy_specs 0 Examples.etc_world p = Returned tt q /\
    archive q = [add_file "/etc/passwd" "/etc/passwd"].
Proof.
  cbn zeta.
  destruct (queued_files_are_collected 0 Examples.etc_world
              (with_copy_paths (fun _ => {[ "/etc/passwd" ]})
                               (Examples.new_plugin "etc" "/" Examples.null_predicate)))
    as (q & Hrun & (_ & _ & _ & Ha & _) & _).
  - reflexivity.
  - intros path Hin. cbn in Hin. apply elem_of_singleton in Hin as ->.
    split; [eexists; reflexivity |]. intros st [= <-]. left. reflexivity.
  - exists q. split; [exact Hrun |].
    rewrite Ha. cbn [copy_paths with_copy_paths]. rewrite elements_singleton. reflexivity.
Defined.

(** ** A link that is followed *)

(** X29.  A symbolic link to a file is archived with its target: the link
    itself first, with its record, then the target, copied by one recursive
    call.  The path handed to that call is the normalised target with the
    sysroot stripped, and it is that path that is looked up on the host,
    archived and recorded. *)
Theorem link_target_is_copied (fuel : nat) (w : World) (src : string) (dest : option string)
  (p : Plugin) (st tst : stat_result) :
  _timeout_hit p = false ->
  _is_forbidden_path p src = inr false ->
  os_lstat w src = Some st ->
  Stat.S_ISLNK (st_mode st) = true ->
  let linkdest := os_readlink w src in
  let absdest := os_path_normpath w (OsPath.join (OsPath.dirname src) linkdest) in
  let target := strip_sysroot p absdest in
  os_path_isdir w absdest = false ->
  os_stat w absdest <> inl ELOOP ->
  absdest <> src ->
  _is_forbidden_path p target = inr false ->
  os_lstat w target = Some tst ->
  copied_as_file w target tst ->
  exists q reldest,
    _do_copy_path (S fuel) w src dest p = Returned None q /\
    (OsPath.isabs linkdest = false -> reldest = linkdest) /\
    grows p q
      [add_link reldest (strip_sysroot p src); file_entry p target tst]
      [mk_copied src (strip_sysroot p src) "yes" (Some linkdest); file_record p target].
Proof.
  intros Hp Hf Hst Hlnk linkdest absdest target Hnodir Hnoloop Hself Hft Htst Hfile.
  cbn [_do_copy_path].
  unfold _do_copy_path_body at 1, _copy_symlink, bind, gets, id, call, _log_debug, log, modify,
    archive_call, modify, ret.
  rewrite Hp, Hf. cbv beta iota. unfold lift, ret. rewrite Hst, Hlnk.
  fold linkdest. fold absdest. rewrite Hnodir.
  assert (match os_stat w absdest with inl errno => errno =? 40 | inr _ => false end = false)
    as ->.
  { destruct (os_stat w absdest) as [errno |]; [| reflexivity].
    apply Z.eqb_neq. intros ->. now apply Hnoloop. }
  replace (String.eqb absdest src) with false by (symmetry; now apply String.eqb_neq).
  cbn [negb].
  change (strip_sysroot (after_events [Call "os.lstat" src] p) absdest) with target.
  change (strip_sysroot (after_events [Call "os.lstat" src] p) src) with (strip_sysroot p src).
  destruct (OsPath.isabs linkdest) eqn:Habs; cbv beta iota;
    match goal with
    | |- context [_do_copy_path fuel w target None ?s] =>
        destruct (copy_one_file fuel w target s tst Hp Hft Htst Hfile)
          as (q & -> & Ht & Hs & Hfb & Ha & Hc)
    end;
    (exists q; eexists; split; [reflexivity |]; apply and_comm; split;
     [ unfold grows; rewrite Ht, Hs, Hfb, Ha, Hc; cbn; rewrite <- ?app_assoc; cbn; auto 6
     | intros; congruence || reflexivity ]).
Qed.

(** [/etc/localtime] is a link to [../usr/share/zoneinfo/UTC]: the link and
    the zone file are both archived. *)
Lemma link_target_is_copied_witness :
  let p := Examples.new_plugin "system" "/" Examples.null_predicate in
  exists q reldest,
    _do_copy_path 1 localtime_world "/etc/localtime" None p = Returned None q /\
    (false = false -> reldest = "../usr/share/zoneinfo/UTC") /\
    grows p q
      [add_link reldest "/etc/localtime";
       add_file "/usr/share/zoneinfo/UTC" "/usr/share/zoneinfo/UTC"]
      [mk_copied "/etc/localtime" "/etc/localtime" "yes" (Some "../usr/share/zoneinfo/UTC");
       mk_copied "/usr/share/zoneinfo/UTC" "/usr/share/zoneinfo/UTC" "no" None].
Proof.
  cbn zeta.
  apply (link_target_is_copied 0 localtime_world "/etc/localtime" None
           (Examples.new_plugin "system" "/" Examples.null_predicate)
           (mk_stat 0xA1FF 25 0 10) (mk_stat 0x81A4 114 0 10));
    try reflexivity; try discriminate.
  left. reflexivity.
Defined.

(** ** Collecting the queued commands *)

Lemma get_cmd_output_now_frame (fuel : nat) (w : World) (c : SoSCommand)
  (p : Plugin) (r : option string) (p' : Plugin) :
  _get_cmd_output_now fuel w c p = Returned r p' ->
  _timeout_hit p' = _timeout_hit p.
Proof.
  intros H. unfold _get_cmd_output_now in H. unfold bind at 1, gets at 1, id in H.
  destruct (_timeout_hit p) eqn:Hp; [injection H as <- <-; exact Hp |].
  unfold bind at 1 in H.
  destruct (get_command_output _ _ _ _ _ _ _ _ _ _ p) as [res q | e q |] eqn:Hrun;
    try discriminate.
  apply get_command_output_returned in Hrun
    as [(Hq & _) | (_ & evs & tr & req & -> & -> & Hreq)]; [congruence |].
  unfold bind at 1 in H. destruct (PyStr.first_word (cmd c)); [| discriminate].
  unfold lift, ret at 1 in H. unfold bind at 1, _log_debug, log, modify in H.
  unfold bind at 1 in H.
  destruct (_make_command_filename _ _ _ _ _) as [outfn q | e q |] eqn:Hfn in H;
    try discriminate.
  apply make_command_filename_returned in Hfn as ->.
  unfold bind at 1, ret at 1 in H.
  unfold archive_call, modify, bind, ret in H.
  destruct (binary c), (optstr_truthy (root_symlink c));
    injection H as <- <-; exact Hp.
Qed.

Lemma collect_cmd_loop (fuel : nat) (w : World) (l : list SoSCommand) (p q : Plugin) :
  _timeout_hit p = false ->
  for_each l
    (fun soscmd =>
       _log_debug "unpacked command: " [A_cmd soscmd] ;;;
       _log_info "collecting output of '%s'" [A_str (cmd soscmd)] ;;;
       _get_cmd_output_now fuel w soscmd ;;; ret tt) p = Returned tt q ->
  exists records,
    executed_commands q = executed_commands p ++ records /\
    Forall2 records_command l records.
Proof.
  revert p. induction l as [|c l IH]; intros p Hp H.
  - injection H as <-. exists []. split; [now rewrite app_nil_r | constructor].
  - cbn [for_each] in H. unfold bind at 1 in H.
    unfold bind at 1, _log_debug, log, modify in H.
    unfold bind at 1, _log_info, log, modify in H.
    rewrite after_events_app in H. unfold bind at 1 in H.
    set (p1 := after_events _ p) in H.
    destruct (_get_cmd_output_now fuel w c p1) as [r p2 | e p2 |] eqn:Hrun;
      try discriminate.
    unfold ret at 1 in H.
    pose proof (get_cmd_output_now_frame _ _ _ _ _ _ Hrun) as Hframe.
    apply get_cmd_output_now_returned in Hrun
      as [(Hq & _) | (_ & outfn & tr & req & _ & _ & Hx & _)];
      [change (_timeout_hit p = true) in Hq; congruence |].
    destruct (IH p2) as (records & Hrecs & Hall); [rewrite Hframe; exact Hp | exact H |].
    eexists (_ :: records). split.
    + rewrite Hrecs, Hx. change (executed_commands p1) with (executed_commands p).
      now rewrite <- app_assoc.
    + constructor; [| exact Hall]. repeat split. cbn. eauto.
Qed.

(** X30.  When [_collect_cmd_output] returns (and the timeout was not hit),
    every queued command has been recorded in [executed_commands], once and
    in the order of the queue: the record names the command line, carries a
    file, and is flagged binary exactly when the command was queued as
    binary. *)
Theorem collected_commands_are_recorded_in_order (fuel : nat) (w : World) (p q : Plugin) :
  _timeout_hit p = false ->
  _collect_cmd_output fuel w p = Returned tt q ->
  exists records,
    executed_commands q = executed_commands p ++ records /\
    Forall2 records_command (collect_cmds p) records.
Proof.
  intros Hp H. unfold _collect_cmd_output in H. unfold bind at 1, gets at 1, id in H.
  now apply (collect_cmd_loop fuel w (collect_cmds p) p q).
Qed.

(** Two commands the host does not have are queued; both are recorded, in
    that order. *)
Lemma collected_commands_are_recorded_in_order_witness :
  let p := with_collect_cmds
             (fun _ => [Examples.simple_command "lsblk -f"; Examples.simple_command "ip addr"])
             Examples.demo_plugin in
  exists q records,
    _collect_cmd_output 1 Examples.bare_world p = Returned tt q /\
    executed_commands q = executed_commands p ++ records /\
    Forall2 records_command (collect_cmds p) records.
Proof.
  cbn zeta.
  assert (exists q,
             _collect_cmd_output 1 Examples.bare_world
               (with_collect_cmds
                  (fun _ => [Examples.simple_command "lsblk -f";
                             Examples.simple_command "ip addr"])
                  Examples.demo_plugin) = Returned tt q) as [q Hrun]
    by (eexists; vm_compute; reflexivity).
  destruct (collected_commands_are_recorded_in_order 1 Examples.bare_world
              (with_collect_cmds
                 (fun _ => [Examples.simple_command "lsblk -f";
                            Examples.simple_command "ip addr"])
                 Examples.demo_plugin) q eq_refl Hrun)
    as (records & Hrecs & Hall).
  exists q, records. split; [exact Hrun | split; [exact Hrecs | exact Hall]].
Defined.
